(** * The simulated ground-station transfer core of [client/utils/avalanche.ts]

    A shallow embedding of [SubnetHealthMonitor] and [SecureTransferManager]:
    the station registry, the health snapshots and their periodic refresh, and
    the transfer manager with its map of shared, mutable status objects.

    Conventions.
    - A JavaScript [number] that is whole on every path of the source (a
      percentage, an index, a clock reading, a counter) is a [Z].  A number
      a caller supplies, such as the size of a request, is a [number]: a
      finite value, an infinity or NaN, with exact comparisons and binary64
      rounding of every arithmetic result.  The health metrics, perturbed
      by fractions and then clamped, are exact rationals [Q]; what is
      stated of them rests on the clamps and on margins that the rounding
      of the source does not use up.
    - [TransferStatus] objects are shared by reference between the
      [activeTransfers] map and the running executors, so the manager keeps a
      store of objects and both sides hold addresses into it.
    - An [async] function runs synchronously up to its first [await].  The
      one-second timer of [simulateStationTransfer] is the suspension at
      which other callers and timers get to run; an [await] on a result that
      is already there only defers the rest of the function to the end of the
      running job, and is executed here as part of that job. *)

From Stdlib Require Import ZArith QArith Qround Qminmax Qabs Qpower Ascii
  String List Bool Lia SpecFloat.
From stdpp Require Import gmap strings list pretty.

Local Open Scope string_scope.
Local Open Scope list_scope.
Local Open Scope Z_scope.

(** ** Numbers *)

(** A JavaScript [number] that need not be whole.  The finite numbers of the
    source are binary64 values, every one of them a rational; zero carries
    no sign, since nothing below divides by a zero or prints one. *)
Inductive number :=
| Finite (q : Q)
| Infinity (negative : bool)
| NaN.

(** A whole number as a [number]. *)
Definition whole (n : Z) : number := Finite (inject_Z n).

Coercion whole : Z >-> number.

Definition Qlt_bool (x y : Q) : bool := negb (Qle_bool y x).

(** [x < y] and [x <= y]: exact on finite operands, false as soon as one
    operand is NaN. *)
Definition number_lt (x y : number) : bool :=
  match x, y with
  | Finite a, Finite b => Qlt_bool a b
  | Finite _, Infinity negative => negb negative
  | Infinity negative, Finite _ => negative
  | Infinity n1, Infinity n2 => n1 && negb n2
  | _, _ => false
  end.

Definition number_le (x y : number) : bool :=
  match x, y with
  | Finite a, Finite b => Qle_bool a b
  | Finite _, Infinity negative => negb negative
  | Infinity negative, Finite _ => negative
  | Infinity n1, Infinity n2 => n1 || negb n2
  | _, _ => false
  end.

(** [floor (log2 x)] for [x > 0]. *)
Definition Qlog2 (x : Q) : Z :=
  let k := Z.log2 (Qnum x) - Z.log2 (Zpos (Qden x)) in
  if Qle_bool (2 ^ k) x then k else k - 1.

(** The whole number nearest to [x], the even one of the two on a tie. *)
Definition round_half_even (x : Q) : Z :=
  let f := Qfloor x in
  match (x - inject_Z f ?= 1 # 2)%Q with
  | Lt => f
  | Gt => f + 1
  | Eq => if Z.even f then f else f + 1
  end.

(** The binary64 value nearest to a real: 53 significant bits, the last of
    them worth [2 ^ e] with [e] no less than -1074 (below [2 ^ -1022] the
    values are subnormal), ties to the even significand.  [round64_finite]
    leaves the exponent unbounded above; [round64] gives an infinity for a
    result of [2 ^ 1024] or more. *)
Definition round64_exponent (x : Q) : Z :=
  Z.max (Qlog2 (Qabs x) - 52) (-1074).

Definition round64_finite (x : Q) : Q :=
  if Qeq_bool x 0 then 0%Q
  else let e := round64_exponent x in
       (inject_Z (round_half_even (x / 2 ^ e)) * 2 ^ e)%Q.

Definition round64 (x : Q) : number :=
  let r := round64_finite x in
  if Qle_bool (2 ^ 1024) (Qabs r) then Infinity (Qlt_bool r 0) else Finite r.

(** The value of a decimal literal of the source. *)
Definition literal (q : Q) : Q := round64_finite q.

(** [x * c] and [x / c] for a finite constant [c > 0]. *)
Definition number_mul (x : number) (c : Q) : number :=
  match x with
  | Finite q => round64 (q * c)
  | Infinity negative => Infinity negative
  | NaN => NaN
  end.

Definition number_div (x : number) (c : Q) : number :=
  match x with
  | Finite q => round64 (q / c)
  | Infinity negative => Infinity negative
  | NaN => NaN
  end.

Definition Math_ceil (x : number) : number :=
  match x with
  | Finite q => whole (Qceiling q)
  | Infinity negative => Infinity negative
  | NaN => NaN
  end.

(** [Number.isSafeInteger]: the whole numbers binary64 holds without gaps. *)
Definition safe_integer (n : Z) : Prop := - 2 ^ 53 < n < 2 ^ 53.

(** ** Data model *)

Inductive Priority := low | medium | high | critical.

Inductive EncryptionType := AES_256 | ChaCha20_Poly1305.

(** [TransferStatus['status']]: the four literals of the source's union. *)
Inductive Phase := pending | processing | completed | failed.

#[global] Instance Phase_eq_dec : EqDecision Phase.
Proof. solve_decision. Defined.

Module TransferRequest.
Record t := mk {
  id : string;
  fromStation : string;
  toStation : string;
  dataSize : number;
  priority : Priority;
  encryptionType : EncryptionType;
  timestamp : Z;
  checksum : string
}.

Definition with_dataSize (r : t) (n : number) : t :=
  mk (id r) (fromStation r) (toStation r) n (priority r)
     (encryptionType r) (timestamp r) (checksum r).
End TransferRequest.

Module TransferStatus.
Record t := mk {
  requestId : string;
  status : Phase;
  progress : Z;
  currentStation : string;
  nextStation : string;
  estimatedTime : number;
  error : option string
}.

(** Field assignments [status.f = v]. *)
Definition set_status (v : Phase) (s : t) : t :=
  mk (requestId s) v (progress s) (currentStation s) (nextStation s)
     (estimatedTime s) (error s).
Definition set_progress (v : Z) (s : t) : t :=
  mk (requestId s) (status s) v (currentStation s) (nextStation s)
     (estimatedTime s) (error s).
Definition set_currentStation (v : string) (s : t) : t :=
  mk (requestId s) (status s) (progress s) v (nextStation s)
     (estimatedTime s) (error s).
Definition set_nextStation (v : string) (s : t) : t :=
  mk (requestId s) (status s) (progress s) (currentStation s) v
     (estimatedTime s) (error s).
Definition set_error (v : option string) (s : t) : t :=
  mk (requestId s) (status s) (progress s) (currentStation s) (nextStation s)
     (estimatedTime s) v.
End TransferStatus.

Module SubnetHealth.
Record t := mk {
  stationId : string;
  uptime : Q;
  lastBlock : Z;
  validatorCount : Z;
  consensusRate : Q;
  networkLatency : Q;
  dataThroughput : Q
}.
End SubnetHealth.

(** ** Station registry *)

(** [ISROSubnetConfig] without its [lastBlock] field, a clock reading taken
    when the module loads that nothing below reads. *)
Module ISROSubnetConfig.
Record t := mk {
  subnetId : string;
  chainId : string;
  rpcUrl : string;
  validators : list string;
  minStake : string;
  uptimeRequirement : Q;
  name : string
}.
End ISROSubnetConfig.

Definition station_validators : list string :=
  [ "0xC0c5Ae331EC9754E8bbB043dC531C4C5bBaD10c7";
    "0x11e076A2c22DcA205051B689D88f40A4cD6C844b";
    "0xaa4D50bF097296cc0349701Da0de9Ca5Cfc65D7A";
    "0xe75dF2dC382b8AD3143f05E4229952A2A44c4E3E" ].

(** The four entries differ in their display name only. *)
Definition station_config (display : string) : ISROSubnetConfig.t :=
  ISROSubnetConfig.mk
    "2b175hLJhG1KHLbChqQp4ePx9Qd2K9QK9QK9QK9QK9QK9QK9QK9QK9QK9QK9"
    "0xa869"
    "https://api.avax-test.network/ext/bc/C/rpc"
    station_validators
    "2000000000000000000000000"
    (95 # 100)
    display.

(** The object literal, in declaration order (the order of [Object.keys]). *)
Definition ISRO_SUBNET_CONFIG : list (string * ISROSubnetConfig.t) :=
  [ ("bangalore", station_config "ISRO Bangalore");
    ("chennai", station_config "ISRO Chennai");
    ("delhi", station_config "ISRO Delhi");
    ("sriharikota", station_config "ISRO Sriharikota") ].

Definition station_ids : list string := map fst ISRO_SUBNET_CONFIG.

(** Property names every object literal inherits from [Object.prototype]. *)
Definition Object_prototype_names : list string :=
  [ "constructor"; "hasOwnProperty"; "isPrototypeOf"; "propertyIsEnumerable";
    "toLocaleString"; "toString"; "valueOf"; "__proto__";
    "__defineGetter__"; "__defineSetter__";
    "__lookupGetter__"; "__lookupSetter__" ].

Definition mem_string (k : string) (l : list string) : bool :=
  existsb (String.eqb k) l.

(** [k in obj] for an object literal: own keys, then the prototype. *)
Definition js_in {V} (k : string) (obj : list (string * V)) : bool :=
  mem_string k (map fst obj) || mem_string k Object_prototype_names.

(** ** Routing and validation *)

Definition getTransferRoute (fromStation toStation : string) : list string :=
  if String.eqb fromStation toStation then [fromStation]
  else if String.eqb fromStation "bangalore" || String.eqb toStation "bangalore"
       then [fromStation; toStation]
       else [fromStation; "bangalore"; toStation].

Definition max_dataSize : Z := 100 * 1024 * 1024 * 1024.

Definition validateTransferRequest (request : TransferRequest.t) : bool :=
  (0 <? Z.of_nat (String.length (TransferRequest.id request)))
  && js_in (TransferRequest.fromStation request) ISRO_SUBNET_CONFIG
  && js_in (TransferRequest.toStation request) ISRO_SUBNET_CONFIG
  && number_lt 0 (TransferRequest.dataSize request)
  && number_le (TransferRequest.dataSize request) max_dataSize.

(** The table of multipliers: the literals 1.5, 1.0, 0.7 and 0.5. *)
Definition priorityMultiplier (p : Priority) : Q :=
  match p with
  | low => literal (15 # 10)
  | medium => literal 1
  | high => literal (7 # 10)
  | critical => literal (5 # 10)
  end.

(** [Math.ceil(baseTime * multiplier * 60)], each of the three operations
    rounded as the source rounds it. *)
Definition calculateEstimatedTime (request : TransferRequest.t) : number :=
  let baseTime :=
    number_div (TransferRequest.dataSize request) (inject_Z (100 * 1024 * 1024)) in
  Math_ceil
    (number_mul
       (number_mul baseTime
          (priorityMultiplier (TransferRequest.priority request)))
       60).

(** The copy of the routing rule in the [useAvalancheSubnet] hook. *)
Module useAvalancheSubnet.
Definition getTransferRoute (fromStation toStation : string) : list string :=
  if String.eqb fromStation toStation then [fromStation]
  else if String.eqb fromStation "bangalore" || String.eqb toStation "bangalore"
       then [fromStation; toStation]
       else [fromStation; "bangalore"; toStation].
End useAvalancheSubnet.

(** ** The health monitor *)

(** [Math.random()] is an oracle: [random n] is the value of the [n]-th call,
    and every computation that draws threads the number of calls made so
    far. *)
Definition Rand (A : Type) : Type := nat -> A * nat.

#[global] Instance Rand_ret : MRet Rand := fun A a n => (a, n).

#[global] Instance Rand_bind : MBind Rand :=
  fun A B k c n => let '(a, n') := c n in k a n'.

Definition clamp (lo hi x : Q) : Q := Qmax lo (Qmin hi x).

Definition healthy_defaults (stationId : string) (config : ISROSubnetConfig.t)
    (now : Z) (latency throughput : Q) : SubnetHealth.t :=
  SubnetHealth.mk stationId (99 # 100) now
    (Z.of_nat (length (ISROSubnetConfig.validators config)))
    (98 # 100) latency throughput.

Section Monitor.

(** The values [Math.random()] returns, in call order. *)
Variable random : nat -> Q.

Definition Math_random : Rand Q := fun n => (random n, S n).

(** The loop of [initializeHealthMonitoring]; [now] is the clock reading. *)
Fixpoint initializeHealthMonitoring_loop (now : Z)
    (stations : list (string * ISROSubnetConfig.t))
    (healthData : gmap string SubnetHealth.t)
  : Rand (gmap string SubnetHealth.t) :=
  match stations with
  | [] => mret healthData
  | (stationId, config) :: rest =>
      r1 ← Math_random;
      r2 ← Math_random;
      initializeHealthMonitoring_loop now rest
        (<[stationId := healthy_defaults stationId config now
                          (50 + r1 * 50)%Q (500 + r2 * 500)%Q]> healthData)
  end.

Definition initializeHealthMonitoring (now : Z)
  : Rand (gmap string SubnetHealth.t) :=
  initializeHealthMonitoring_loop now ISRO_SUBNET_CONFIG ∅.

Definition checkStationHealth (now : Z)
    (healthData : gmap string SubnetHealth.t)
    (stationId : string) (config : ISROSubnetConfig.t)
  : Rand SubnetHealth.t :=
  baseHealth ←
    match healthData !! stationId return Rand SubnetHealth.t with
    | Some h => mret h
    | None =>
        r1 ← Math_random;
        r2 ← Math_random;
        mret (healthy_defaults stationId config now
               (r1 * 100 + 50)%Q (r2 * 1000 + 500)%Q)
    end;
  u ← Math_random;
  b ← Math_random;
  c ← Math_random;
  l ← Math_random;
  d ← Math_random;
  mret (SubnetHealth.mk
         (SubnetHealth.stationId baseHealth)
         (clamp (97 # 100) 1
            (SubnetHealth.uptime baseHealth + (u - (1 # 2)) * (1 # 100))%Q)
         (SubnetHealth.lastBlock baseHealth + Qfloor (b * 100)%Q)
         (SubnetHealth.validatorCount baseHealth)
         (clamp (97 # 100) 1
            (SubnetHealth.consensusRate baseHealth + (c - (1 # 2)) * (2 # 100))%Q)
         (clamp 30 150
            (SubnetHealth.networkLatency baseHealth + (l - (1 # 2)) * 20)%Q)
         (clamp 200 2000
            (SubnetHealth.dataThroughput baseHealth + (d - (1 # 2)) * 100)%Q)).

(** The loop of [updateHealthData]; the simulated check cannot throw, so the
    [catch] arm never runs. *)
Fixpoint updateHealthData_loop (now : Z)
    (stations : list (string * ISROSubnetConfig.t))
    (healthData : gmap string SubnetHealth.t)
  : Rand (gmap string SubnetHealth.t) :=
  match stations with
  | [] => mret healthData
  | (stationId, config) :: rest =>
      health ← checkStationHealth now healthData stationId config;
      updateHealthData_loop now rest (<[stationId := health]> healthData)
  end.

Definition updateHealthData (now : Z) (healthData : gmap string SubnetHealth.t)
  : Rand (gmap string SubnetHealth.t) :=
  updateHealthData_loop now ISRO_SUBNET_CONFIG healthData.

End Monitor.

Definition getStationHealth (healthData : gmap string SubnetHealth.t)
    (stationId : string) : option SubnetHealth.t :=
  healthData !! stationId.

Definition isStationHealthy (healthData : gmap string SubnetHealth.t)
    (stationId : string) : bool :=
  match healthData !! stationId with
  | None => false
  | Some health =>
      Qle_bool (95 # 100) (SubnetHealth.uptime health)
      && Qle_bool (95 # 100) (SubnetHealth.consensusRate health)
      && Qlt_bool (SubnetHealth.networkLatency health) 150
  end.

(** ** The transfer manager *)

(** A suspended run of [executeTransfer]: it waits on the timer inside
    [simulateStationTransfer] with the loop variables [i] and [step], and
    holds the address of the status object it was started with. *)
Record Task := mkTask {
  task_request : TransferRequest.t;
  task_status : nat;
  task_stations : list string;
  task_i : Z;
  task_step : Z
}.

(** [objects] is the store of [TransferStatus] objects, addressed by
    position; [activeTransfers] maps a request id to an address; [timers]
    are the pending one-second timeouts, oldest first. *)
Record SecureTransferManager := mkManager {
  objects : list TransferStatus.t;
  activeTransfers : gmap string nat;
  transferQueue : list TransferRequest.t;
  timers : list Task
}.

Definition new_manager : SecureTransferManager := mkManager [] ∅ [] [].

(** [status.f = v] on the object at address [l]. *)
Definition assign (l : nat) (f : TransferStatus.t -> TransferStatus.t)
    (m : SecureTransferManager) : SecureTransferManager :=
  mkManager (alter f l (objects m)) (activeTransfers m) (transferQueue m)
    (timers m).

Definition allocate (s : TransferStatus.t) (m : SecureTransferManager)
  : nat * SecureTransferManager :=
  (length (objects m),
   mkManager (objects m ++ [s]) (activeTransfers m) (transferQueue m)
     (timers m)).

Definition activeTransfers_set (key : string) (l : nat)
    (m : SecureTransferManager) : SecureTransferManager :=
  mkManager (objects m) (<[key := l]> (activeTransfers m)) (transferQueue m)
    (timers m).

(** [this.activeTransfers.set(status.requestId, status)]. *)
Definition activeTransfers_set_own (l : nat) (m : SecureTransferManager)
  : SecureTransferManager :=
  match objects m !! l with
  | Some s => activeTransfers_set (TransferStatus.requestId s) l m
  | None => m
  end.

Definition transferQueue_push (request : TransferRequest.t)
    (m : SecureTransferManager) : SecureTransferManager :=
  mkManager (objects m) (activeTransfers m) (transferQueue m ++ [request])
    (timers m).

Definition setTimeout (t : Task) (m : SecureTransferManager)
  : SecureTransferManager :=
  mkManager (objects m) (activeTransfers m) (transferQueue m) (timers m ++ [t]).

Definition getTransferStatus (transferId : string) (m : SecureTransferManager)
  : option TransferStatus.t :=
  l ← activeTransfers m !! transferId; objects m !! l.

Definition transferSteps : Z := 10.

(** One pass through the body of the loop of [simulateStationTransfer], up
    to its [await]. *)
Definition simulateStationTransfer_step (t : Task) (step : Z)
    (m : SecureTransferManager) : SecureTransferManager :=
  let m := assign (task_status t)
             (TransferStatus.set_progress
                (Z.min 100 ((step + 1) * (100 / transferSteps)))) m in
  let m := activeTransfers_set_own (task_status t) m in
  setTimeout (mkTask (task_request t) (task_status t) (task_stations t)
                (task_i t) step) m.

(** The loop of [executeTransfer] from its test at index [i]: either the
    body runs up to the first timer of the hop, or the loop is over and the
    final [activeTransfers.set] runs.  Under the test both indices are in
    range. *)
Definition executeTransfer_loop (request : TransferRequest.t) (l : nat)
    (stations : list string) (i : Z) (m : SecureTransferManager)
  : SecureTransferManager :=
  if i <? Z.of_nat (length stations) - 1 then
    let fromStation := nth (Z.to_nat i) stations "" in
    let toStation := nth (Z.to_nat (i + 1)) stations "" in
    let m := assign l (TransferStatus.set_currentStation fromStation) m in
    let m := assign l (TransferStatus.set_nextStation toStation) m in
    simulateStationTransfer_step (mkTask request l stations i 0) 0 m
  else
    activeTransfers_set (TransferRequest.id request) l m.

Definition executeTransfer (request : TransferRequest.t) (l : nat)
    (m : SecureTransferManager) : SecureTransferManager :=
  let m := assign l (TransferStatus.set_status processing) m in
  let stations :=
    getTransferRoute (TransferRequest.fromStation request)
      (TransferRequest.toStation request) in
  executeTransfer_loop request l stations 0 m.

(** The timer of a suspended task fires: the step loop goes on, and when it
    is over control is back in [executeTransfer] after the [await]. *)
Definition resume (t : Task) (m : SecureTransferManager)
  : SecureTransferManager :=
  let step := task_step t + 1 in
  if step <? transferSteps then simulateStationTransfer_step t step m
  else
    let m :=
      if task_i t =? Z.of_nat (length (task_stations t)) - 2 then
        let m := assign (task_status t)
                   (TransferStatus.set_status completed) m in
        assign (task_status t) (TransferStatus.set_progress 100) m
      else m in
    executeTransfer_loop (task_request t) (task_status t) (task_stations t)
      (task_i t + 1) m.

(** The [k]-th pending timeout fires: it leaves the timer list and its task
    resumes. *)
Definition timer_fires (k : nat) (m : SecureTransferManager)
  : SecureTransferManager :=
  match timers m !! k with
  | None => m
  | Some t =>
      resume t
        (mkManager (objects m) (activeTransfers m) (transferQueue m)
           (delete k (timers m)))
  end.

(** Nothing [executeTransfer] does can throw, so the [catch] arm is dead. *)
Definition processTransferQueue (m : SecureTransferManager)
  : SecureTransferManager :=
  match transferQueue m with
  | [] => m
  | request :: rest =>
      let m := mkManager (objects m) (activeTransfers m) rest (timers m) in
      match activeTransfers m !! TransferRequest.id request with
      | None => m
      | Some l => executeTransfer request l m
      end
  end.

(** An [async] call settles its promise either way. *)
Inductive Outcome := Resolved (value : string) | Rejected (message : string).

(** The statements of [initiateTransfer] between the two guards and the
    start of processing. *)
Definition enqueueTransfer (request : TransferRequest.t)
    (m : SecureTransferManager) : SecureTransferManager :=
  let transferStatus :=
    TransferStatus.mk (TransferRequest.id request) pending 0
      (TransferRequest.fromStation request) (TransferRequest.toStation request)
      (calculateEstimatedTime request) None in
  let '(l, m) := allocate transferStatus m in
  let m := activeTransfers_set (TransferRequest.id request) l m in
  transferQueue_push request m.

Definition initiateTransfer (healthData : gmap string SubnetHealth.t)
    (request : TransferRequest.t) (m : SecureTransferManager)
  : SecureTransferManager * Outcome :=
  if negb (validateTransferRequest request) then
    (m, Rejected "Invalid transfer request")
  else if negb (isStationHealthy healthData (TransferRequest.fromStation request))
          || negb (isStationHealthy healthData (TransferRequest.toStation request))
  then (m, Rejected "One or both stations are unhealthy")
  else
    (processTransferQueue (enqueueTransfer request m),
     Resolved (TransferRequest.id request)).

Definition cancelTransfer (transferId : string) (m : SecureTransferManager)
  : SecureTransferManager * bool :=
  match activeTransfers m !! transferId with
  | Some l =>
      match objects m !! l with
      | Some s =>
          if decide (TransferStatus.status s = pending) then
            let m := assign l (TransferStatus.set_status failed) m in
            let m := assign l (TransferStatus.set_error
                                 (Some "Transfer cancelled by user")) m in
            (activeTransfers_set transferId l m, true)
          else (m, false)
      | None => (m, false)
      end
  | None => (m, false)
  end.

(** ** The running system *)

Record System := mkSystem {
  healthData : gmap string SubnetHealth.t;
  randomCalls : nat;
  manager : SecureTransferManager
}.

(** What the event loop can run next: a caller's [initiateTransfer] or
    [cancelTransfer], the timeout of the [k]-th suspended task, or the
    health monitor's interval (with the clock reading it sees). *)
Inductive Event :=
| Initiate (request : TransferRequest.t)
| Cancel (transferId : string)
| Timeout (k : nat)
| HealthInterval (now : Z).

Section Run.

Variable random : nat -> Q.

Definition start (now : Z) : System :=
  let '(h, n) := initializeHealthMonitoring random now 0%nat in
  mkSystem h n new_manager.

Definition step (s : System) (e : Event) : System :=
  match e with
  | Initiate request =>
      mkSystem (healthData s) (randomCalls s)
        (initiateTransfer (healthData s) request (manager s)).1
  | Cancel transferId =>
      mkSystem (healthData s) (randomCalls s)
        (cancelTransfer transferId (manager s)).1
  | Timeout k =>
      mkSystem (healthData s) (randomCalls s) (timer_fires k (manager s))
  | HealthInterval now =>
      let '(h, n) := updateHealthData random now (healthData s) (randomCalls s) in
      mkSystem h n (manager s)
  end.

Definition run (s : System) (es : list Event) : System := fold_left step es s.

End Run.

(** ** The spec's vocabulary *)

(** The lifecycle states the specification names (its section 4.3), and the
    reading of the source's four literals in them. *)
Inductive SpecState := Pending | Processing | Completed | Failed | Cancelled.

Definition spec_state (p : Phase) : SpecState :=
  match p with
  | pending => Pending
  | processing => Processing
  | completed => Completed
  | failed => Failed
  end.

(** The ranges the health metrics are clamped to. *)
Definition within_ranges (h : SubnetHealth.t) : Prop :=
  ((97 # 100 <= SubnetHealth.uptime h <= 1)
   /\ (97 # 100 <= SubnetHealth.consensusRate h <= 1)
   /\ (30 <= SubnetHealth.networkLatency h <= 150)
   /\ (200 <= SubnetHealth.dataThroughput h <= 2000))%Q.

(** ** Concrete inputs used by the examples *)

Definition request_t1 : TransferRequest.t :=
  TransferRequest.mk "t1" "chennai" "delhi" (10 * 1024 * 1024) high AES_256 0
    "0x0000000000000000...".

Definition request_same : TransferRequest.t :=
  TransferRequest.mk "t2" "delhi" "delhi" 1024 low AES_256 0
    "0x0000000000000000...".

Definition random_half : nat -> Q := fun _ => 1 # 2.

(** ** Derived objects and predicates of the statements *)

(** The condition of the second guard of [initiateTransfer]. *)
Definition station_unhealthy (h : gmap string SubnetHealth.t)
    (r : TransferRequest.t) : bool :=
  negb (isStationHealthy h (TransferRequest.fromStation r))
  || negb (isStationHealthy h (TransferRequest.toStation r)).

(** The two assignments of [cancelTransfer]. *)
Definition cancelled_by_user (s : TransferStatus.t) : TransferStatus.t :=
  TransferStatus.set_error (Some "Transfer cancelled by user")
    (TransferStatus.set_status failed s).

(** A manager stopped inside [initiateTransfer], after the status object is
    stored and queued and before processing starts: the one place where a
    status is [pending]. *)
Definition manager_with_pending : SecureTransferManager :=
  enqueueTransfer request_t1 new_manager.

(** The object a resumed task leaves behind, and whether the task goes on. *)
Inductive resumed (t : Task) (m m' : SecureTransferManager)
    (s : TransferStatus.t) : Prop :=
| resumed_running (s' : TransferStatus.t) (t' : Task) :
    objects m' = <[task_status t := s']> (objects m) ->
    timers m' = timers m ++ [t'] ->
    TransferStatus.status s' = TransferStatus.status s ->
    TransferStatus.requestId s' = TransferStatus.requestId s ->
    task_status t' = task_status t ->
    task_request t' = task_request t ->
    activeTransfers m'
    = <[TransferStatus.requestId s := task_status t]> (activeTransfers m) ->
    resumed t m m' s
| resumed_completed (s' : TransferStatus.t) :
    objects m' = <[task_status t := s']> (objects m) ->
    TransferStatus.status s' = completed ->
    TransferStatus.progress s' = 100 ->
    TransferStatus.requestId s' = TransferStatus.requestId s ->
    timers m' = timers m ->
    activeTransfers m'
    = <[TransferRequest.id (task_request t) := task_status t]>
        (activeTransfers m) ->
    resumed t m m' s
| resumed_left :
    objects m' = objects m ->
    timers m' = timers m ->
    activeTransfers m'
    = <[TransferRequest.id (task_request t) := task_status t]>
        (activeTransfers m) ->
    resumed t m m' s.

(** An accepted submission, on a manager whose queue is empty: the object
    it stores, and the timer it leaves when the route has a hop. *)
Definition accepted_status (request : TransferRequest.t) : TransferStatus.t :=
  let stations :=
    getTransferRoute (TransferRequest.fromStation request)
      (TransferRequest.toStation request) in
  if String.eqb (TransferRequest.fromStation request)
       (TransferRequest.toStation request)
  then
    TransferStatus.mk (TransferRequest.id request) processing 0
      (TransferRequest.fromStation request) (TransferRequest.toStation request)
      (calculateEstimatedTime request) None
  else
    TransferStatus.mk (TransferRequest.id request) processing 10
      (nth 0 stations "") (nth 1 stations "")
      (calculateEstimatedTime request) None.

(** The timer an accepted submission leaves, for the object at address
    [l]. *)
Definition accepted_timers (request : TransferRequest.t) (l : nat)
  : list Task :=
  if String.eqb (TransferRequest.fromStation request)
       (TransferRequest.toStation request)
  then []
  else [mkTask request l
          (getTransferRoute (TransferRequest.fromStation request)
             (TransferRequest.toStation request)) 0 0].

(** What holds of the manager between two events, also when the hook stops
    transfers in between: the queue has been drained; every suspended task
    holds an object of its request's id, [processing] or stopped by the
    hook, which the map knows; no two tasks
    hold the same object; no object is [pending], and a [completed] one has
    progress 100; the map leads to objects carrying the id they are filed
    under. *)
Record manager_inv (m : SecureTransferManager) : Prop := {
  inv_queue : transferQueue m = [];
  inv_tasks :
    forall t, t ∈ timers m ->
      exists s, objects m !! task_status t = Some s
                /\ (TransferStatus.status s = processing
                    \/ TransferStatus.status s = failed)
                /\ TransferStatus.requestId s = TransferRequest.id (task_request t)
                /\ is_Some (activeTransfers m !! TransferRequest.id (task_request t));
  inv_nodup : NoDup (task_status <$> timers m);
  inv_objects :
    forall l s, objects m !! l = Some s ->
      TransferStatus.status s <> pending
      /\ (TransferStatus.status s = completed -> TransferStatus.progress s = 100);
  inv_active :
    forall k l, activeTransfers m !! k = Some l ->
      exists s, objects m !! l = Some s /\ TransferStatus.requestId s = k
}.

(** Every snapshot is within the ranges and every station has one. *)
Definition health_inv (h : gmap string SubnetHealth.t) : Prop :=
  (forall stationId x, h !! stationId = Some x -> within_ranges x)
  /\ (forall stationId, In stationId station_ids -> is_Some (h !! stationId)).

(** The manager after [request_t1] was submitted to a fresh system and the
    oldest timer has fired [timeouts] times. *)
Definition run_t1 (timeouts : nat) : SecureTransferManager :=
  manager (run random_half (start random_half 0)
             (Initiate request_t1 :: repeat (Timeout 0) timeouts)).

(** The object at address [l] is [s0] and no suspended task refers to it. *)
Definition parked (l : nat) (s0 : TransferStatus.t)
    (m : SecureTransferManager) : Prop :=
  objects m !! l = Some s0 /\ forall t, t ∈ timers m -> task_status t <> l.

(** The map sends [key] to address [l] and no suspended task works for a
    request of that id. *)
Definition sole_owner (key : string) (l : nat)
    (m : SecureTransferManager) : Prop :=
  activeTransfers m !! key = Some l
  /\ forall t, t ∈ timers m -> TransferRequest.id (task_request t) <> key.

(** The event is not a submission under the id [key]. *)
Definition no_reuse (key : string) (e : Event) : Prop :=
  match e with
  | Initiate request => TransferRequest.id request <> key
  | _ => True
  end.

(** ** The rest of the transfer module and of the hook *)

(** [EncryptionManager.generateChecksum]: the buffer is the list of its
    bytes. *)
Definition hex_digit (n : N) : ascii :=
  nth (N.to_nat n) (list_ascii_of_string "0123456789abcdef") "0"%char.

(** [b.toString(16)] for a byte value. *)
Definition toString16 (n : N) : string :=
  if (n <? 16)%N then String (hex_digit n) ""
  else String (hex_digit (n / 16)) (String (hex_digit (n mod 16)) "").

(** [s.padStart(targetLength, fill)] for a one-character filler. *)
Definition padStart (targetLength : nat) (fill : ascii) (s : string) : string :=
  string_of_list_ascii (repeat fill (targetLength - String.length s)%nat) +:+ s.

Definition byte_hex (b : Byte.byte) : string :=
  padStart 2 "0"%char (toString16 (Byte.to_N b)).

Definition generateChecksum (data : list Byte.byte) : string :=
  "0x" +:+ String.concat "" (map byte_hex (take 8 data)) +:+ "...".

(** [formatTime] of the hook, for a whole number of seconds among the safe
    integers.  There the quotients by 60 and 3600, which the source rounds
    before [Math.floor], keep the whole part of the exact quotients (they
    stay a 3600th away from the next whole number, more than the rounding
    moves them), [%] is exact, and a whole number prints as its decimal
    digits.  Under the first test the operands of [/] and [%] are at least
    60. *)
Definition formatTime (seconds : Z) : string :=
  if seconds <? 60 then pretty seconds +:+ "s"
  else if seconds <? 3600 then
    let minutes := seconds / 60 in
    let remainingSeconds := Z.rem seconds 60 in
    pretty minutes +:+ "m " +:+ pretty remainingSeconds +:+ "s"
  else
    let hours := seconds / 3600 in
    let remainingMinutes := Z.rem seconds 3600 / 60 in
    pretty hours +:+ "h " +:+ pretty remainingMinutes +:+ "m".

(** [x.toFixed(1)] for a value below 10^21 in size, where the method prints
    digits and not an exponent: the sign, then the nearest number of tenths
    of the exact value, the larger one on a tie. *)
Definition toFixed1 (x : Q) : string :=
  let n := Qfloor (Qabs x * 10 + (1 # 2))%Q in
  (if Qlt_bool x 0 then "-" else "")
  +:+ pretty (n / 10) +:+ "." +:+ pretty (n mod 10).

Definition units : list string := ["B"; "KB"; "MB"; "GB"; "TB"].

(** The [while] loop of [formatDataSize]; [remaining] is
    [units.length - 1 - unitIndex], the number of units still above. *)
Fixpoint formatDataSize_loop (remaining : nat) (size : Q) (unitIndex : nat)
  : Q * nat :=
  match remaining with
  | O => (size, unitIndex)
  | S remaining' =>
      if Qle_bool 1024 size
      then formatDataSize_loop remaining' (size / 1024)%Q (S unitIndex)
      else (size, unitIndex)
  end.

(** [formatDataSize] of the hook, on a whole number of bytes among the safe
    integers: such a number is a binary64 value, dividing it by 1024 only
    lowers its exponent, so the rational value is the one the source
    computes, and it stays far below 10^21. *)
Definition formatDataSize (bytes : Z) : string :=
  let '(size, unitIndex) :=
    formatDataSize_loop (length units - 1) (inject_Z bytes) 0 in
  toFixed1 size +:+ " " +:+ nth unitIndex units "".

(** The part of the hook's React state that [stopTransfer] touches;
    [hook_activeTransfers] is the array of status objects last taken from
    the manager, held by address since the objects are the manager's own. *)
Record HookState := mkHookState {
  hook_activeTransfers : list nat;
  transferProgress : Z;
  isTransferring : bool
}.

(** The test of the [find] in [stopTransfer], on the object at address
    [a]. *)
Definition holds_id (m : SecureTransferManager) (transferId : string)
    (a : nat) : bool :=
  match objects m !! a with
  | Some s => String.eqb (TransferStatus.requestId s) transferId
  | None => false
  end.

(** [stopTransfer] of the hook: it writes to the manager's object and clears
    the hook's flags; the manager's timers are not touched. *)
Definition stopTransfer (transferId : string) (h : HookState)
    (m : SecureTransferManager) : HookState * SecureTransferManager * bool :=
  match find (holds_id m transferId) (hook_activeTransfers h) with
  | Some a =>
      match objects m !! a with
      | Some s =>
          if decide (TransferStatus.status s = processing) then
            let m := assign a (TransferStatus.set_status failed) m in
            let m := assign a (TransferStatus.set_error
                                 (Some "Transfer stopped by user")) m in
            (mkHookState (hook_activeTransfers h) 0 false, m, true)
          else (h, m, false)
      | None => (h, m, false)
      end
  | None => (h, m, false)
  end.

(** Every suspended task is inside its ten steps, and every progress value
    is a multiple of ten between 0 and 100. *)
Definition progress_inv (m : SecureTransferManager) : Prop :=
  (forall t, t ∈ timers m -> 0 <= task_step t <= 9)
  /\ (forall l s, objects m !! l = Some s ->
        exists k, 0 <= k <= 10 /\ TransferStatus.progress s = 10 * k).

(** The number of timer firings a suspended task still needs. *)
Definition firings_left (t : Task) : Z :=
  (10 - task_step t)
  + 10 * (Z.of_nat (length (task_stations t)) - 2 - task_i t).

(** [t] is the only suspended task of [m], [s] is its status object, filed
    under the request's id, and the two agree on where the transfer is. *)
Record solo (t : Task) (s : TransferStatus.t) (m : SecureTransferManager)
  : Prop := {
  solo_timers : timers m = [t];
  solo_object : objects m !! task_status t = Some s;
  solo_filed :
    activeTransfers m !! TransferRequest.id (task_request t)
    = Some (task_status t);
  solo_id : TransferStatus.requestId s = TransferRequest.id (task_request t);
  solo_step : 0 <= task_step t <= 9;
  solo_hop : 0 <= task_i t <= Z.of_nat (length (task_stations t)) - 2;
  solo_current :
    TransferStatus.currentStation s
    = nth (Z.to_nat (task_i t)) (task_stations t) "";
  solo_next :
    TransferStatus.nextStation s
    = nth (Z.to_nat (task_i t + 1)) (task_stations t) ""
}.

(** The oldest timer fires [n] times in a row. *)
Definition fire_oldest (n : nat) (m : SecureTransferManager)
  : SecureTransferManager :=
  Nat.iter n (timer_fires 0) m.

(** Every snapshot is filed under its own station id, which is a station of
    the registry, and counts four validators. *)
Definition health_shape (h : gmap string SubnetHealth.t) : Prop :=
  forall stationId x, h !! stationId = Some x ->
    SubnetHealth.stationId x = stationId
    /\ SubnetHealth.validatorCount x = 4
    /\ In stationId station_ids.

(** An entry as the registry has them: a known id with four validators. *)
Definition registry_entry (entry : string * ISROSubnetConfig.t) : Prop :=
  In entry.1 station_ids
  /\ length (ISROSubnetConfig.validators entry.2) = 4%nat.

(** The number of health refreshes among the events. *)
Fixpoint refreshes (es : list Event) : nat :=
  match es with
  | [] => 0%nat
  | HealthInterval _ :: rest => S (refreshes rest)
  | _ :: rest => refreshes rest
  end.

Definition random_high : nat -> Q := fun _ => 9 # 10.




(** [ToIndex] of the language, which [new ArrayBuffer] applies to its
    argument: NaN counts as 0, a fraction is cut off towards zero, and a
    result below 0 or above 2^53 - 1 is a [RangeError] ([None]). *)
Definition ToIndex (x : number) : option Z :=
  match x with
  | NaN => Some 0
  | Infinity _ => None
  | Finite q =>
      let n := if Qlt_bool q 0 then Qceiling q else Qfloor q in
      if (0 <=? n) && (n <=? 2 ^ 53 - 1) then Some n else None
  end.

Section Buffers.

(** Whether the engine grants a buffer of so many bytes.  Engines cap the
    length far below 2^53 and the memory can be short, so nothing is
    assumed of it. *)
Variable allocates : Z -> bool.

(** [new ArrayBuffer(length)]: so many zero bytes, or [None] for the
    [RangeError] of a bad length or a refused allocation. *)
Definition new_ArrayBuffer (length : number) : option (list Byte.byte) :=
  n ← ToIndex length;
  if allocates n then Some (repeat Byte.x00 (Z.to_nat n)) else None.

End Buffers.

(** The order of the priorities, [low] first. *)
Definition priority_rank (p : Priority) : Z :=
  match p with
  | low => 0
  | medium => 1
  | high => 2
  | critical => 3
  end.

(** The clock readings 5000, 10000, ... of [n] refreshes. *)
Definition seq_Z (n : nat) : list Z :=
  map (fun k => 5000 * Z.of_nat k) (seq 1 n).

(** ** Circuit configurations *)

Module CircuitConfig.
Record t := mk {
  name : string;
  description : string;
  publicInputs : Z;
  privateInputs : Z;
  constraints : Z;
  verificationKey : string;
  wasmPath : string;
  zkeyPath : string;
}.
End CircuitConfig.

Definition CIRCUIT_CONFIGS : list (string * CircuitConfig.t) :=
  [ ("dataIntegrity",
     CircuitConfig.mk "dataIntegrity"
       "Proves data integrity without revealing data content"
       4 3 1000 "dataIntegrity_vk.json" "circuits/dataIntegrity.wasm"
       "circuits/dataIntegrity_final.zkey");
    ("stationAuth",
     CircuitConfig.mk "stationAuth"
       "Proves station authentication without revealing credentials"
       3 3 800 "stationAuth_vk.json" "circuits/stationAuth.wasm"
       "circuits/stationAuth_final.zkey");
    ("transferValidation",
     CircuitConfig.mk "transferValidation"
       "Proves transfer validity without revealing sensitive data"
       4 5 1200 "transferValidation_vk.json" "circuits/transferValidation.wasm"
       "circuits/transferValidation_final.zkey");
    ("missionCompletion",
     CircuitConfig.mk "missionCompletion"
       "Proves mission completion without revealing mission details"
       4 5 1500 "missionCompletion_vk.json" "circuits/missionCompletion.wasm"
       "circuits/missionCompletion_final.zkey") ].

(** What [CIRCUIT_CONFIGS[circuitName]] evaluates to: one of the four
    configurations, a member of [Object.prototype] (a function, or the
    prototype itself for [__proto__]: truthy, and without any of the
    configuration's fields), or [undefined]. *)
Inductive Property :=
  | Own (config : CircuitConfig.t)
  | Inherited
  | Undefined.

Definition CIRCUIT_CONFIGS_get (circuitName : string) : Property :=
  match List.find (fun entry => String.eqb circuitName entry.1) CIRCUIT_CONFIGS with
  | Some entry => Own entry.2
  | None => if mem_string circuitName Object_prototype_names
            then Inherited else Undefined
  end.

(** [inputs] stands for [Object.keys(inputs)].  For an inherited member
    [config.privateInputs] is [undefined], and [n >= undefined] is false. *)
Definition validateCircuitInputs (circuitName : string) (inputs : list string)
  : bool :=
  match CIRCUIT_CONFIGS_get circuitName with
  | Undefined => false
  | Own config => CircuitConfig.privateInputs config <=? Z.of_nat (length inputs)
  | Inherited => false
  end.

Module PrivacyLevel.
Inductive t := low | medium | high.
End PrivacyLevel.

Module PerformancePriority.
Inductive t := speed | security | balanced.
End PerformancePriority.

Module Requirements.
Record t := mk {
  dataSize : Z;
  privacyLevel : PrivacyLevel.t;
  performancePriority : PerformancePriority.t;
}.
End Requirements.

Definition selectOptimalCircuit (requirements : Requirements.t) : string :=
  match Requirements.privacyLevel requirements,
        Requirements.performancePriority requirements with
  | PrivacyLevel.high, PerformancePriority.security => "missionCompletion"
  | PrivacyLevel.medium, PerformancePriority.balanced => "transferValidation"
  | PrivacyLevel.low, PerformancePriority.speed => "dataIntegrity"
  | _, _ => "stationAuth"
  end.

Module Groth16Proof.
Record t := mk {
  pi_a : list string;
  pi_b : list (list string);
  pi_c : list string;
  protocol : string;
  curve : string;
}.
End Groth16Proof.

Module CircuitResult.
Record t := mk {
  proof : Groth16Proof.t;
  publicSignals : list string;
}.
End CircuitResult.

Module CircuitCall.
Record t := mk {
  name : string;
  inputs : list string;
}.
End CircuitCall.

Module BatchEntry.
Record t := mk {
  name : string;
  result : option CircuitResult.t;
  success : bool;
}.
End BatchEntry.

Definition mock_proof : Groth16Proof.t :=
  Groth16Proof.mk ["0x123"; "0x456"; "0x789"]
    [["0xabc"; "0xdef"]; ["0x123"; "0x456"]; ["0x789"; "0xabc"]]
    ["0xdef"; "0x123"; "0x456"] "groth16" "bn128".

(** One round of the loop of [batchProcessCircuits].  [Array(n)] has [n]
    slots for a number [n]; [Array(undefined)] is the one-element array
    holding [undefined], so an inherited member yields one signal. *)
Definition batchProcessCircuits_body (circuit : CircuitCall.t) : BatchEntry.t :=
  match CIRCUIT_CONFIGS_get (CircuitCall.name circuit) with
  | Undefined => BatchEntry.mk (CircuitCall.name circuit) None false
  | Own config =>
      BatchEntry.mk (CircuitCall.name circuit)
        (Some (CircuitResult.mk mock_proof
                 (repeat "0x0" (Z.to_nat (CircuitConfig.publicInputs config)))))
        true
  | Inherited =>
      BatchEntry.mk (CircuitCall.name circuit)
        (Some (CircuitResult.mk mock_proof ["0x0"])) true
  end.

Fixpoint batchProcessCircuits_loop (circuits : list CircuitCall.t)
    (results : list BatchEntry.t) : list BatchEntry.t :=
  match circuits with
  | [] => results
  | circuit :: rest =>
      batchProcessCircuits_loop rest (results ++ [batchProcessCircuits_body circuit])
  end.

Definition batchProcessCircuits (circuits : list CircuitCall.t)
  : list BatchEntry.t :=
  batchProcessCircuits_loop circuits [].

(** The Standard Library's specification of the binary64 operations, as a
    reference for [round64]: a whole number as a binary64 value, the
    rational a finite binary64 value stands for, and the estimate in
    seconds computed with the library's division and product, a multiplier
    being the quotient of its tenths by ten. *)
Definition binary64_of_Z (n : Z) : spec_float :=
  binary_normalize 53 1024 n 0 false.

Definition binary64_value (f : spec_float) : Q :=
  match f with
  | S754_finite negative m e =>
      ((if negative then -1 else 1) * inject_Z (Zpos m) * 2 ^ e)%Q
  | _ => 0%Q
  end.

Definition multiplier_tenths (p : Priority) : Z :=
  match p with
  | low => 15
  | medium => 10
  | high => 7
  | critical => 5
  end.

Definition reference_seconds (d : Z) (p : Priority) : Q :=
  binary64_value
    (SFmul 53 1024
       (SFmul 53 1024
          (SFdiv 53 1024 (binary64_of_Z d) (binary64_of_Z (100 * 1024 * 1024)))
          (SFdiv 53 1024 (binary64_of_Z (multiplier_tenths p))
             (binary64_of_Z 10)))
       (binary64_of_Z 60)).

(** Sizes on which the two computations are compared. *)
Definition sample_sizes : list Z :=
  [1; 3; 7; 1024; 1048576; 10485760; 104857600; 123456789; 2 ^ 30;
   2 ^ 30 + 1; 99999999999; 100 * 1024 ^ 3].

(** The estimate in seconds before [Math.ceil], for a finite size [d]. *)
Definition estimate_seconds (d : Q) (p : Priority) : Q :=
  round64_finite
    (round64_finite
       (round64_finite (d / inject_Z (100 * 1024 * 1024)) * priorityMultiplier p)
     * 60).

(** ** The hook in the running system *)

(** What the page can do on top of the manager's events: call the hook's
    [stopTransfer].  The React state [h] the call finds is whatever the hook
    last took from [getAllTransfers]; any array of addresses stands for
    it. *)
Inductive Action :=
| ManagerEvent (e : Event)
| StopTransfer (transferId : string) (h : HookState).

Section RunHook.

Variable random : nat -> Q.

Definition act (s : System) (a : Action) : System :=
  match a with
  | ManagerEvent e => step random s e
  | StopTransfer transferId h =>
      mkSystem (healthData s) (randomCalls s)
        (stopTransfer transferId h (manager s)).1.2
  end.

Definition perform (s : System) (acts : list Action) : System :=
  fold_left act acts s.

End RunHook.




(** * Routing *)

Lemma eqb_string_decide (a b : string) :
  String.eqb a b = bool_decide (a = b).
Proof.
  destruct (String.eqb_spec a b) as [->|Hne].
  - by rewrite bool_decide_eq_true_2.
  - by rewrite bool_decide_eq_false_2.
Qed.

(** C4. The route is a fixed function of the two station ids: [source] alone
    when both are equal, the direct pair when one endpoint is "bangalore", and
    the detour through "bangalore" otherwise; the three sample routes follow,
    and the hook's copy of the rule is the same function. *)
Theorem getTransferRoute_rule :
  (forall src dst : string,
      (src = dst -> getTransferRoute src dst = [src])
      /\ (src <> dst -> src = "bangalore" \/ dst = "bangalore" ->
          getTransferRoute src dst = [src; dst])
      /\ (src <> dst -> src <> "bangalore" -> dst <> "bangalore" ->
          getTransferRoute src dst = [src; "bangalore"; dst])
      /\ useAvalancheSubnet.getTransferRoute src dst = getTransferRoute src dst)
  /\ getTransferRoute "bangalore" "chennai" = ["bangalore"; "chennai"]
  /\ getTransferRoute "chennai" "delhi" = ["chennai"; "bangalore"; "delhi"]
  /\ getTransferRoute "delhi" "delhi" = ["delhi"].
Proof.
  split; [|by repeat split].
  intros src dst.
  split; [|split; [|split; [|reflexivity]]];
    unfold getTransferRoute; rewrite !eqb_string_decide.
  - intros ->. by rewrite bool_decide_eq_true_2.
  - intros Hne Hhub. rewrite (bool_decide_eq_false_2 _ Hne).
    destruct Hhub as [->| ->].
    + by rewrite bool_decide_eq_true_2.
    + rewrite (bool_decide_eq_true_2 ("bangalore" = "bangalore")) by done.
      by rewrite orb_true_r.
  - intros Hne Hs Hd.
    by rewrite !bool_decide_eq_false_2.
Qed.

Lemma getTransferRoute_rule_witness :
  getTransferRoute "sriharikota" "sriharikota" = ["sriharikota"]
  /\ getTransferRoute "delhi" "bangalore" = ["delhi"; "bangalore"]
  /\ getTransferRoute "sriharikota" "chennai"
     = ["sriharikota"; "bangalore"; "chennai"].
Proof.
  split; [|split].
  - refine (proj1 (proj1 getTransferRoute_rule "sriharikota" "sriharikota") _).
    reflexivity.
  - refine (proj1 (proj2 (proj1 getTransferRoute_rule "delhi" "bangalore")) _ _).
    + discriminate.
    + right. reflexivity.
  - refine (proj1 (proj2 (proj2
              (proj1 getTransferRoute_rule "sriharikota" "chennai"))) _ _ _);
      discriminate.
Defined.

(** * Validation *)

Lemma js_in_station (V : Type) (k : string) (obj : list (string * V)) :
  In k (map fst obj) -> js_in k obj = true.
Proof.
  intros Hin. unfold js_in, mem_string.
  apply orb_true_intro. left. apply existsb_exists.
  exists k. split; [done | apply String.eqb_refl].
Qed.

Lemma Qlt_bool_iff (x y : Q) : Qlt_bool x y = true <-> (x < y)%Q.
Proof.
  unfold Qlt_bool. rewrite negb_true_iff.
  destruct (Qle_bool y x) eqn:Hle.
  - apply Qle_bool_iff in Hle. split; [done|].
    intros Hlt. exfalso. by apply (Qlt_not_le _ _ Hlt).
  - split; [|done]. intros _. apply Qnot_le_lt. intros Hle'.
    apply Qle_bool_iff in Hle'. congruence.
Qed.

Lemma mem_string_In (k : string) (l : list string) :
  mem_string k l = true <-> In k l.
Proof.
  unfold mem_string. rewrite existsb_exists. split.
  - intros (x & Hin & Heq). apply String.eqb_eq in Heq. by subst x.
  - intros Hin. exists k. split; [done | apply String.eqb_refl].
Qed.

Lemma js_in_iff (V : Type) (k : string) (obj : list (string * V)) :
  js_in k obj = true <-> In k (map fst obj) \/ In k Object_prototype_names.
Proof. unfold js_in. by rewrite orb_true_iff, !mem_string_In. Qed.

(** The two size tests pass for the finite sizes above zero and up to
    100 * 1024^3, and for nothing else. *)
Lemma dataSize_tests (x : number) :
  number_lt 0 x && number_le x max_dataSize = true <->
  exists d, x = Finite d /\ (0 < d <= inject_Z (100 * 1024 ^ 3))%Q.
Proof.
  destruct x as [q|negative|].
  - unfold number_lt, number_le, whole.
    rewrite andb_true_iff, Qlt_bool_iff, Qle_bool_iff. split.
    + intros H. by exists q.
    + by intros (d & [= <-] & H).
  - split; [by destruct negative | by intros (d & H & _)].
  - split; [done | by intros (d & H & _)].
Qed.

Lemma validateTransferRequest_true_iff (r : TransferRequest.t) :
  validateTransferRequest r = true <->
  TransferRequest.id r <> ""
  /\ (In (TransferRequest.fromStation r) station_ids
      \/ In (TransferRequest.fromStation r) Object_prototype_names)
  /\ (In (TransferRequest.toStation r) station_ids
      \/ In (TransferRequest.toStation r) Object_prototype_names)
  /\ exists d, TransferRequest.dataSize r = Finite d
               /\ (0 < d <= inject_Z (100 * 1024 ^ 3))%Q.
Proof.
  unfold validateTransferRequest.
  rewrite <- (andb_assoc _ (number_lt _ _) (number_le _ _)).
  rewrite andb_true_iff, dataSize_tests, !andb_true_iff.
  rewrite !js_in_iff, Z.ltb_lt. fold station_ids.
  destruct (TransferRequest.id r) as [|c rest] eqn:Hid.
  - change (Z.of_nat (String.length "")) with 0.
    split; [lia | intros [Hne _]; by destruct Hne].
  - change (String.length (String c rest)) with (S (String.length rest)).
    rewrite Nat2Z.inj_succ. split.
    + intros [[[_ ?] ?] ?]. by split.
    + intros (_ & ? & ? & ?). split; [|done]. split; [|done].
      split; [lia | done].
Qed.

(** C5. Validation accepts exactly the requests with a non-empty id, two
    station names that are properties of the registry object (a key of the
    registry, or a name the object inherits) and a finite size above zero
    and at most 100 * 1024^3 bytes.  So a request with a non-empty id
    between two stations of the registry, for a whole number of bytes, is
    accepted exactly when that number is between 1 and 100 * 1024^3, and a
    request naming a station that is no property of the registry object is
    rejected.  At size 100 * 1024^3 the size tests pass, at 100 * 1024^3 + 1
    the request is rejected whatever its other fields, and so it is for a
    size that is NaN or infinite. *)
Theorem validateTransferRequest_size_bounds :
  (forall r : TransferRequest.t,
      validateTransferRequest r = true <->
      TransferRequest.id r <> ""
      /\ (In (TransferRequest.fromStation r) station_ids
          \/ In (TransferRequest.fromStation r) Object_prototype_names)
      /\ (In (TransferRequest.toStation r) station_ids
          \/ In (TransferRequest.toStation r) Object_prototype_names)
      /\ exists d, TransferRequest.dataSize r = Finite d
                   /\ (0 < d <= inject_Z (100 * 1024 ^ 3))%Q)
  /\ (forall (r : TransferRequest.t) (n : Z),
         TransferRequest.id r <> "" ->
         In (TransferRequest.fromStation r) station_ids ->
         In (TransferRequest.toStation r) station_ids ->
         TransferRequest.dataSize r = whole n ->
         (validateTransferRequest r = true <-> 1 <= n <= 100 * 1024 ^ 3))
  /\ (forall r : TransferRequest.t,
         ~ In (TransferRequest.fromStation r)
             (station_ids ++ Object_prototype_names)
         \/ ~ In (TransferRequest.toStation r)
               (station_ids ++ Object_prototype_names) ->
         validateTransferRequest r = false)
  /\ (forall r : TransferRequest.t,
         validateTransferRequest
           (TransferRequest.with_dataSize r (100 * 1024 ^ 3))
         = validateTransferRequest (TransferRequest.with_dataSize r 1))
  /\ (forall r : TransferRequest.t,
         validateTransferRequest
           (TransferRequest.with_dataSize r (100 * 1024 ^ 3 + 1)) = false)
  /\ validateTransferRequest
       (TransferRequest.with_dataSize request_t1 (100 * 1024 ^ 3)) = true
  /\ (forall (r : TransferRequest.t) (negative : bool),
         validateTransferRequest (TransferRequest.with_dataSize r NaN) = false
         /\ validateTransferRequest
              (TransferRequest.with_dataSize r (Infinity negative)) = false).
Proof.
  split; [exact validateTransferRequest_true_iff|].
  split; [|split; [|split; [|split; [|split]]]].
  - intros r n Hid Hf Ht Hn. rewrite validateTransferRequest_true_iff, Hn.
    split.
    + intros (_ & _ & _ & d & [= <-] & Hlo & Hhi).
      change 0%Q with (inject_Z 0) in Hlo.
      rewrite <- Zlt_Qlt in Hlo. rewrite <- Zle_Qle in Hhi. lia.
    + intros [Hlo Hhi]. split; [done|]. split; [by left|]. split; [by left|].
      exists (inject_Z n). split; [done|]. split.
      * change 0%Q with (inject_Z 0). rewrite <- Zlt_Qlt. lia.
      * by rewrite <- Zle_Qle.
  - intros r Hout. apply not_true_is_false.
    rewrite validateTransferRequest_true_iff.
    intros (_ & Hf & Ht & _). rewrite !in_app_iff in Hout. tauto.
  - intros r. unfold validateTransferRequest, max_dataSize. cbn. done.
  - intros r. unfold validateTransferRequest, max_dataSize. cbn.
    by rewrite andb_false_r.
  - reflexivity.
  - intros r negative. unfold validateTransferRequest. cbn.
    rewrite !andb_false_r. by destruct negative; cbn; rewrite ?andb_false_r.
Qed.

Lemma validateTransferRequest_size_bounds_witness :
  validateTransferRequest request_t1 = true
  <-> 1 <= 10 * 1024 * 1024 <= 100 * 1024 ^ 3.
Proof.
  refine (proj1 (proj2 validateTransferRequest_size_bounds)
            request_t1 (10 * 1024 * 1024) _ _ _ _).
  - discriminate.
  - right. left. reflexivity.
  - right. right. left. reflexivity.
  - reflexivity.
Defined.

(** The claim as the specification words it fails twice: half a byte is
    less than one byte and passes both size tests, and "toString" is no
    station of the registry and passes the station test. *)
Lemma validateTransferRequest_accepts_half_a_byte :
  validateTransferRequest
    (TransferRequest.with_dataSize request_t1 (Finite (1 # 2))) = true
  /\ ~ (1 <= 1 # 2)%Q
  /\ validateTransferRequest
       (TransferRequest.mk "t3" "toString" "bangalore" 1 low AES_256 0 "")
     = true
  /\ ~ In "toString" station_ids.
Proof.
  split; [reflexivity|].
  split; [intros H; unfold Qle in H; cbn in H; lia|].
  split; [reflexivity|].
  cbn. intros [H|[H|[H|[H|[]]]]]; discriminate.
Qed.

(** * Rejected submissions *)

(** C7. A submission fails exactly when validation or the health gate turns
    it down; the error is produced inside the call itself, before anything is
    stored: the manager, and with it the map of transfers, is the one the
    call started from. *)
Theorem initiateTransfer_failure_creates_nothing
    (h : gmap string SubnetHealth.t) (r : TransferRequest.t)
    (m : SecureTransferManager) :
  (validateTransferRequest r = false ->
     initiateTransfer h r m = (m, Rejected "Invalid transfer request"))
  /\ (validateTransferRequest r = true ->
      isStationHealthy h (TransferRequest.fromStation r) = false
      \/ isStationHealthy h (TransferRequest.toStation r) = false ->
      initiateTransfer h r m = (m, Rejected "One or both stations are unhealthy"))
  /\ (forall m' msg,
         initiateTransfer h r m = (m', Rejected msg) ->
         m' = m /\ activeTransfers m' = activeTransfers m
         /\ (validateTransferRequest r = false \/ station_unhealthy h r = true)).
Proof.
  unfold initiateTransfer. fold (station_unhealthy h r).
  split; [|split].
  - by intros ->.
  - intros -> Hgate. cbn.
    replace (station_unhealthy h r) with true; [done|].
    unfold station_unhealthy. by destruct Hgate as [-> | ->]; rewrite ?orb_true_r.
  - intros m' msg.
    destruct (validateTransferRequest r); cbn.
    + destruct (station_unhealthy h r); [|discriminate].
      intros [= <- _]. auto.
    + intros [= <- _]. auto.
Qed.

Lemma initiateTransfer_failure_creates_nothing_witness :
  initiateTransfer ∅ request_t1 new_manager
  = (new_manager, Rejected "One or both stations are unhealthy").
Proof.
  refine (proj1 (proj2 (initiateTransfer_failure_creates_nothing
                          ∅ request_t1 new_manager)) _ _).
  - reflexivity.
  - left. reflexivity.
Defined.

(** * Cancellation *)

Lemma alter_alter_insert {A} (f g : A -> A) (l : list A) (i : nat) (x : A) :
  l !! i = Some x -> alter f i (alter g i l) = <[i := f (g x)]> l.
Proof.
  intros Hx. apply list_eq. intros j.
  destruct (decide (i = j)) as [<-|Hne].
  - rewrite !list_lookup_alter_eq, Hx.
    rewrite list_lookup_insert_eq by (by eapply lookup_lt_Some). done.
  - by rewrite !list_lookup_alter_ne, list_lookup_insert_ne.
Qed.

Lemma getTransferStatus_Some (transferId : string) (m : SecureTransferManager)
    (s : TransferStatus.t) :
  getTransferStatus transferId m = Some s <->
  exists l, activeTransfers m !! transferId = Some l /\ objects m !! l = Some s.
Proof.
  unfold getTransferStatus. split.
  - destruct (activeTransfers m !! transferId) as [l|] eqn:Hl; [|done].
    cbn. eauto.
  - intros (l & -> & Hs). done.
Qed.

Lemma cancelTransfer_pending (transferId : string) (m : SecureTransferManager)
    (l : nat) (s : TransferStatus.t) :
  activeTransfers m !! transferId = Some l ->
  objects m !! l = Some s ->
  TransferStatus.status s = pending ->
  cancelTransfer transferId m =
    (mkManager (<[l := cancelled_by_user s]> (objects m)) (activeTransfers m)
       (transferQueue m) (timers m), true).
Proof.
  intros Hl Hs Hp. unfold cancelTransfer. rewrite Hl, Hs.
  rewrite decide_True by done.
  unfold activeTransfers_set, assign; cbn.
  rewrite insert_id by done.
  by rewrite (alter_alter_insert _ _ _ _ s).
Qed.

Lemma cancelTransfer_pending_status (transferId : string)
    (m : SecureTransferManager) (s : TransferStatus.t) :
  getTransferStatus transferId m = Some s ->
  TransferStatus.status s = pending ->
  exists l,
    activeTransfers m !! transferId = Some l
    /\ cancelTransfer transferId m =
         (mkManager (<[l := cancelled_by_user s]> (objects m))
            (activeTransfers m) (transferQueue m) (timers m), true)
    /\ getTransferStatus transferId (cancelTransfer transferId m).1
       = Some (cancelled_by_user s).
Proof.
  intros Hs Hp. apply getTransferStatus_Some in Hs as (l & Hl & Hs).
  exists l. split; [done|].
  rewrite (cancelTransfer_pending _ _ _ _ Hl Hs Hp).
  split; [done|].
  apply getTransferStatus_Some. exists l. cbn. split; [done|].
  apply list_lookup_insert_eq. by eapply lookup_lt_Some.
Qed.

Lemma cancelTransfer_not_pending (transferId : string)
    (m : SecureTransferManager) :
  (forall s, getTransferStatus transferId m = Some s ->
             TransferStatus.status s <> pending) ->
  cancelTransfer transferId m = (m, false).
Proof.
  intros Hnp. unfold cancelTransfer.
  destruct (activeTransfers m !! transferId) as [l|] eqn:Hl; [|done].
  destruct (objects m !! l) as [s|] eqn:Hs; [|done].
  rewrite decide_False; [done|].
  apply Hnp. apply getTransferStatus_Some. eauto.
Qed.

(** C1, as the code has it. Cancelling a transfer whose status is [pending]
    returns [true] and turns the status into [failed], with the error text
    "Transfer cancelled by user"; everything else in the manager stays as it
    was.  For any other status, and for an unknown id, the call returns
    [false] and the manager is unchanged. *)
Theorem cancelTransfer_pending_fails_else_noop
    (transferId : string) (m : SecureTransferManager) :
  (forall s,
      getTransferStatus transferId m = Some s ->
      TransferStatus.status s = pending ->
      exists l,
        activeTransfers m !! transferId = Some l
        /\ cancelTransfer transferId m =
             (mkManager (<[l := cancelled_by_user s]> (objects m))
                (activeTransfers m) (transferQueue m) (timers m), true)
        /\ getTransferStatus transferId (cancelTransfer transferId m).1
           = Some (cancelled_by_user s)
        /\ TransferStatus.status (cancelled_by_user s) = failed)
  /\ ((forall s, getTransferStatus transferId m = Some s ->
                 TransferStatus.status s <> pending) ->
      cancelTransfer transferId m = (m, false)).
Proof.
  split; [|apply cancelTransfer_not_pending].
  intros s Hs Hp.
  destruct (cancelTransfer_pending_status _ _ _ Hs Hp) as (l & Hl & Hc & Hs').
  exists l. by rewrite Hs'.
Qed.

Lemma cancelTransfer_pending_fails_else_noop_witness :
  (exists l,
      activeTransfers manager_with_pending !! "t1" = Some l
      /\ cancelTransfer "t1" manager_with_pending =
           (mkManager
              (<[l := cancelled_by_user
                        (TransferStatus.mk "t1" pending 0 "chennai" "delhi"
                           (calculateEstimatedTime request_t1) None)]>
                 (objects manager_with_pending))
              (activeTransfers manager_with_pending)
              (transferQueue manager_with_pending)
              (timers manager_with_pending), true)
      /\ getTransferStatus "t1" (cancelTransfer "t1" manager_with_pending).1
         = Some (cancelled_by_user
                   (TransferStatus.mk "t1" pending 0 "chennai" "delhi"
                      (calculateEstimatedTime request_t1) None))
      /\ TransferStatus.status
           (cancelled_by_user
              (TransferStatus.mk "t1" pending 0 "chennai" "delhi"
                 (calculateEstimatedTime request_t1) None)) = failed)
  /\ cancelTransfer "unknown" manager_with_pending
     = (manager_with_pending, false).
Proof.
  split.
  - refine (proj1 (cancelTransfer_pending_fails_else_noop
                     "t1" manager_with_pending) _ _ _); reflexivity.
  - refine (proj2 (cancelTransfer_pending_fails_else_noop
                     "unknown" manager_with_pending) _).
    intros s Hs. vm_compute in Hs. discriminate.
Defined.

(** C1, as the spec words it, fails at a pending transfer: the call returns
    [true], and the status it leaves is [failed], which the spec's lifecycle
    reads as Failed, not as Cancelled. *)
Lemma cancelTransfer_status_is_not_Cancelled :
  (TransferStatus.status <$> getTransferStatus "t1" manager_with_pending)
  = Some pending
  /\ (cancelTransfer "t1" manager_with_pending).2 = true
  /\ (TransferStatus.status
        <$> getTransferStatus "t1" (cancelTransfer "t1" manager_with_pending).1)
     = Some failed
  /\ spec_state failed <> Cancelled
  /\ (forall p : Phase, spec_state p <> Cancelled).
Proof.
  repeat split; try discriminate.
  by intros [].
Qed.

(** C8. On a pending transfer, two calls of [cancelTransfer] in a row cancel
    once: the first returns [true] and takes the status out of [pending], the
    second returns [false] and leaves the manager as the first left it. *)
Theorem cancelTransfer_twice
    (transferId : string) (m : SecureTransferManager) (s : TransferStatus.t) :
  getTransferStatus transferId m = Some s ->
  TransferStatus.status s = pending ->
  (cancelTransfer transferId m).2 = true
  /\ getTransferStatus transferId (cancelTransfer transferId m).1
     = Some (cancelled_by_user s)
  /\ TransferStatus.status (cancelled_by_user s) <> pending
  /\ cancelTransfer transferId (cancelTransfer transferId m).1
     = ((cancelTransfer transferId m).1, false).
Proof.
  intros Hs Hp.
  destruct (cancelTransfer_pending_status _ _ _ Hs Hp) as (l & Hl & Hc & Hs').
  split; [by rewrite Hc|]. split; [done|]. split; [done|].
  apply cancelTransfer_not_pending.
  intros s'. rewrite Hs'. by intros [= <-].
Qed.

Lemma cancelTransfer_twice_witness :
  (cancelTransfer "t1" manager_with_pending).2 = true
  /\ getTransferStatus "t1" (cancelTransfer "t1" manager_with_pending).1
     = Some (cancelled_by_user
               (TransferStatus.mk "t1" pending 0 "chennai" "delhi"
                  (calculateEstimatedTime request_t1) None))
  /\ TransferStatus.status
       (cancelled_by_user
          (TransferStatus.mk "t1" pending 0 "chennai" "delhi"
             (calculateEstimatedTime request_t1) None)) <> pending
  /\ cancelTransfer "t1" (cancelTransfer "t1" manager_with_pending).1
     = ((cancelTransfer "t1" manager_with_pending).1, false).
Proof.
  apply (cancelTransfer_twice "t1" manager_with_pending); reflexivity.
Defined.

(** * What one operation does to the manager *)

Lemma alter_insert_lookup {A} (f : A -> A) (l : list A) (i : nat) (x : A) :
  l !! i = Some x -> alter f i l = <[i := f x]> l.
Proof.
  intros Hx. apply list_eq. intros j.
  destruct (decide (i = j)) as [<-|Hne].
  - rewrite list_lookup_alter_eq, Hx.
    rewrite list_lookup_insert_eq by (by eapply lookup_lt_Some). done.
  - by rewrite list_lookup_alter_ne, list_lookup_insert_ne.
Qed.

Lemma assign_lookup (l : nat) (f : TransferStatus.t -> TransferStatus.t)
    (m : SecureTransferManager) (s : TransferStatus.t) :
  objects m !! l = Some s ->
  assign l f m
  = mkManager (<[l := f s]> (objects m)) (activeTransfers m) (transferQueue m)
      (timers m).
Proof. intros Hs. unfold assign. by rewrite (alter_insert_lookup _ _ _ s). Qed.

Lemma insert_lookup_same (objs : list TransferStatus.t) (l : nat)
    (s x : TransferStatus.t) :
  objs !! l = Some s -> <[l := x]> objs !! l = Some x.
Proof. intros Hs. apply list_lookup_insert_eq. by eapply lookup_lt_Some. Qed.

(** The effect of one pass of the step loop on a manager whose object at the
    task's address is [s]. *)
Lemma simulateStationTransfer_step_effect (t : Task) (step : Z)
    (m : SecureTransferManager) (s : TransferStatus.t) :
  objects m !! task_status t = Some s ->
  simulateStationTransfer_step t step m
  = mkManager
      (<[task_status t :=
           TransferStatus.set_progress (Z.min 100 ((step + 1) * 10)) s]>
         (objects m))
      (<[TransferStatus.requestId s := task_status t]> (activeTransfers m))
      (transferQueue m)
      (timers m ++ [mkTask (task_request t) (task_status t) (task_stations t)
                      (task_i t) step]).
Proof.
  intros Hs. unfold simulateStationTransfer_step.
  rewrite (assign_lookup _ _ _ s Hs).
  unfold activeTransfers_set_own; cbn [objects].
  by rewrite (insert_lookup_same _ _ s).
Qed.

(** The effect of [executeTransfer]'s loop from index [i]: when a hop is
    left, its first step runs and a timer is set; when none is left, the
    object is stored one last time. *)
Lemma executeTransfer_loop_effect (request : TransferRequest.t) (l : nat)
    (stations : list string) (i : Z) (m : SecureTransferManager)
    (s : TransferStatus.t) :
  objects m !! l = Some s ->
  (i < Z.of_nat (length stations) - 1
   /\ executeTransfer_loop request l stations i m
      = mkManager
          (<[l := TransferStatus.set_progress 10
                    (TransferStatus.set_nextStation
                       (nth (Z.to_nat (i + 1)) stations "")
                       (TransferStatus.set_currentStation
                          (nth (Z.to_nat i) stations "") s))]> (objects m))
          (<[TransferStatus.requestId s := l]> (activeTransfers m))
          (transferQueue m)
          (timers m ++ [mkTask request l stations i 0]))
  \/ (Z.of_nat (length stations) - 1 <= i
      /\ executeTransfer_loop request l stations i m
         = mkManager (objects m)
             (<[TransferRequest.id request := l]> (activeTransfers m))
             (transferQueue m) (timers m)).
Proof.
  intros Hs. unfold executeTransfer_loop.
  destruct (Z.ltb_spec i (Z.of_nat (length stations) - 1)) as [Hlt|Hge].
  - left. split; [done|].
    rewrite (assign_lookup _ _ _ s Hs).
    erewrite assign_lookup by (cbn [objects]; by eapply insert_lookup_same).
    erewrite simulateStationTransfer_step_effect
      by (cbn [objects task_status];
          rewrite list_insert_insert_eq; by eapply insert_lookup_same).
    cbn [objects activeTransfers transferQueue timers task_status task_request
         task_stations task_i].
    by rewrite !list_insert_insert_eq.
  - right. done.
Qed.

Lemma resume_effect (t : Task) (m : SecureTransferManager)
    (s : TransferStatus.t) :
  objects m !! task_status t = Some s ->
  transferQueue (resume t m) = transferQueue m
  /\ resumed t m (resume t m) s.
Proof.
  intros Hs. unfold resume.
  destruct (Z.ltb_spec (task_step t + 1) transferSteps) as [Hstep|Hstep].
  { rewrite (simulateStationTransfer_step_effect _ _ _ s Hs).
    split; [done|]. eapply resumed_running; reflexivity. }
  destruct (Z.eqb_spec (task_i t) (Z.of_nat (length (task_stations t)) - 2))
    as [Hlast|Hmore].
  - rewrite (assign_lookup _ _ _ s Hs).
    erewrite assign_lookup by (cbn [objects]; by eapply insert_lookup_same).
    cbn [objects activeTransfers transferQueue timers].
    rewrite list_insert_insert_eq.
    match goal with
    | |- context [executeTransfer_loop ?r ?l ?st ?i ?m0] =>
        destruct (executeTransfer_loop_effect r l st i m0
                    (TransferStatus.set_progress 100
                       (TransferStatus.set_status completed s)))
          as [[Hlt _]|[_ ->]]
    end.
    + cbn [objects]. by eapply insert_lookup_same.
    + lia.
    + split; [done|]. eapply resumed_completed; reflexivity.
  - destruct (executeTransfer_loop_effect (task_request t) (task_status t)
                (task_stations t) (task_i t + 1) m s Hs) as [[_ ->]|[_ ->]].
    + split; [done|]. eapply resumed_running; reflexivity.
    + split; [done|]. eapply resumed_left; reflexivity.
Qed.

Lemma enqueueTransfer_effect (request : TransferRequest.t)
    (m : SecureTransferManager) :
  enqueueTransfer request m
  = mkManager
      (objects m
       ++ [TransferStatus.mk (TransferRequest.id request) pending 0
             (TransferRequest.fromStation request)
             (TransferRequest.toStation request)
             (calculateEstimatedTime request) None])
      (<[TransferRequest.id request := length (objects m)]> (activeTransfers m))
      (transferQueue m ++ [request]) (timers m).
Proof. reflexivity. Qed.

Lemma getTransferRoute_length (src dst : string) :
  (String.eqb src dst = true /\ getTransferRoute src dst = [src])
  \/ (String.eqb src dst = false
      /\ 2 <= Z.of_nat (length (getTransferRoute src dst))).
Proof.
  unfold getTransferRoute. destruct (String.eqb src dst); [by left|right].
  split; [done|]. by destruct (_ || _); cbn.
Qed.

Lemma processTransferQueue_accepted (request : TransferRequest.t)
    (m : SecureTransferManager) :
  transferQueue m = [] ->
  processTransferQueue (enqueueTransfer request m)
  = mkManager (objects m ++ [accepted_status request])
      (<[TransferRequest.id request := length (objects m)]> (activeTransfers m))
      [] (timers m ++ accepted_timers request (length (objects m))).
Proof.
  intros Hq. rewrite enqueueTransfer_effect, Hq.
  unfold processTransferQueue.
  cbn [transferQueue app objects activeTransfers timers].
  rewrite lookup_insert_eq. unfold executeTransfer.
  set (pend := TransferStatus.mk _ pending _ _ _ _ _).
  assert (Hp : (objects m ++ [pend]) !! length (objects m) = Some pend).
  { rewrite lookup_app_r by lia. by rewrite Nat.sub_diag. }
  rewrite (assign_lookup _ _ _ pend) by done.
  cbn [objects activeTransfers transferQueue timers].
  match goal with
  | |- executeTransfer_loop ?r ?l ?st ?i ?m0 = _ =>
      destruct (executeTransfer_loop_effect r l st i m0
                  (TransferStatus.set_status processing pend))
        as [[Hlt ->]|[Hge ->]]
  end.
  - cbn [objects]. by eapply insert_lookup_same.
  - destruct (getTransferRoute_length (TransferRequest.fromStation request)
                (TransferRequest.toStation request)) as [[_ Hr]|[Hne _]].
    { rewrite Hr in Hlt. cbn in Hlt. lia. }
    unfold accepted_status, accepted_timers. rewrite Hne.
    cbn [objects activeTransfers transferQueue timers].
    rewrite list_insert_insert_eq, insert_insert_eq.
    f_equal.
    rewrite insert_app_r_alt by lia. by rewrite Nat.sub_diag.
  - destruct (getTransferRoute_length (TransferRequest.fromStation request)
                (TransferRequest.toStation request)) as [[Heq _]|[_ Hlen]];
      [|lia].
    unfold accepted_status, accepted_timers. rewrite Heq.
    cbn [objects activeTransfers transferQueue timers].
    rewrite insert_insert_eq, app_nil_r.
    f_equal.
    rewrite insert_app_r_alt by lia. by rewrite Nat.sub_diag.
Qed.

(** * What holds of the manager between two events *)

Lemma manager_inv_new : manager_inv new_manager.
Proof.
  split; cbn; try done.
  - intros t Ht. by apply elem_of_nil in Ht.
  - constructor.
Qed.

Lemma accepted_status_processing (request : TransferRequest.t) :
  TransferStatus.status (accepted_status request) = processing
  /\ TransferStatus.requestId (accepted_status request)
     = TransferRequest.id request.
Proof. unfold accepted_status. by destruct (String.eqb _ _). Qed.

Lemma accepted_timers_elem (request : TransferRequest.t) (l : nat) (t : Task) :
  t ∈ accepted_timers request l -> task_status t = l /\ task_request t = request.
Proof.
  unfold accepted_timers. destruct (String.eqb _ _).
  - intros Ht. by apply elem_of_nil in Ht.
  - intros Ht. apply list_elem_of_singleton in Ht. by subst t.
Qed.

Lemma manager_inv_accepted (request : TransferRequest.t)
    (m : SecureTransferManager) :
  manager_inv m ->
  manager_inv (processTransferQueue (enqueueTransfer request m)).
Proof.
  intros [Hq Ht Hnd Ho Ha].
  rewrite processTransferQueue_accepted by done.
  destruct (accepted_status_processing request) as [Hst Hid].
  assert (Hnew : (objects m ++ [accepted_status request]) !! length (objects m)
                 = Some (accepted_status request)).
  { rewrite lookup_app_r by lia. by rewrite Nat.sub_diag. }
  split; cbn [objects activeTransfers transferQueue timers].
  - done.
  - intros t [Hin|Hin]%elem_of_app.
    + destruct (Ht t Hin) as (s & Hs & ? & ? & ?).
      exists s. split; [by apply lookup_app_l_Some|]. do 2 (split; [done|]).
      apply lookup_insert_is_Some. destruct (decide
        (TransferRequest.id request = TransferRequest.id (task_request t)));
        auto.
    + apply accepted_timers_elem in Hin as [-> ->].
      exists (accepted_status request). split; [done|].
      split; [by left|]. split; [done|].
      by rewrite lookup_insert_eq.
  - rewrite fmap_app. apply NoDup_app. split; [done|]. split.
    + intros l Hold Hl.
      apply list_elem_of_fmap in Hold as (t & -> & Hin).
      apply list_elem_of_fmap in Hl as (t' & Heq & Hin').
      apply accepted_timers_elem in Hin' as [Hl' _].
      destruct (Ht t Hin) as (s & Hs & _). apply lookup_lt_Some in Hs. lia.
    + unfold accepted_timers. destruct (String.eqb _ _); cbn.
      * constructor.
      * apply NoDup_singleton.
  - intros l s [Hs|[_ Hs]]%lookup_app_Some; [by apply Ho in Hs|].
    destruct (decide (l - length (objects m) = 0)%nat) as [Hz|Hz].
    + rewrite Hz in Hs. cbn in Hs. injection Hs as <-.
      rewrite Hst. split; discriminate.
    + destruct (l - length (objects m))%nat; [done|]. by cbn in Hs.
  - intros k l. rewrite lookup_insert.
    destruct (decide (TransferRequest.id request = k)) as [<-|Hne].
    + intros [= <-]. eauto.
    + intros Hk. destruct (Ha k l Hk) as (s & Hs & ?).
      exists s. split; [by apply lookup_app_l_Some | done].
Qed.

Lemma manager_inv_initiateTransfer (h : gmap string SubnetHealth.t)
    (request : TransferRequest.t) (m : SecureTransferManager) :
  manager_inv m -> manager_inv (initiateTransfer h request m).1.
Proof.
  intros Hm. unfold initiateTransfer.
  destruct (negb (validateTransferRequest request)); [done|].
  destruct (_ || _); [done|]. by apply manager_inv_accepted.
Qed.

Lemma manager_inv_cancelTransfer (transferId : string)
    (m : SecureTransferManager) :
  manager_inv m -> cancelTransfer transferId m = (m, false).
Proof.
  intros Hm. apply cancelTransfer_not_pending.
  intros s (l & _ & Hs)%getTransferStatus_Some.
  by apply (inv_objects m Hm) in Hs as [? _].
Qed.

Lemma delete_lookup_split {A} (l : list A) (k : nat) (x : A) :
  l !! k = Some x ->
  exists l1 l2, l = l1 ++ x :: l2 /\ delete k l = l1 ++ l2.
Proof.
  intros Hk. exists (take k l), (drop (S k) l). split.
  - by rewrite take_drop_middle.
  - apply delete_take_drop.
Qed.

Lemma NoDup_fmap_delete {A B} (f : A -> B) (l : list A) (k : nat) (x : A) :
  l !! k = Some x -> NoDup (f <$> l) ->
  NoDup (f <$> delete k l) /\ (forall y, y ∈ delete k l -> f y <> f x).
Proof.
  intros Hk Hnd.
  destruct (delete_lookup_split l k x Hk) as (l1 & l2 & -> & ->).
  rewrite fmap_app, fmap_cons in Hnd.
  apply NoDup_app in Hnd as (Hnd1 & Hdisj & Hnd2).
  apply NoDup_cons in Hnd2 as [Hx Hnd2].
  split.
  - rewrite fmap_app. apply NoDup_app. split; [done|]. split; [|done].
    intros b Hb1 Hb2. apply (Hdisj b Hb1). by right.
  - intros y [Hy|Hy]%elem_of_app Heq.
    + apply (Hdisj (f y)); [by apply list_elem_of_fmap_2|].
      rewrite Heq. by left.
    + apply Hx. rewrite <- Heq. by apply list_elem_of_fmap_2.
Qed.

Lemma manager_inv_timer_fires (k : nat) (m : SecureTransferManager) :
  manager_inv m -> manager_inv (timer_fires k m).
Proof.
  intros Hm. unfold timer_fires.
  destruct (timers m !! k) as [t|] eqn:Hk; [|done].
  destruct Hm as [Hq Ht Hnd Ho Ha].
  destruct (Ht t) as (s & Hs & Hst & Hid & Hin);
    [by eapply list_elem_of_lookup_2|].
  destruct (NoDup_fmap_delete task_status _ _ _ Hk Hnd) as [Hnd' Hother].
  set (m0 := mkManager _ _ _ (delete k (timers m))).
  destruct (resume_effect t m0 s Hs) as [Hq' Hr].
  assert (Hkeep : forall u, u ∈ delete k (timers m) ->
            exists su, objects m !! task_status u = Some su
              /\ (TransferStatus.status su = processing
                  \/ TransferStatus.status su = failed)
              /\ TransferStatus.requestId su = TransferRequest.id (task_request u)
              /\ is_Some (<[TransferRequest.id (task_request t) := task_status t]>
                            (activeTransfers m)
                          !! TransferRequest.id (task_request u))
              /\ task_status u <> task_status t).
  { intros u Hu. destruct (Ht u) as (su & ? & ? & ? & ?).
    - by eapply list_elem_of_delete_inv.
    - exists su. do 3 (split; [done|]). split; [|by auto].
      apply lookup_insert_is_Some. destruct (decide
        (TransferRequest.id (task_request t)
         = TransferRequest.id (task_request u))); auto. }
  assert (Hobj : forall s', TransferStatus.status s' <> pending ->
            (TransferStatus.status s' = completed ->
             TransferStatus.progress s' = 100) ->
            forall l x, <[task_status t := s']> (objects m) !! l = Some x ->
              TransferStatus.status x <> pending
              /\ (TransferStatus.status x = completed ->
                  TransferStatus.progress x = 100)).
  { intros s' Hp Hc l x [(_ & Hx & _)|[_ Hx]]%list_lookup_insert_Some;
      [by rewrite <- Hx | by apply Ho in Hx]. }
  assert (Hact : forall s', TransferStatus.requestId s' = TransferStatus.requestId s ->
            forall key l,
              <[TransferRequest.id (task_request t) := task_status t]>
                (activeTransfers m) !! key = Some l ->
              exists x, <[task_status t := s']> (objects m) !! l = Some x
                        /\ TransferStatus.requestId x = key).
  { intros s' Hid' key l. rewrite lookup_insert.
    destruct (decide (TransferRequest.id (task_request t) = key)) as [<-|Hne].
    - intros [= <-]. exists s'.
      split; [by eapply insert_lookup_same | congruence].
    - intros Hl. destruct (Ha key l Hl) as (x & Hx & Hkx).
      destruct (decide (l = task_status t)) as [->|Hl'].
      + exists s'. split; [by eapply insert_lookup_same | congruence].
      + exists x. by rewrite list_lookup_insert_ne. }
  destruct Hr as [s' t' Hobjs Htim Hs' Hid' Hl' Hreq Hmap
                 |s' Hobjs Hs' Hprog Hid' Htim Hmap
                 |Hobjs Htim Hmap];
    split; rewrite ?Hq', ?Hobjs, ?Htim, ?Hmap;
    cbn [objects activeTransfers transferQueue timers]; try done.
  - intros u [Hu|Hu%list_elem_of_singleton]%elem_of_app.
    + destruct (Hkeep u Hu) as (su & ? & ? & ? & ? & ?).
      exists su. rewrite Hid. by rewrite list_lookup_insert_ne.
    + subst u. exists s'. rewrite Hl', Hreq.
      split; [by eapply insert_lookup_same|].
      split; [by rewrite Hs'|]. split; [congruence|].
      by rewrite Hid, lookup_insert_eq.
  - rewrite fmap_app. apply NoDup_app. split; [done|]. split.
    + intros l (u & -> & Hu)%list_elem_of_fmap Hl.
      cbn in Hl. apply list_elem_of_singleton in Hl.
      apply (Hother u Hu). congruence.
    + apply NoDup_singleton.
  - apply Hobj; rewrite Hs'; destruct Hst as [-> | ->]; done.
  - rewrite Hid. by apply Hact.
  - intros u Hu. destruct (Hkeep u Hu) as (su & ? & ? & ? & ? & ?).
    exists su. by rewrite list_lookup_insert_ne.
  - apply Hobj; [congruence | done].
  - by apply Hact.
  - intros u Hu. destruct (Hkeep u Hu) as (su & ? & ? & ? & ? & ?). eauto.
  - intros key l Hl.
    destruct (Hact s eq_refl key l Hl) as (x & Hx & ?).
    exists x. by rewrite list_insert_id in Hx.
Qed.

(** * The health monitor keeps every metric in range *)

Ltac Qclosed := unfold Qle, Qlt; cbn; lia.

Lemma clamp_bounds (lo hi x : Q) : (lo <= hi -> lo <= clamp lo hi x <= hi)%Q.
Proof.
  intros Hle. unfold clamp. split.
  - apply Q.le_max_l.
  - apply Q.max_lub; [done | apply Q.le_min_l].
Qed.

Lemma insert_within_ranges (h : gmap string SubnetHealth.t) (k : string)
    (x : SubnetHealth.t) :
  within_ranges x ->
  (forall stationId y, h !! stationId = Some y -> within_ranges y) ->
  forall stationId y, <[k := x]> h !! stationId = Some y -> within_ranges y.
Proof.
  intros Hx Hh stationId y. rewrite lookup_insert.
  destruct (decide (k = stationId)); [by intros [= <-] | apply Hh].
Qed.

Section MonitorFacts.

Variable random : nat -> Q.

Lemma checkStationHealth_within_ranges (now : Z)
    (h : gmap string SubnetHealth.t) (stationId : string)
    (config : ISROSubnetConfig.t) (n : nat) :
  within_ranges (checkStationHealth random now h stationId config n).1.
Proof.
  unfold checkStationHealth, mbind, Rand_bind, mret, Rand_ret, Math_random.
  destruct (h !! stationId); cbn;
    (repeat split; apply clamp_bounds; Qclosed).
Qed.

Lemma updateHealthData_loop_inv (now : Z)
    (stations : list (string * ISROSubnetConfig.t)) :
  forall (h : gmap string SubnetHealth.t) (n : nat),
    (forall stationId x, h !! stationId = Some x -> within_ranges x) ->
    let h' := (updateHealthData_loop random now stations h n).1 in
    (forall stationId x, h' !! stationId = Some x -> within_ranges x)
    /\ (forall stationId,
           is_Some (h !! stationId) \/ In stationId (map fst stations) ->
           is_Some (h' !! stationId)).
Proof.
  induction stations as [|[k config] rest IH]; intros h n Hh.
  - cbn. split; [done|]. by intros stationId [?|[]].
  - cbn [updateHealthData_loop]. unfold mbind, Rand_bind.
    pose proof (checkStationHealth_within_ranges now h k config n) as Hx.
    destruct (checkStationHealth random now h k config n) as [x n'].
    cbn [fst] in Hx.
    destruct (IH (<[k := x]> h) n' (insert_within_ranges h k x Hx Hh))
      as [Hr Hd].
    split; [done|].
    intros stationId Hs. apply Hd. rewrite lookup_insert_is_Some.
    destruct (decide (k = stationId)) as [->|Hne]; [left; by left|].
    destruct Hs as [?|[?|?]]; [left; by right | done | by right].
Qed.

Hypothesis random_range : forall n, (0 <= random n < 1)%Q.

Lemma healthy_defaults_within_ranges (stationId : string)
    (config : ISROSubnetConfig.t) (now : Z) (r1 r2 : Q) :
  (0 <= r1 < 1)%Q -> (0 <= r2 < 1)%Q ->
  within_ranges (healthy_defaults stationId config now
                   (50 + r1 * 50)%Q (500 + r2 * 500)%Q).
Proof.
  intros [H1 H1'] [H2 H2']. unfold within_ranges, healthy_defaults. cbn.
  destruct r1 as [a b], r2 as [c d]. unfold Qle, Qlt in *. cbn in *.
  repeat split; nia.
Qed.

Lemma initializeHealthMonitoring_loop_inv (now : Z)
    (stations : list (string * ISROSubnetConfig.t)) :
  forall (h : gmap string SubnetHealth.t) (n : nat),
    (forall stationId x, h !! stationId = Some x -> within_ranges x) ->
    let h' := (initializeHealthMonitoring_loop random now stations h n).1 in
    (forall stationId x, h' !! stationId = Some x -> within_ranges x)
    /\ (forall stationId,
           is_Some (h !! stationId) \/ In stationId (map fst stations) ->
           is_Some (h' !! stationId)).
Proof.
  induction stations as [|[k config] rest IH]; intros h n Hh.
  - cbn. split; [done|]. by intros stationId [?|[]].
  - cbn [initializeHealthMonitoring_loop].
    unfold mbind, Rand_bind, Math_random.
    match goal with
    | |- context [<[k := ?x]> h] =>
        assert (Hx : within_ranges x)
          by (apply healthy_defaults_within_ranges; apply random_range);
        destruct (IH (<[k := x]> h) (S (S n))
                    (insert_within_ranges h k x Hx Hh)) as [Hr Hd]
    end.
    split; [done|].
    intros stationId Hs. apply Hd. rewrite lookup_insert_is_Some.
    destruct (decide (k = stationId)) as [->|Hne]; [left; by left|].
    destruct Hs as [?|[?|?]]; [left; by right | done | by right].
Qed.

Lemma health_inv_start (now : Z) : health_inv (healthData (start random now)).
Proof.
  unfold start, initializeHealthMonitoring.
  destruct (initializeHealthMonitoring_loop_inv now ISRO_SUBNET_CONFIG ∅ 0%nat)
    as [Hr Hd]; [done|].
  destruct (initializeHealthMonitoring_loop random now ISRO_SUBNET_CONFIG ∅ 0%nat)
    as [h n].
  split; [done|]. intros stationId Hin. apply Hd. by right.
Qed.

Lemma health_inv_step (s : System) (e : Event) :
  health_inv (healthData s) -> health_inv (healthData (step random s e)).
Proof.
  intros [Hr Hd]. destruct e as [request|transferId|k|now]; try done.
  cbn [step]. unfold updateHealthData.
  destruct (updateHealthData_loop_inv now ISRO_SUBNET_CONFIG (healthData s)
              (randomCalls s) Hr) as [Hr' Hd'].
  destruct (updateHealthData_loop random now ISRO_SUBNET_CONFIG (healthData s)
              (randomCalls s)) as [h n].
  split; [done|]. intros stationId Hin. apply Hd'. left. by apply Hd.
Qed.

Lemma health_inv_run (es : list Event) :
  forall s, health_inv (healthData s) ->
            health_inv (healthData (run random s es)).
Proof.
  induction es as [|e es IH]; intros s Hs; [done|].
  cbn. apply IH. by apply health_inv_step.
Qed.

End MonitorFacts.

(** * Every reachable manager satisfies the invariant *)

Section RunFacts.

Variable random : nat -> Q.

Lemma manager_inv_start (now : Z) : manager_inv (manager (start random now)).
Proof.
  unfold start. destruct (initializeHealthMonitoring random now 0%nat).
  apply manager_inv_new.
Qed.

Lemma manager_inv_step (s : System) (e : Event) :
  manager_inv (manager s) -> manager_inv (manager (step random s e)).
Proof.
  intros Hm. destruct e as [request|transferId|k|now]; cbn [step manager].
  - by apply manager_inv_initiateTransfer.
  - by rewrite manager_inv_cancelTransfer.
  - by apply manager_inv_timer_fires.
  - by destruct (updateHealthData random now (healthData s) (randomCalls s)).
Qed.

Lemma manager_inv_run (es : list Event) :
  forall s, manager_inv (manager s) -> manager_inv (manager (run random s es)).
Proof.
  induction es as [|e es IH]; intros s Hs; [done|].
  cbn. apply IH. by apply manager_inv_step.
Qed.

End RunFacts.

(** * Health clamping *)

(** C6. Whatever events the system has run since the monitor started, any
    number of health refreshes among them, every station of the registry has
    a snapshot, and every snapshot has uptime and consensus rate in
    [0.97, 1], latency in [30, 150] and throughput in [200, 2000]. *)
Theorem health_metrics_stay_in_range
    (random : nat -> Q) (now : Z) (es : list Event) :
  (forall n, (0 <= random n < 1)%Q) ->
  let h := healthData (run random (start random now) es) in
  (forall stationId, In stationId station_ids ->
     exists x, getStationHealth h stationId = Some x /\ within_ranges x)
  /\ (forall stationId x,
         getStationHealth h stationId = Some x -> within_ranges x).
Proof.
  intros Hrange h.
  destruct (health_inv_run random es (start random now)
              (health_inv_start random Hrange now)) as [Hr Hd].
  split; [|exact Hr].
  intros stationId Hin. destruct (Hd stationId Hin) as [x Hx].
  exists x. split; [done | by eapply Hr].
Qed.

Lemma random_half_range : forall n, (0 <= random_half n < 1)%Q.
Proof. intros n. unfold random_half. split; Qclosed. Qed.

Lemma health_metrics_stay_in_range_witness :
  let h := healthData (run random_half (start random_half 0)
                         [HealthInterval 5000; HealthInterval 10000;
                          HealthInterval 15000]) in
  (forall stationId, In stationId station_ids ->
     exists x, getStationHealth h stationId = Some x /\ within_ranges x)
  /\ (forall stationId x,
         getStationHealth h stationId = Some x -> within_ranges x).
Proof.
  apply (health_metrics_stay_in_range random_half 0).
  intros n. unfold random_half. split; Qclosed.
Defined.

(** * Progress and completion *)

(** C2, as the code has it. In every state the system can reach, a status
    object whose status is [completed] has progress exactly 100, whether it
    is still the one the map returns for its id or not. *)
Theorem completed_has_progress_100
    (random : nat -> Q) (now : Z) (es : list Event) :
  let m := manager (run random (start random now) es) in
  (forall l s, objects m !! l = Some s ->
     TransferStatus.status s = completed -> TransferStatus.progress s = 100)
  /\ (forall transferId s, getTransferStatus transferId m = Some s ->
        TransferStatus.status s = completed -> TransferStatus.progress s = 100).
Proof.
  intros m.
  pose proof (manager_inv_run random es _ (manager_inv_start random now)) as Hm.
  split.
  - intros l s Hs. by apply (inv_objects _ Hm) in Hs as [_ ?].
  - intros transferId s (l & _ & Hs)%getTransferStatus_Some.
    by apply (inv_objects _ Hm) in Hs as [_ ?].
Qed.

Lemma completed_has_progress_100_witness :
  TransferStatus.progress
    (TransferStatus.mk "t1" completed 100 "bangalore" "delhi" 5 None) = 100.
Proof.
  refine (proj2 (completed_has_progress_100 random_half 0
                   (Initiate request_t1 :: repeat (Timeout 0) 20))
            "t1" _ _ _).
  - vm_compute. reflexivity.
  - reflexivity.
Defined.

(** C2, as the spec words it, fails in both of its readings: after the
    tenth step of the first hop the progress is 100 while the status is
    still [processing]; the next step starts the second hop at 10. *)
Lemma progress_100_while_processing :
  (exists s, getTransferStatus "t1" (run_t1 9) = Some s
             /\ TransferStatus.progress s = 100
             /\ TransferStatus.status s = processing
             /\ TransferStatus.status s <> completed)
  /\ (exists s, getTransferStatus "t1" (run_t1 10) = Some s
                /\ TransferStatus.progress s = 10
                /\ TransferStatus.status s = processing)
  /\ ~ (forall s, getTransferStatus "t1" (run_t1 9) = Some s ->
                  TransferStatus.progress s = 100
                  <-> TransferStatus.status s = completed).
Proof.
  split; [|split].
  - eexists. split; [vm_compute; reflexivity|]. by repeat split.
  - eexists. split; [vm_compute; reflexivity|]. by repeat split.
  - intros Hiff.
    specialize (Hiff (TransferStatus.mk "t1" processing 100 "chennai"
                        "bangalore" 5 None)).
    assert (Hc : processing = completed); [|discriminate].
    apply Hiff; [vm_compute|]; reflexivity.
Qed.

(** * Accepted submissions *)

Lemma initiateTransfer_accepted (h : gmap string SubnetHealth.t)
    (request : TransferRequest.t) (m : SecureTransferManager) :
  validateTransferRequest request = true ->
  isStationHealthy h (TransferRequest.fromStation request) = true ->
  isStationHealthy h (TransferRequest.toStation request) = true ->
  initiateTransfer h request m
  = (processTransferQueue (enqueueTransfer request m),
     Resolved (TransferRequest.id request)).
Proof. intros Hv Hf Ht. unfold initiateTransfer. by rewrite Hv, Hf, Ht. Qed.

Lemma getTransferStatus_accepted (request : TransferRequest.t)
    (m : SecureTransferManager) :
  transferQueue m = [] ->
  getTransferStatus (TransferRequest.id request)
    (processTransferQueue (enqueueTransfer request m))
  = Some (accepted_status request).
Proof.
  intros Hq. rewrite processTransferQueue_accepted by done.
  apply getTransferStatus_Some. exists (length (objects m)). cbn. split.
  - by rewrite lookup_insert_eq.
  - rewrite lookup_app_r by lia. by rewrite Nat.sub_diag.
Qed.

(** C3, as the code has it. In a reachable state, submitting a valid request
    between healthy stations resolves to the request's own id.  Inside the
    call the stored status is [pending]; processing starts before the call
    returns, so the status the caller finds is [processing], with progress 0
    and no timer when source and destination are equal, and with progress 10
    and the first one-second timer pending otherwise: the call has not
    waited for the transfer. *)
Theorem initiateTransfer_returns_processing
    (random : nat -> Q) (now : Z) (es : list Event)
    (request : TransferRequest.t) :
  let s := run random (start random now) es in
  let m := manager s in
  validateTransferRequest request = true ->
  isStationHealthy (healthData s) (TransferRequest.fromStation request) = true ->
  isStationHealthy (healthData s) (TransferRequest.toStation request) = true ->
  (initiateTransfer (healthData s) request m).2
  = Resolved (TransferRequest.id request)
  /\ (TransferStatus.status
        <$> getTransferStatus (TransferRequest.id request)
              (enqueueTransfer request m)) = Some pending
  /\ (initiateTransfer (healthData s) request m).1
     = mkManager (objects m ++ [accepted_status request])
         (<[TransferRequest.id request := length (objects m)]>
            (activeTransfers m))
         [] (timers m ++ accepted_timers request (length (objects m)))
  /\ getTransferStatus (TransferRequest.id request)
       (initiateTransfer (healthData s) request m).1
     = Some (accepted_status request)
  /\ TransferStatus.status (accepted_status request) = processing
  /\ TransferStatus.progress (accepted_status request)
     = (if decide (TransferRequest.fromStation request
                   = TransferRequest.toStation request) then 0 else 10).
Proof.
  intros s m Hv Hf Ht.
  pose proof (manager_inv_run random es _ (manager_inv_start random now)) as Hm.
  pose proof (inv_queue _ Hm) as Hq. fold s m in Hq.
  rewrite (initiateTransfer_accepted _ _ _ Hv Hf Ht). cbn [fst snd].
  split; [done|]. split.
  { rewrite enqueueTransfer_effect. unfold getTransferStatus. cbn.
    rewrite lookup_insert_eq. cbn.
    rewrite lookup_app_r by lia. by rewrite Nat.sub_diag. }
  split; [by apply processTransferQueue_accepted|].
  split; [by apply getTransferStatus_accepted|].
  split; [apply accepted_status_processing|].
  unfold accepted_status. rewrite eqb_string_decide.
  by destruct (decide _); [rewrite bool_decide_eq_true_2
                          |rewrite bool_decide_eq_false_2].
Qed.

Lemma initiateTransfer_returns_processing_witness :
  TransferStatus.status (accepted_status request_t1) = processing
  /\ TransferStatus.progress (accepted_status request_t1) = 10.
Proof.
  pose proof (initiateTransfer_returns_processing random_half 0
                [HealthInterval 5000] request_t1) as H.
  cbv zeta in H.
  specialize (H eq_refl).
  assert (Hf : isStationHealthy
                 (healthData (run random_half (start random_half 0)
                                [HealthInterval 5000])) "chennai" = true)
    by (vm_compute; reflexivity).
  assert (Ht : isStationHealthy
                 (healthData (run random_half (start random_half 0)
                                [HealthInterval 5000])) "delhi" = true)
    by (vm_compute; reflexivity).
  destruct (H Hf Ht) as (_ & _ & _ & _ & Hst & Hpr).
  split; [exact Hst | exact Hpr].
Defined.

(** C3, as the spec words it, fails right at the start: after the call has
    returned the id, the status stored under it is [processing], not
    [pending]. *)
Lemma initiateTransfer_is_not_pending_on_return :
  let s := start random_half 0 in
  validateTransferRequest request_t1 = true
  /\ isStationHealthy (healthData s) "chennai" = true
  /\ isStationHealthy (healthData s) "delhi" = true
  /\ (initiateTransfer (healthData s) request_t1 (manager s)).2 = Resolved "t1"
  /\ (TransferStatus.status
        <$> getTransferStatus "t1"
              (initiateTransfer (healthData s) request_t1 (manager s)).1)
     = Some processing
  /\ spec_state processing <> Pending.
Proof. cbv zeta. repeat split; try (vm_compute; reflexivity). discriminate. Qed.

(** * Objects no executor holds *)

Lemma parked_accepted (request : TransferRequest.t)
    (m : SecureTransferManager) (l : nat) (s0 : TransferStatus.t) :
  manager_inv m -> parked l s0 m ->
  parked l s0 (processTransferQueue (enqueueTransfer request m)).
Proof.
  intros Hm [Hs Ht]. rewrite processTransferQueue_accepted by apply Hm.
  split; cbn [objects timers].
  - by apply lookup_app_l_Some.
  - intros t [Hin|Hin]%elem_of_app; [by apply Ht|].
    apply accepted_timers_elem in Hin as [-> _].
    apply lookup_lt_Some in Hs. lia.
Qed.

Lemma sole_owner_accepted (request : TransferRequest.t)
    (m : SecureTransferManager) (key : string) (l : nat) :
  manager_inv m -> TransferRequest.id request <> key ->
  sole_owner key l m ->
  sole_owner key l (processTransferQueue (enqueueTransfer request m)).
Proof.
  intros Hm Hne [Hk Ht]. rewrite processTransferQueue_accepted by apply Hm.
  split; cbn [activeTransfers timers].
  - by rewrite lookup_insert_ne.
  - intros t [Hin|Hin]%elem_of_app; [by apply Ht|].
    by apply accepted_timers_elem in Hin as [_ ->].
Qed.

Lemma timer_fires_frame (k : nat) (m : SecureTransferManager) :
  manager_inv m ->
  (forall l s0, parked l s0 m -> parked l s0 (timer_fires k m))
  /\ (forall key l, sole_owner key l m -> sole_owner key l (timer_fires k m)).
Proof.
  intros Hm. unfold timer_fires.
  destruct (timers m !! k) as [t|] eqn:Hk; [|done].
  assert (Hin : t ∈ timers m) by (by eapply list_elem_of_lookup_2).
  destruct (inv_tasks _ Hm t Hin) as (s & Hs & _ & Hid & _).
  set (m0 := mkManager _ _ _ (delete k (timers m))).
  destruct (resume_effect t m0 s Hs) as [_ Hr].
  split.
  - intros l s0 [Hl Ht]. pose proof (Ht t Hin) as Hne.
    assert (Hrest : forall u, u ∈ delete k (timers m) -> task_status u <> l)
      by (intros u Hu; apply Ht; by eapply list_elem_of_delete_inv).
    destruct Hr as [s' t' Hobjs Htim _ _ Hl' _ _
                   |s' Hobjs _ _ _ Htim _
                   |Hobjs Htim _];
      split; rewrite ?Hobjs, ?Htim; cbn [objects timers]; try done.
    + by rewrite list_lookup_insert_ne.
    + intros u [Hu|Hu%list_elem_of_singleton]%elem_of_app;
        [by apply Hrest | congruence].
    + by rewrite list_lookup_insert_ne.
  - intros key l [Hl Ht]. pose proof (Ht t Hin) as Hne.
    assert (Hrest : forall u, u ∈ delete k (timers m) ->
              TransferRequest.id (task_request u) <> key)
      by (intros u Hu; apply Ht; by eapply list_elem_of_delete_inv).
    destruct Hr as [s' t' _ Htim _ _ _ Hreq Hmap
                   |s' _ _ _ _ Htim Hmap
                   |_ Htim Hmap];
      split; rewrite ?Htim, ?Hmap; cbn [activeTransfers timers]; try done.
    + rewrite lookup_insert_ne; [done | congruence].
    + intros u [Hu|Hu%list_elem_of_singleton]%elem_of_app;
        [by apply Hrest | congruence].
    + by rewrite lookup_insert_ne.
    + by rewrite lookup_insert_ne.
Qed.

Section Frame.

Variable random : nat -> Q.

Lemma step_frame (s : System) (e : Event) :
  manager_inv (manager s) ->
  (forall l s0, parked l s0 (manager s) ->
                parked l s0 (manager (step random s e)))
  /\ (forall key l, no_reuse key e -> sole_owner key l (manager s) ->
                    sole_owner key l (manager (step random s e))).
Proof.
  intros Hm. destruct e as [request|transferId|k|now]; cbn [step manager].
  - unfold initiateTransfer.
    destruct (negb (validateTransferRequest request)); [done|].
    destruct (_ || _); [done|]. cbn [fst]. split.
    + intros l s0. by apply parked_accepted.
    + intros key l Hne. by apply sole_owner_accepted.
  - by rewrite manager_inv_cancelTransfer.
  - destruct (timer_fires_frame k _ Hm) as [Hp Ho]. split; [done|].
    intros key l _. apply Ho.
  - by destruct (updateHealthData random now (healthData s) (randomCalls s)).
Qed.

Lemma run_frame (es : list Event) :
  forall s, manager_inv (manager s) ->
    (forall l s0, parked l s0 (manager s) ->
                  parked l s0 (manager (run random s es)))
    /\ (forall key l, Forall (no_reuse key) es ->
                      sole_owner key l (manager s) ->
                      sole_owner key l (manager (run random s es))).
Proof.
  induction es as [|e es IH]; intros s Hm; [done|].
  destruct (step_frame s e Hm) as [Hp Ho].
  destruct (IH (step random s e) (manager_inv_step random s e Hm)) as [Hp' Ho'].
  split.
  - intros l s0 H. cbn. by apply Hp', Hp.
  - intros key l [Hne Hes]%Forall_cons H. cbn. by apply Ho', Ho.
Qed.

End Frame.

(** * Stops by the hook in between *)




Section HookFacts.

Variable random : nat -> Q.





Lemma perform_events (es : list Event) (s : System) :
  perform random s (map ManagerEvent es) = run random s es.
Proof.
  revert s. induction es as [|e es IH]; intros s; [done|]. cbn. apply IH.
Qed.

End HookFacts.

(** * A transfer from a station to itself *)




(** * Submitting an id a second time *)



(** * Cancellation in a running system *)

(** X1. Between two events the queue is empty and no status object is
    [pending]: every submission is taken out of the queue and set to
    [processing] before [initiateTransfer] returns.  So a caller of
    [cancelTransfer] always gets [false], and nothing changes. *)
Theorem cancelTransfer_never_succeeds
    (random : nat -> Q) (now : Z) (es : list Event) (transferId : string) :
  let m := manager (run random (start random now) es) in
  transferQueue m = []
  /\ Forall (fun s => TransferStatus.status s <> pending) (objects m)
  /\ cancelTransfer transferId m = (m, false).
Proof.
  intros m.
  pose proof (manager_inv_run random es _ (manager_inv_start random now)) as Hm.
  split; [apply Hm|]. split; [|by apply manager_inv_cancelTransfer].
  apply Forall_lookup. intros l s Hs. by apply (inv_objects _ Hm) in Hs as [? _].
Qed.

(** * Retention *)

Lemma activeTransfers_grows_timer_fires (k : nat) (m : SecureTransferManager)
    (key : string) :
  manager_inv m ->
  is_Some (activeTransfers m !! key) ->
  is_Some (activeTransfers (timer_fires k m) !! key).
Proof.
  intros Hm Hkey. unfold timer_fires.
  destruct (timers m !! k) as [t|] eqn:Hk; [|done].
  destruct (inv_tasks _ Hm t) as (s & Hs & _); [by eapply list_elem_of_lookup_2|].
  set (m0 := mkManager _ _ _ (delete k (timers m))).
  destruct (resume_effect t m0 s Hs) as [_ Hr].
  destruct Hr as [s' t' _ _ _ _ _ _ Hmap|s' _ _ _ _ _ Hmap|_ _ Hmap];
    rewrite Hmap; cbn [activeTransfers]; apply lookup_insert_is_Some;
    match goal with
    | |- ?a = key \/ _ => destruct (decide (a = key)); auto
    end.
Qed.

Section Retention.

Variable random : nat -> Q.

Lemma activeTransfers_grows_step (s : System) (e : Event) (key : string) :
  manager_inv (manager s) ->
  is_Some (activeTransfers (manager s) !! key) ->
  is_Some (activeTransfers (manager (step random s e)) !! key).
Proof.
  intros Hm Hkey. destruct e as [request|transferId|k|now]; cbn [step manager].
  - unfold initiateTransfer.
    destruct (negb (validateTransferRequest request)); [done|].
    destruct (_ || _); [done|]. cbn [fst].
    rewrite processTransferQueue_accepted by apply Hm. cbn [activeTransfers].
    apply lookup_insert_is_Some.
    destruct (decide (TransferRequest.id request = key)); auto.
  - by rewrite manager_inv_cancelTransfer.
  - by apply activeTransfers_grows_timer_fires.
  - by destruct (updateHealthData random now (healthData s) (randomCalls s)).
Qed.

Lemma activeTransfers_grows_run (es : list Event) (key : string) :
  forall s, manager_inv (manager s) ->
    is_Some (activeTransfers (manager s) !! key) ->
    is_Some (activeTransfers (manager (run random s es)) !! key).
Proof.
  induction es as [|e es IH]; intros s Hm Hkey; [done|].
  cbn. apply IH; [by apply manager_inv_step|].
  by apply activeTransfers_grows_step.
Qed.

End Retention.

(** X2. Nothing is ever removed from the map of transfers: once
    [getTransferStatus] answers for an id, it answers for it after every
    later sequence of events, and what it returns carries that id. *)
Theorem transfers_are_retained
    (random : nat -> Q) (now : Z) (es es' : list Event) (transferId : string) :
  let s := run random (start random now) es in
  is_Some (getTransferStatus transferId (manager s)) ->
  exists x,
    getTransferStatus transferId (manager (run random s es')) = Some x
    /\ TransferStatus.requestId x = transferId.
Proof.
  intros s [x0 (l0 & Hl0 & _)%getTransferStatus_Some].
  pose proof (manager_inv_run random es _ (manager_inv_start random now)) as Hm.
  fold s in Hm.
  pose proof (manager_inv_run random es' s Hm) as Hm'.
  destruct (activeTransfers_grows_run random es' transferId s Hm) as [l Hl];
    [by eexists|].
  destruct (inv_active _ Hm' transferId l Hl) as (x & Hx & Hid).
  exists x. split; [|done]. apply getTransferStatus_Some. eauto.
Qed.

Lemma transfers_are_retained_witness :
  exists x,
    getTransferStatus "t1"
      (manager (run random_half
                  (run random_half (start random_half 0) [Initiate request_t1])
                  (repeat (Timeout 0) 30 ++ [Cancel "t1"])))
    = Some x
    /\ TransferStatus.requestId x = "t1".
Proof.
  apply (transfers_are_retained random_half 0 [Initiate request_t1]
           (repeat (Timeout 0) 30 ++ [Cancel "t1"]) "t1").
  vm_compute. eexists. reflexivity.
Defined.

(** * The four ways a timer can go *)

Lemma resume_cases (t : Task) (m : SecureTransferManager)
    (s : TransferStatus.t) :
  objects m !! task_status t = Some s ->
  (task_step t + 1 < 10
   /\ resume t m
      = mkManager
          (<[task_status t :=
               TransferStatus.set_progress
                 (Z.min 100 ((task_step t + 1 + 1) * 10)) s]> (objects m))
          (<[TransferStatus.requestId s := task_status t]> (activeTransfers m))
          (transferQueue m)
          (timers m ++ [mkTask (task_request t) (task_status t)
                          (task_stations t) (task_i t) (task_step t + 1)]))
  \/ (10 <= task_step t + 1
      /\ task_i t = Z.of_nat (length (task_stations t)) - 2
      /\ resume t m
         = mkManager
             (<[task_status t :=
                  TransferStatus.set_progress 100
                    (TransferStatus.set_status completed s)]> (objects m))
             (<[TransferRequest.id (task_request t) := task_status t]>
                (activeTransfers m))
             (transferQueue m) (timers m))
  \/ (10 <= task_step t + 1
      /\ task_i t + 1 < Z.of_nat (length (task_stations t)) - 1
      /\ resume t m
         = mkManager
             (<[task_status t :=
                  TransferStatus.set_progress 10
                    (TransferStatus.set_nextStation
                       (nth (Z.to_nat (task_i t + 1 + 1)) (task_stations t) "")
                       (TransferStatus.set_currentStation
                          (nth (Z.to_nat (task_i t + 1)) (task_stations t) "")
                          s))]> (objects m))
             (<[TransferStatus.requestId s := task_status t]>
                (activeTransfers m))
             (transferQueue m)
             (timers m ++ [mkTask (task_request t) (task_status t)
                             (task_stations t) (task_i t + 1) 0]))
  \/ (10 <= task_step t + 1
      /\ task_i t <> Z.of_nat (length (task_stations t)) - 2
      /\ Z.of_nat (length (task_stations t)) - 1 <= task_i t + 1
      /\ resume t m
         = mkManager (objects m)
             (<[TransferRequest.id (task_request t) := task_status t]>
                (activeTransfers m))
             (transferQueue m) (timers m)).
Proof.
  intros Hs. unfold resume, transferSteps.
  destruct (Z.ltb_spec (task_step t + 1) 10) as [Hstep|Hstep].
  { left. split; [done|].
    by rewrite (simulateStationTransfer_step_effect _ _ _ s Hs). }
  right.
  destruct (Z.eqb_spec (task_i t) (Z.of_nat (length (task_stations t)) - 2))
    as [Hlast|Hmore].
  - left. split; [done|]. split; [done|].
    rewrite (assign_lookup _ _ _ s Hs).
    erewrite assign_lookup by (cbn [objects]; by eapply insert_lookup_same).
    cbn [objects activeTransfers transferQueue timers].
    rewrite list_insert_insert_eq.
    match goal with
    | |- executeTransfer_loop ?r ?l ?st ?i ?m0 = _ =>
        destruct (executeTransfer_loop_effect r l st i m0
                    (TransferStatus.set_progress 100
                       (TransferStatus.set_status completed s)))
          as [[Hlt _]|[_ ->]]
    end.
    + cbn [objects]. by eapply insert_lookup_same.
    + lia.
    + done.
  - right.
    destruct (executeTransfer_loop_effect (task_request t) (task_status t)
                (task_stations t) (task_i t + 1) m s Hs) as [[Hlt ->]|[Hge ->]].
    + left. done.
    + right. done.
Qed.

(** * Progress values *)

Lemma progress_inv_accepted (request : TransferRequest.t)
    (m : SecureTransferManager) :
  manager_inv m -> progress_inv m ->
  progress_inv (processTransferQueue (enqueueTransfer request m)).
Proof.
  intros Hm [Ht Ho]. rewrite processTransferQueue_accepted by apply Hm.
  split; cbn [objects timers].
  - intros t [Hin|Hin]%elem_of_app; [by apply Ht|].
    unfold accepted_timers in Hin. destruct (String.eqb _ _).
    + by apply elem_of_nil in Hin.
    + apply list_elem_of_singleton in Hin. subst t. cbn. lia.
  - intros l s [Hs|[_ Hs]]%lookup_app_Some; [by eapply Ho|].
    destruct (l - length (objects m))%nat; [|by destruct n].
    cbn in Hs. injection Hs as <-. unfold accepted_status.
    destruct (String.eqb _ _); cbn; [exists 0 | exists 1]; lia.
Qed.

Lemma progress_inv_timer_fires (k : nat) (m : SecureTransferManager) :
  manager_inv m -> progress_inv m -> progress_inv (timer_fires k m).
Proof.
  intros Hm [Ht Ho]. unfold timer_fires.
  destruct (timers m !! k) as [t|] eqn:Hk; [|done].
  assert (Hin : t ∈ timers m) by (by eapply list_elem_of_lookup_2).
  destruct (inv_tasks _ Hm t Hin) as (s & Hs & _).
  pose proof (Ht t Hin) as Hstep.
  assert (Hrest : forall u, u ∈ delete k (timers m) -> 0 <= task_step u <= 9)
    by (intros u Hu; apply Ht; by eapply list_elem_of_delete_inv).
  assert (Hobj : forall s' p, 0 <= p <= 10 ->
            TransferStatus.progress s' = 10 * p ->
            forall l x, <[task_status t := s']> (objects m) !! l = Some x ->
              exists q, 0 <= q <= 10 /\ TransferStatus.progress x = 10 * q).
  { intros s' p Hp Hs' l x [(_ & Hx & _)|[_ Hx]]%list_lookup_insert_Some;
      [subst x; eauto | by eapply Ho]. }
  set (m0 := mkManager _ _ _ (delete k (timers m))).
  destruct (resume_cases t m0 s Hs)
    as [[Hlt ->]|[(Hge & Hi & ->)|[(Hge & Hi & ->)|(Hge & Hi & Hj & ->)]]];
    split; cbn [objects timers]; try done.
  - intros u [Hu|Hu%list_elem_of_singleton]%elem_of_app; [by apply Hrest|].
    subst u. cbn. lia.
  - apply (Hobj _ (task_step t + 2)); [lia|]. cbn. lia.
  - apply (Hobj _ 10); [lia | done].
  - intros u [Hu|Hu%list_elem_of_singleton]%elem_of_app; [by apply Hrest|].
    subst u. cbn. lia.
  - apply (Hobj _ 1); [lia | done].
Qed.

Section ProgressFacts.

Variable random : nat -> Q.

Lemma progress_inv_run (es : list Event) :
  forall s, manager_inv (manager s) -> progress_inv (manager s) ->
            progress_inv (manager (run random s es)).
Proof.
  induction es as [|e es IH]; intros s Hm Hp; [done|].
  cbn. apply IH; [by apply manager_inv_step|].
  destruct e as [request|transferId|k|now]; cbn [step manager].
  - unfold initiateTransfer.
    destruct (negb (validateTransferRequest request)); [done|].
    destruct (_ || _); [done|]. by apply progress_inv_accepted.
  - by rewrite manager_inv_cancelTransfer.
  - by apply progress_inv_timer_fires.
  - by destruct (updateHealthData random now (healthData s) (randomCalls s)).
Qed.

End ProgressFacts.

(** X3. In every state the system can reach, the progress of every transfer
    is one of 0, 10, 20, ..., 100: it is never negative, never above 100 and
    never between two steps. *)
Theorem progress_is_a_step_of_ten
    (random : nat -> Q) (now : Z) (es : list Event) :
  let m := manager (run random (start random now) es) in
  Forall (fun s => exists k, 0 <= k <= 10 /\ TransferStatus.progress s = 10 * k)
    (objects m)
  /\ (forall transferId s, getTransferStatus transferId m = Some s ->
        exists k, 0 <= k <= 10 /\ TransferStatus.progress s = 10 * k).
Proof.
  intros m.
  assert (Hp : progress_inv m).
  { apply progress_inv_run; [apply manager_inv_start|].
    unfold start. destruct (initializeHealthMonitoring random now 0%nat).
    split; cbn; [intros t Ht; by apply elem_of_nil in Ht | done]. }
  destruct Hp as [_ Ho]. split.
  - apply Forall_lookup. intros l s Hs. by eapply Ho.
  - intros transferId s (l & _ & Hs)%getTransferStatus_Some. by eapply Ho.
Qed.

Lemma progress_is_a_step_of_ten_witness :
  exists k, 0 <= k <= 10
            /\ TransferStatus.progress
                 (TransferStatus.mk "t1" processing 40 "chennai" "bangalore"
                    5 None) = 10 * k.
Proof.
  refine (proj2 (progress_is_a_step_of_ten random_half 0
                   (Initiate request_t1 :: repeat (Timeout 0) 3)) "t1" _ _).
  vm_compute. reflexivity.
Defined.

(** * A transfer running alone *)

Lemma solo_fire (t : Task) (s : TransferStatus.t) (m : SecureTransferManager) :
  solo t s m ->
  (firings_left t = 1
   /\ timer_fires 0 m
      = mkManager
          (<[task_status t :=
               TransferStatus.set_progress 100
                 (TransferStatus.set_status completed s)]> (objects m))
          (activeTransfers m) (transferQueue m) [])
  \/ (1 < firings_left t
      /\ exists t' s',
           solo t' s' (timer_fires 0 m)
           /\ task_status t' = task_status t
           /\ task_request t' = task_request t
           /\ task_stations t' = task_stations t
           /\ firings_left t' = firings_left t - 1
           /\ TransferStatus.status s' = TransferStatus.status s
           /\ TransferStatus.error s' = TransferStatus.error s
           /\ objects (timer_fires 0 m) = <[task_status t := s']> (objects m)
           /\ activeTransfers (timer_fires 0 m) = activeTransfers m
           /\ transferQueue (timer_fires 0 m) = transferQueue m).
Proof.
  intros [Htim Hobj Hfiled Hid Hstep Hhop Hcur Hnext].
  unfold timer_fires, firings_left. rewrite Htim. cbn [lookup list_lookup delete].
  set (m0 := mkManager (objects m) (activeTransfers m) (transferQueue m) _).
  assert (Hmap : <[TransferRequest.id (task_request t) := task_status t]>
                   (activeTransfers m) = activeTransfers m)
    by (by apply insert_id).
  destruct (resume_cases t m0 s Hobj)
    as [[Hlt ->]|[(Hge & Hi & ->)|[(Hge & Hi & ->)|(Hge & Hi & Hj & _)]]];
    cbn [objects activeTransfers transferQueue timers m0 app];
    rewrite ?Hid, ?Hmap.
  - right. split; [lia|].
    exists (mkTask (task_request t) (task_status t) (task_stations t)
              (task_i t) (task_step t + 1)),
           (TransferStatus.set_progress
              (Z.min 100 ((task_step t + 1 + 1) * 10)) s).
    split; [|repeat split; cbn; lia].
    split; cbn [objects activeTransfers transferQueue timers task_status
                task_request task_stations task_i task_step]; try done.
    + by eapply insert_lookup_same.
    + lia.
  - left. split; [lia | done].
  - right. split; [lia|].
    exists (mkTask (task_request t) (task_status t) (task_stations t)
              (task_i t + 1) 0),
           (TransferStatus.set_progress 10
              (TransferStatus.set_nextStation
                 (nth (Z.to_nat (task_i t + 1 + 1)) (task_stations t) "")
                 (TransferStatus.set_currentStation
                    (nth (Z.to_nat (task_i t + 1)) (task_stations t) "") s))).
    split; [|repeat split; cbn; lia].
    split; cbn [objects activeTransfers transferQueue timers task_status
                task_request task_stations task_i task_step]; try done.
    + by eapply insert_lookup_same.
    + lia.
  - lia.
Qed.

Lemma fire_oldest_succ (n : nat) (m : SecureTransferManager) :
  fire_oldest (S n) m = fire_oldest n (timer_fires 0 m).
Proof. apply Nat.iter_succ_r. Qed.

Lemma solo_runs_to_completion (n : nat) :
  forall t s m,
    solo t s m -> firings_left t = Z.of_nat (S n) ->
    let m' := fire_oldest (S n) m in
    timers m' = []
    /\ transferQueue m' = transferQueue m
    /\ activeTransfers m' = activeTransfers m
    /\ (exists s',
           objects m' = <[task_status t := s']> (objects m)
           /\ TransferStatus.status s' = completed
           /\ TransferStatus.progress s' = 100
           /\ TransferStatus.error s' = TransferStatus.error s
           /\ TransferStatus.requestId s' = TransferStatus.requestId s
           /\ TransferStatus.currentStation s'
              = nth (Z.to_nat (Z.of_nat (length (task_stations t)) - 2))
                  (task_stations t) ""
           /\ TransferStatus.nextStation s'
              = nth (Z.to_nat (Z.of_nat (length (task_stations t)) - 2 + 1))
                  (task_stations t) "")
    /\ (forall k, (k <= n)%nat ->
          exists x,
            objects (fire_oldest k m) !! task_status t = Some x
            /\ TransferStatus.status x = TransferStatus.status s
            /\ TransferStatus.error x = TransferStatus.error s
            /\ timers (fire_oldest k m) <> []
            /\ activeTransfers (fire_oldest k m) = activeTransfers m).
Proof.
  induction n as [|n IH]; intros t s m Hsolo Hleft m'.
  - destruct (solo_fire t s m Hsolo) as [[_ Hfire]|[Hgt _]]; [|lia].
    assert (Hlast : task_step t = 9
                    /\ task_i t = Z.of_nat (length (task_stations t)) - 2).
    { pose proof (solo_step _ _ _ Hsolo). pose proof (solo_hop _ _ _ Hsolo).
      unfold firings_left in Hleft. lia. }
    destruct Hlast as [_ Hi].
    unfold m'. change (fire_oldest 1 m) with (timer_fires 0 m). rewrite Hfire.
    cbn [objects activeTransfers transferQueue timers].
    do 3 (split; [done|]). split.
    + eexists. split; [reflexivity|]. cbn.
      rewrite (solo_current _ _ _ Hsolo), (solo_next _ _ _ Hsolo), Hi. done.
    + intros k Hk. assert (k = 0)%nat as -> by lia. exists s. cbn.
      split; [apply Hsolo|]. do 2 (split; [done|]).
      split; [|done]. by rewrite (solo_timers _ _ _ Hsolo).
  - destruct (solo_fire t s m Hsolo)
      as [[Hone _]|(_ & t' & s' & Hsolo' & Hl & Hr & Hst & Hleft' & Hstatus
                     & Herr & Hobjs & Hmap & Hq)]; [lia|].
    destruct (IH t' s' (timer_fires 0 m) Hsolo') as (Ht & Hq' & Hmap' & Hfin & Hmid);
      [lia|].
    unfold m'. rewrite fire_oldest_succ.
    split; [done|]. split; [congruence|]. split; [congruence|]. split.
    + destruct Hfin as (x & Hx & ? & ? & ? & ? & ? & ?).
      exists x. rewrite Hx, Hobjs, Hl, list_insert_insert_eq, Hst in *.
      split; [done|]. pose proof (solo_id _ _ _ Hsolo).
      pose proof (solo_id _ _ _ Hsolo'). repeat split; congruence.
    + intros [|k] Hk.
      * exists s. cbn. split; [apply Hsolo|]. do 2 (split; [done|]).
        split; [|done]. by rewrite (solo_timers _ _ _ Hsolo).
      * rewrite fire_oldest_succ.
        destruct (Hmid k) as (x & Hx & ? & ? & ? & ?); [lia|].
        exists x. rewrite <- Hl. repeat split; congruence.
Qed.

Section Timeouts.

Variable random : nat -> Q.

Lemma run_timeouts (n : nat) :
  forall s,
    manager (run random s (repeat (Timeout 0) n)) = fire_oldest n (manager s)
    /\ healthData (run random s (repeat (Timeout 0) n)) = healthData s.
Proof.
  induction n as [|n IH]; intros s; [done|].
  change (run random s (repeat (Timeout 0) (S n)))
    with (run random (step random s (Timeout 0)) (repeat (Timeout 0) n)).
  destruct (IH (step random s (Timeout 0))) as [-> ->].
  by rewrite fire_oldest_succ.
Qed.

End Timeouts.

Lemma getTransferRoute_ends (src dst : string) :
  src <> dst ->
  let route := getTransferRoute src dst in
  (2 <= length route)%nat
  /\ nth (Z.to_nat (Z.of_nat (length route) - 2 + 1)) route "" = dst
  /\ nth (Z.to_nat (Z.of_nat (length route) - 2)) route ""
     = (if String.eqb src "bangalore" || String.eqb dst "bangalore"
        then src else "bangalore").
Proof.
  intros Hne. cbv zeta. unfold getTransferRoute.
  rewrite (proj2 (String.eqb_neq src dst) Hne).
  destruct (_ || _); cbn; (split; [lia|]); split; reflexivity.
Qed.

Lemma solo_accepted (request : TransferRequest.t) (m : SecureTransferManager) :
  manager_inv m -> timers m = [] ->
  TransferRequest.fromStation request <> TransferRequest.toStation request ->
  solo (mkTask request (length (objects m))
          (getTransferRoute (TransferRequest.fromStation request)
             (TransferRequest.toStation request)) 0 0)
    (accepted_status request)
    (processTransferQueue (enqueueTransfer request m)).
Proof.
  intros Hm Htim Hne.
  rewrite processTransferQueue_accepted by apply Hm.
  pose proof (getTransferRoute_ends _ _ Hne) as (Hlen & _ & _).
  unfold accepted_timers, accepted_status.
  rewrite (proj2 (String.eqb_neq _ _) Hne), Htim.
  split; cbn [objects activeTransfers transferQueue timers task_status
              task_request task_stations task_i task_step app]; try done.
  - rewrite lookup_app_r by lia. by rewrite Nat.sub_diag.
  - by rewrite lookup_insert_eq.
  - lia.
Qed.

(** X4. A transfer between two different stations that is accepted while no
    other transfer is running completes after exactly ten timer firings per
    hop (one hop when an endpoint is "bangalore", two otherwise): until then
    its status is [processing], and at that firing it is [completed] with
    progress 100, no error, the destination as next station and the start of
    the last hop as current station, and no timer is left. *)
Theorem transfer_runs_to_completion
    (random : nat -> Q) (now : Z) (es : list Event)
    (request : TransferRequest.t) :
  let s := run random (start random now) es in
  timers (manager s) = [] ->
  validateTransferRequest request = true ->
  isStationHealthy (healthData s) (TransferRequest.fromStation request) = true ->
  isStationHealthy (healthData s) (TransferRequest.toStation request) = true ->
  TransferRequest.fromStation request <> TransferRequest.toStation request ->
  let via_hub :=
    String.eqb (TransferRequest.fromStation request) "bangalore"
    || String.eqb (TransferRequest.toStation request) "bangalore" in
  let hops := if via_hub then 1%nat else 2%nat in
  let after (k : nat) :=
    manager (run random (step random s (Initiate request))
               (repeat (Timeout 0) k)) in
  (forall k, (k < 10 * hops)%nat ->
     (TransferStatus.status
        <$> getTransferStatus (TransferRequest.id request) (after k))
     = Some processing)
  /\ exists x,
       getTransferStatus (TransferRequest.id request) (after (10 * hops)%nat)
       = Some x
       /\ TransferStatus.status x = completed
       /\ TransferStatus.progress x = 100
       /\ TransferStatus.error x = None
       /\ TransferStatus.currentStation x
          = (if via_hub then TransferRequest.fromStation request
             else "bangalore")
       /\ TransferStatus.nextStation x = TransferRequest.toStation request
       /\ timers (after (10 * hops)%nat) = [].
Proof.
  intros s Htim Hv Hf Ht Hne via_hub hops after.
  pose proof (manager_inv_run random es _ (manager_inv_start random now)) as Hm.
  fold s in Hm.
  pose proof (solo_accepted request (manager s) Hm Htim Hne) as Hsolo.
  set (route := getTransferRoute _ _) in Hsolo.
  set (t := mkTask _ _ _ _ _) in Hsolo.
  assert (Hafter : forall k,
            after k = fire_oldest k
                        (processTransferQueue (enqueueTransfer request (manager s)))).
  { intros k. unfold after. rewrite (proj1 (run_timeouts random k _)).
    cbn [step manager]. by rewrite initiateTransfer_accepted. }
  assert (Hroute : length route = S hops).
  { unfold route, getTransferRoute, hops, via_hub.
    rewrite (proj2 (String.eqb_neq _ _) Hne). by destruct (_ || _). }
  pose proof (getTransferRoute_ends _ _ Hne) as (_ & Hlast & Hprev).
  fold route via_hub in Hlast, Hprev.
  assert (Hleft : firings_left t = Z.of_nat (S (10 * hops - 1))).
  { unfold firings_left, t. cbn [task_step task_i task_stations].
    rewrite Hroute. unfold hops. destruct via_hub; cbn; lia. }
  destruct (solo_runs_to_completion _ t _ _ Hsolo Hleft)
    as (Hnone & _ & Hmap & (x & Hobjs & Hst & Hpr & Herr & Hid & Hcur & Hnext)
        & Hmid).
  assert (Hten : S (10 * hops - 1) = (10 * hops)%nat)
    by (unfold hops; destruct via_hub; lia).
  rewrite Hten in *.
  assert (Hkey : activeTransfers
                   (processTransferQueue (enqueueTransfer request (manager s)))
                 !! TransferRequest.id request = Some (task_status t))
    by apply Hsolo.
  split.
  - intros k Hk. destruct (Hmid k) as (y & Hy & Hsty & _ & _ & Hmapk); [lia|].
    rewrite Hafter.
    assert (Hg : getTransferStatus (TransferRequest.id request)
                   (fire_oldest k (processTransferQueue
                                     (enqueueTransfer request (manager s))))
                 = Some y).
    { apply getTransferStatus_Some. exists (task_status t).
      split; [by rewrite Hmapk | done]. }
    rewrite Hg. cbn. rewrite Hsty. f_equal. apply accepted_status_processing.
  - exists x. rewrite Hafter.
    split.
    { apply getTransferStatus_Some. exists (task_status t).
      split; [by rewrite Hmap|]. rewrite Hobjs.
      eapply insert_lookup_same. apply Hsolo. }
    do 2 (split; [done|]).
    split.
    { rewrite Herr. unfold accepted_status.
      by rewrite (proj2 (String.eqb_neq _ _) Hne). }
    split; [rewrite Hcur; exact Hprev|].
    split; [rewrite Hnext; exact Hlast | done].
Qed.

Lemma transfer_runs_to_completion_witness :
  exists x,
    getTransferStatus "t1"
      (manager (run random_half
                  (step random_half (start random_half 0) (Initiate request_t1))
                  (repeat (Timeout 0) 20)))
    = Some x
    /\ TransferStatus.status x = completed
    /\ TransferStatus.progress x = 100.
Proof.
  pose proof (transfer_runs_to_completion random_half 0 [] request_t1) as H.
  cbv zeta in H.
  assert (Hf : isStationHealthy (healthData (run random_half
                 (start random_half 0) [])) "chennai" = true)
    by (vm_compute; reflexivity).
  assert (Ht : isStationHealthy (healthData (run random_half
                 (start random_half 0) [])) "delhi" = true)
    by (vm_compute; reflexivity).
  assert (Hne : "chennai" <> "delhi") by discriminate.
  destruct (H eq_refl eq_refl Hf Ht Hne) as (_ & x & Hx & Hst & Hpr & _).
  exists x. split; [exact Hx | split; [exact Hst | exact Hpr]].
Defined.

(** * Stopping from the hook *)

Lemma solo_after_stop (t : Task) (s : TransferStatus.t)
    (m : SecureTransferManager) :
  solo t s m ->
  solo t
    (TransferStatus.set_error (Some "Transfer stopped by user")
       (TransferStatus.set_status failed s))
    (mkManager
       (<[task_status t :=
            TransferStatus.set_error (Some "Transfer stopped by user")
              (TransferStatus.set_status failed s)]> (objects m))
       (activeTransfers m) (transferQueue m) (timers m)).
Proof.
  intros [Htim Hobj Hfiled Hid Hstep Hhop Hcur Hnext].
  split; cbn [objects activeTransfers transferQueue timers]; try done.
  by eapply insert_lookup_same.
Qed.

(** X5. [stopTransfer] of the hook, on a [processing] transfer that runs
    alone, returns [true], clears the hook's flags and marks the status
    [failed] with the text "Transfer stopped by user"; it leaves the
    transfer's timer in place.  So the transfer goes on, and when its
    remaining timers have fired its status is [completed] with progress 100,
    still carrying the error text of the stop. *)
Theorem stopTransfer_does_not_stop_the_transfer
    (t : Task) (s : TransferStatus.t) (m : SecureTransferManager)
    (h : HookState) :
  solo t s m ->
  TransferStatus.status s = processing ->
  find (holds_id m (TransferRequest.id (task_request t)))
    (hook_activeTransfers h) = Some (task_status t) ->
  let transferId := TransferRequest.id (task_request t) in
  let stopped := stopTransfer transferId h m in
  stopped.2 = true
  /\ isTransferring stopped.1.1 = false
  /\ transferProgress stopped.1.1 = 0
  /\ timers stopped.1.2 = timers m
  /\ (exists x, getTransferStatus transferId stopped.1.2 = Some x
                /\ TransferStatus.status x = failed
                /\ TransferStatus.error x = Some "Transfer stopped by user")
  /\ (exists x,
         getTransferStatus transferId
           (fire_oldest (Z.to_nat (firings_left t)) stopped.1.2) = Some x
         /\ TransferStatus.status x = completed
         /\ TransferStatus.progress x = 100
         /\ TransferStatus.error x = Some "Transfer stopped by user").
Proof.
  intros Hsolo Hproc Hfind transferId stopped.
  pose proof (solo_after_stop t s m Hsolo) as Hsolo'.
  set (s1 := TransferStatus.set_error _ _) in Hsolo'.
  set (m1 := mkManager _ _ _ _) in Hsolo'.
  assert (Hstop : stopped = (mkHookState (hook_activeTransfers h) 0 false, m1, true)).
  { unfold stopped, stopTransfer, transferId. rewrite Hfind.
    rewrite (solo_object _ _ _ Hsolo), decide_True by done.
    unfold assign. cbn [objects activeTransfers transferQueue timers].
    by rewrite (alter_alter_insert _ _ _ _ s) by apply Hsolo. }
  rewrite Hstop. cbn [fst snd isTransferring transferProgress].
  do 3 (split; [done|]). split; [done|]. split.
  { exists s1. split; [|done]. apply getTransferStatus_Some.
    exists (task_status t). split; apply Hsolo'. }
  pose proof (solo_step _ _ _ Hsolo) as Hstep.
  pose proof (solo_hop _ _ _ Hsolo) as Hhop.
  assert (Hleft : firings_left t
                  = Z.of_nat (S (Z.to_nat (firings_left t) - 1)))
    by (unfold firings_left in *; lia).
  destruct (solo_runs_to_completion _ t s1 m1 Hsolo' Hleft)
    as (_ & _ & Hmap & (x & Hobjs & Hst & Hpr & Herr & _) & _).
  assert (Hn : S (Z.to_nat (firings_left t) - 1) = Z.to_nat (firings_left t))
    by (unfold firings_left in *; lia).
  rewrite Hn in *.
  exists x. split; [|done].
  apply getTransferStatus_Some. exists (task_status t).
  split; [rewrite Hmap; apply Hsolo'|].
  rewrite Hobjs. eapply insert_lookup_same. apply Hsolo'.
Qed.

Lemma stopTransfer_does_not_stop_the_transfer_witness :
  exists x,
    getTransferStatus "t1"
      (fire_oldest 15
         (stopTransfer "t1" (mkHookState [0%nat] 60 true) (run_t1 5)).1.2)
    = Some x
    /\ TransferStatus.status x = completed
    /\ TransferStatus.progress x = 100
    /\ TransferStatus.error x = Some "Transfer stopped by user".
Proof.
  pose proof (stopTransfer_does_not_stop_the_transfer
                (mkTask request_t1 0 ["chennai"; "bangalore"; "delhi"] 0 5)
                (TransferStatus.mk "t1" processing 60 "chennai" "bangalore"
                   5 None)
                (run_t1 5) (mkHookState [0%nat] 60 true)) as H.
  cbv zeta in H.
  assert (Hsolo : solo
            (mkTask request_t1 0 ["chennai"; "bangalore"; "delhi"] 0 5)
            (TransferStatus.mk "t1" processing 60 "chennai" "bangalore" 5 None)
            (run_t1 5)).
  { split; cbn [task_status task_request task_stations task_i task_step];
      try (vm_compute; reflexivity); cbn; lia. }
  assert (Hfind : find (holds_id (run_t1 5) "t1") [0%nat] = Some 0%nat)
    by (vm_compute; reflexivity).
  destruct (H Hsolo eq_refl Hfind) as (_ & _ & _ & _ & _ & Hend).
  exact Hend.
Defined.

(** * The shape of the health data *)

Lemma ISRO_SUBNET_CONFIG_entries : Forall registry_entry ISRO_SUBNET_CONFIG.
Proof. repeat constructor; cbn; tauto. Qed.

Lemma insert_health_shape (h : gmap string SubnetHealth.t) (k : string)
    (x : SubnetHealth.t) :
  health_shape h -> In k station_ids ->
  SubnetHealth.stationId x = k -> SubnetHealth.validatorCount x = 4 ->
  health_shape (<[k := x]> h).
Proof.
  intros Hh Hk Hid Hv stationId y. rewrite lookup_insert.
  destruct (decide (k = stationId)) as [<-|Hne]; [by intros [= <-] | apply Hh].
Qed.

Section ShapeFacts.

Variable random : nat -> Q.

Lemma checkStationHealth_fields (now : Z) (h : gmap string SubnetHealth.t)
    (stationId : string) (config : ISROSubnetConfig.t) (n : nat) :
  exists base u b c l d,
    (h !! stationId = Some base
     \/ h !! stationId = None
        /\ SubnetHealth.stationId base = stationId
        /\ SubnetHealth.validatorCount base
           = Z.of_nat (length (ISROSubnetConfig.validators config)))
    /\ (checkStationHealth random now h stationId config n).1
       = SubnetHealth.mk (SubnetHealth.stationId base)
           (clamp (97 # 100) 1
              (SubnetHealth.uptime base
               + (random u - (1 # 2)) * (1 # 100))%Q)
           (SubnetHealth.lastBlock base + Qfloor (random b * 100)%Q)
           (SubnetHealth.validatorCount base)
           (clamp (97 # 100) 1
              (SubnetHealth.consensusRate base
               + (random c - (1 # 2)) * (2 # 100))%Q)
           (clamp 30 150
              (SubnetHealth.networkLatency base
               + (random l - (1 # 2)) * 20)%Q)
           (clamp 200 2000
              (SubnetHealth.dataThroughput base
               + (random d - (1 # 2)) * 100)%Q).
Proof.
  unfold checkStationHealth, mbind, Rand_bind, mret, Rand_ret, Math_random.
  destruct (h !! stationId) as [base|].
  - exists base, n, (S n), (S (S n)), (S (S (S n))), (S (S (S (S n)))).
    split; [by left | reflexivity].
  - exists (healthy_defaults stationId config now
              (random n * 100 + 50)%Q (random (S n) * 1000 + 500)%Q),
           (S (S n)), (S (S (S n))), (S (S (S (S n)))),
           (S (S (S (S (S n))))), (S (S (S (S (S (S n)))))).
    split; [right; done | reflexivity].
Qed.

Lemma checkStationHealth_shape (now : Z) (h : gmap string SubnetHealth.t)
    (stationId : string) (config : ISROSubnetConfig.t) (n : nat) :
  health_shape h -> registry_entry (stationId, config) ->
  SubnetHealth.stationId (checkStationHealth random now h stationId config n).1
  = stationId
  /\ SubnetHealth.validatorCount
       (checkStationHealth random now h stationId config n).1 = 4.
Proof.
  intros Hh [_ Hv]. cbn in Hv.
  destruct (checkStationHealth_fields now h stationId config n)
    as (base & u & b & c & l & d & Hbase & ->). cbn.
  destruct Hbase as [Hb|(_ & ? & Hcount)].
  - by destruct (Hh _ _ Hb) as (? & ? & _).
  - split; [done|]. rewrite Hcount, Hv. done.
Qed.

Lemma updateHealthData_loop_shape (now : Z)
    (stations : list (string * ISROSubnetConfig.t)) :
  Forall registry_entry stations ->
  forall (h : gmap string SubnetHealth.t) (n : nat),
    health_shape h ->
    let h' := (updateHealthData_loop random now stations h n).1 in
    health_shape h'
    /\ (forall stationId,
           is_Some (h !! stationId) \/ In stationId (map fst stations) ->
           is_Some (h' !! stationId)).
Proof.
  induction 1 as [|[k config] rest Hentry _ IH]; intros h n Hh.
  - cbn. split; [done|]. by intros stationId [?|[]].
  - cbn [updateHealthData_loop]. unfold mbind, Rand_bind.
    destruct (checkStationHealth_shape now h k config n Hh Hentry) as [Hid Hv].
    destruct (checkStationHealth random now h k config n) as [x n'].
    cbn [fst] in Hid, Hv.
    destruct (IH (<[k := x]> h) n') as [Hs Hd].
    { apply insert_health_shape; [done | apply Hentry | done | done]. }
    split; [done|].
    intros stationId Hin. apply Hd. rewrite lookup_insert_is_Some.
    destruct (decide (k = stationId)) as [->|Hne]; [left; by left|].
    destruct Hin as [?|[?|?]]; [left; by right | done | by right].
Qed.

Lemma initializeHealthMonitoring_loop_shape (now : Z)
    (stations : list (string * ISROSubnetConfig.t)) :
  Forall registry_entry stations ->
  forall (h : gmap string SubnetHealth.t) (n : nat),
    health_shape h ->
    let h' := (initializeHealthMonitoring_loop random now stations h n).1 in
    health_shape h'
    /\ (forall stationId,
           is_Some (h !! stationId) \/ In stationId (map fst stations) ->
           is_Some (h' !! stationId)).
Proof.
  induction 1 as [|[k config] rest Hentry _ IH]; intros h n Hh.
  - cbn. split; [done|]. by intros stationId [?|[]].
  - cbn [initializeHealthMonitoring_loop].
    unfold mbind, Rand_bind, Math_random.
    match goal with
    | |- context [<[k := ?x]> h] =>
        destruct (IH (<[k := x]> h) (S (S n))) as [Hs Hd]
    end.
    { destruct Hentry as [Hk Hv]. cbn in Hk, Hv.
      apply insert_health_shape; [done | done | done |].
      unfold healthy_defaults. cbn. by rewrite Hv. }
    split; [done|].
    intros stationId Hin. apply Hd. rewrite lookup_insert_is_Some.
    destruct (decide (k = stationId)) as [->|Hne]; [left; by left|].
    destruct Hin as [?|[?|?]]; [left; by right | done | by right].
Qed.

Lemma health_shape_run (now : Z) (es : list Event) :
  let h := healthData (run random (start random now) es) in
  health_shape h
  /\ (forall stationId, In stationId station_ids -> is_Some (h !! stationId)).
Proof.
  cbv zeta.
  assert (Hstart :
    health_shape (healthData (start random now))
    /\ (forall stationId, In stationId station_ids ->
          is_Some (healthData (start random now) !! stationId))).
  { unfold start, initializeHealthMonitoring.
    destruct (initializeHealthMonitoring_loop_shape now ISRO_SUBNET_CONFIG
                ISRO_SUBNET_CONFIG_entries ∅ 0%nat) as [Hs Hd]; [done|].
    destruct (initializeHealthMonitoring_loop random now ISRO_SUBNET_CONFIG
                ∅ 0%nat) as [h n].
    split; [done|]. intros stationId Hin. apply Hd. by right. }
  revert Hstart. generalize (start random now).
  induction es as [|e es IH]; intros s Hs; [done|].
  cbn. apply IH. destruct Hs as [Hshape Hdom].
  destruct e as [request|transferId|k|now']; try done.
  cbn [step]. unfold updateHealthData.
  destruct (updateHealthData_loop_shape now' ISRO_SUBNET_CONFIG
              ISRO_SUBNET_CONFIG_entries (healthData s) (randomCalls s) Hshape)
    as [Hs' Hd'].
  destruct (updateHealthData_loop random now' ISRO_SUBNET_CONFIG (healthData s)
              (randomCalls s)) as [h n].
  split; [done|]. intros stationId Hin. apply Hd'. left. by apply Hdom.
Qed.

End ShapeFacts.

(** X6. At every moment the health monitor has a snapshot for exactly the
    stations of the registry: every station has one, no other id has, and
    each snapshot names its own station and counts the registry's four
    validators. *)
Theorem health_data_matches_registry
    (random : nat -> Q) (now : Z) (es : list Event) (stationId : string) :
  let h := healthData (run random (start random now) es) in
  (is_Some (getStationHealth h stationId) <-> In stationId station_ids)
  /\ Forall (fun x => SubnetHealth.stationId x.2 = x.1
                      /\ SubnetHealth.validatorCount x.2 = 4)
       (map_to_list h).
Proof.
  intros h. destruct (health_shape_run random now es) as [Hshape Hdom].
  fold h in Hshape, Hdom. split.
  - split; [|apply Hdom]. intros [x Hx]. by apply Hshape in Hx as (_ & _ & ?).
  - apply Forall_forall. intros [k x] Hin%elem_of_map_to_list.
    by apply Hshape in Hin as (? & ? & _).
Qed.

Lemma isStationHealthy_unknown (h : gmap string SubnetHealth.t)
    (stationId : string) :
  h !! stationId = None -> isStationHealthy h stationId = false.
Proof. intros Hnone. unfold isStationHealthy. by rewrite Hnone. Qed.

(** X7. A submission that names a station outside the registry is always
    turned down and changes nothing, even when the name passes validation
    (as "toString" does, being a name every object inherits): the monitor
    has no snapshot for it, and an id without snapshot counts as
    unhealthy. *)
Theorem unregistered_station_is_rejected
    (random : nat -> Q) (now : Z) (es : list Event)
    (request : TransferRequest.t) :
  let s := run random (start random now) es in
  ~ In (TransferRequest.fromStation request) station_ids
  \/ ~ In (TransferRequest.toStation request) station_ids ->
  (isStationHealthy (healthData s) (TransferRequest.fromStation request) = false
   \/ isStationHealthy (healthData s) (TransferRequest.toStation request) = false)
  /\ (exists msg,
         initiateTransfer (healthData s) request (manager s)
         = (manager s, Rejected msg))
  /\ validateTransferRequest
       (TransferRequest.mk "t3" "toString" "bangalore" 1 low AES_256 0 "")
     = true.
Proof.
  intros s Hout.
  destruct (health_shape_run random now es) as [Hshape _]. fold s in Hshape.
  assert (Hun : isStationHealthy (healthData s)
                  (TransferRequest.fromStation request) = false
                \/ isStationHealthy (healthData s)
                     (TransferRequest.toStation request) = false).
  { destruct Hout as [Hf|Ht]; [left|right]; apply isStationHealthy_unknown.
    - destruct (healthData s !! _) as [x|] eqn:Hx; [|done].
      by apply Hshape in Hx as (_ & _ & ?).
    - destruct (healthData s !! _) as [x|] eqn:Hx; [|done].
      by apply Hshape in Hx as (_ & _ & ?). }
  split; [done|]. split; [|reflexivity].
  unfold initiateTransfer.
  destruct (validateTransferRequest request); cbn; [|by eexists].
  destruct Hun as [-> | ->]; cbn; rewrite ?orb_true_r; by eexists.
Qed.

Lemma unregistered_station_is_rejected_witness :
  exists msg,
    initiateTransfer (healthData (run random_half (start random_half 0) []))
      (TransferRequest.mk "t3" "toString" "bangalore" 1 low AES_256 0 "")
      (manager (run random_half (start random_half 0) []))
    = (manager (run random_half (start random_half 0) []), Rejected msg).
Proof.
  refine (proj1 (proj2 (unregistered_station_is_rejected random_half 0 []
           (TransferRequest.mk "t3" "toString" "bangalore" 1 low AES_256 0 "")
           _))).
  left. cbn. intros H. repeat destruct H as [H|H]; discriminate || done.
Defined.

(** * When a station counts as healthy *)

(** X8. For a station of the registry the uptime and consensus tests of
    [isStationHealthy] always pass, the clamp keeping both at 0.97 or more:
    the station is healthy exactly when its latency is below 150. *)
Theorem healthy_iff_latency_below_150
    (random : nat -> Q) (now : Z) (es : list Event) (stationId : string) :
  (forall n, (0 <= random n < 1)%Q) ->
  In stationId station_ids ->
  let h := healthData (run random (start random now) es) in
  exists x,
    getStationHealth h stationId = Some x
    /\ (isStationHealthy h stationId = true
        <-> (SubnetHealth.networkLatency x < 150)%Q).
Proof.
  intros Hrange Hin h.
  destruct (health_inv_run random es (start random now)
              (health_inv_start random Hrange now)) as [Hr Hd].
  destruct (Hd stationId Hin) as [x Hx]. exists x. split; [done|].
  destruct (Hr _ _ Hx) as ([Hu _] & [Hc _] & _).
  unfold isStationHealthy, h. rewrite Hx.
  assert (Hu' : Qle_bool (95 # 100) (SubnetHealth.uptime x) = true).
  { apply Qle_bool_iff. eapply Qle_trans; [|exact Hu]. Qclosed. }
  assert (Hc' : Qle_bool (95 # 100) (SubnetHealth.consensusRate x) = true).
  { apply Qle_bool_iff. eapply Qle_trans; [|exact Hc]. Qclosed. }
  rewrite Hu', Hc'. cbn. apply Qlt_bool_iff.
Qed.

Lemma healthy_iff_latency_below_150_witness :
  exists x,
    getStationHealth
      (healthData (run random_half (start random_half 0) [HealthInterval 5000]))
      "delhi" = Some x
    /\ (isStationHealthy
          (healthData (run random_half (start random_half 0)
                         [HealthInterval 5000])) "delhi" = true
        <-> (SubnetHealth.networkLatency x < 150)%Q).
Proof.
  apply (healthy_iff_latency_below_150 random_half 0 [HealthInterval 5000]
           "delhi").
  - intros n. unfold random_half. split; Qclosed.
  - right. right. left. reflexivity.
Defined.

(** * The block counter *)

Lemma Qfloor_nonneg (x : Q) : (0 <= x)%Q -> 0 <= Qfloor x.
Proof. intros Hx. apply (Qfloor_resp_le 0 x Hx). Qed.

Section BlockFacts.

Variable random : nat -> Q.
Hypothesis random_range : forall n, (0 <= random n < 1)%Q.

Lemma updateHealthData_loop_lastBlock (now : Z) (stationId : string) (b : Z)
    (stations : list (string * ISROSubnetConfig.t)) :
  forall (h : gmap string SubnetHealth.t) (n : nat),
    (exists x, h !! stationId = Some x /\ b <= SubnetHealth.lastBlock x) ->
    exists x, (updateHealthData_loop random now stations h n).1 !! stationId
              = Some x
              /\ b <= SubnetHealth.lastBlock x.
Proof.
  induction stations as [|[k config] rest IH]; intros h n Hb; [done|].
  cbn [updateHealthData_loop]. unfold mbind, Rand_bind.
  destruct (checkStationHealth_fields random now h k config n)
    as (base & u & bl & c & l & d & Hbase & Hnew).
  destruct (checkStationHealth random now h k config n) as [y n'].
  cbn [fst] in Hnew. apply IH.
  destruct (decide (k = stationId)) as [->|Hne].
  - destruct Hb as (x & Hx & Hle). rewrite lookup_insert_eq.
    exists y. split; [done|]. subst y. cbn [SubnetHealth.lastBlock].
    destruct Hbase as [Hb|[Hb _]]; [|congruence].
    assert (base = x) as -> by congruence.
    assert (Hfl : 0 <= Qfloor (random bl * 100)%Q).
    { apply Qfloor_nonneg.
      apply Qmult_le_0_compat; [apply random_range | Qclosed]. }
    lia.
  - by rewrite lookup_insert_ne.
Qed.

Lemma lastBlock_run (stationId : string) (b : Z) (es : list Event) :
  forall s,
    (exists x, healthData s !! stationId = Some x
               /\ b <= SubnetHealth.lastBlock x) ->
    exists x, healthData (run random s es) !! stationId = Some x
              /\ b <= SubnetHealth.lastBlock x.
Proof.
  induction es as [|e es IH]; intros s Hb; [done|].
  cbn. apply IH. destruct e as [request|transferId|k|now]; try done.
  cbn [step]. unfold updateHealthData.
  pose proof (updateHealthData_loop_lastBlock now stationId b
                ISRO_SUBNET_CONFIG (healthData s) (randomCalls s) Hb) as H.
  by destruct (updateHealthData_loop random now ISRO_SUBNET_CONFIG
                 (healthData s) (randomCalls s)).
Qed.

End BlockFacts.

(** X9. The [lastBlock] counter of a station never goes down: whatever
    events follow, refreshes among them, the station keeps a snapshot and
    its counter is at least what it was. *)
Theorem lastBlock_never_decreases
    (random : nat -> Q) (s : System) (es : list Event) (stationId : string)
    (x : SubnetHealth.t) :
  (forall n, (0 <= random n < 1)%Q) ->
  getStationHealth (healthData s) stationId = Some x ->
  exists x',
    getStationHealth (healthData (run random s es)) stationId = Some x'
    /\ SubnetHealth.lastBlock x <= SubnetHealth.lastBlock x'.
Proof.
  intros Hrange Hx.
  apply (lastBlock_run random Hrange). exists x. split; [done | lia].
Qed.

Lemma lastBlock_never_decreases_witness :
  exists x',
    getStationHealth
      (healthData (run random_high (start random_high 1000)
                     [HealthInterval 2000; HealthInterval 3000]))
      "chennai" = Some x'
    /\ 1000 <= SubnetHealth.lastBlock x'.
Proof.
  apply (lastBlock_never_decreases random_high (start random_high 1000)
           [HealthInterval 2000; HealthInterval 3000] "chennai"
           (SubnetHealth.mk "chennai" (99 # 100) 1000 4 (98 # 100)
              (50 + (9 # 10) * 50)%Q (500 + (9 # 10) * 500)%Q)).
  - intros n. unfold random_high. split; Qclosed.
  - reflexivity.
Defined.

(** * A latency that only climbs *)

Lemma clamp_latency_climbs (x r : Q) (B : Z) :
  (3 # 4 <= r)%Q -> (inject_Z B <= x)%Q ->
  (inject_Z (Z.min 150 (B + 5)) <= clamp 30 150 (x + (r - (1 # 2)) * 20))%Q.
Proof.
  intros Hr Hx. unfold clamp.
  eapply Qle_trans; [|apply Q.le_max_r].
  apply Q.min_glb.
  - change 150%Q with (inject_Z 150). rewrite <- Zle_Qle. lia.
  - eapply Qle_trans; [rewrite <- Zle_Qle; apply Z.le_min_r|].
    rewrite inject_Z_plus.
    apply Qplus_le_compat; [done|].
    destruct r as [a b]. unfold Qle in *. cbn in *. lia.
Qed.

Section LatencyFacts.

Variable random : nat -> Q.
Hypothesis random_high_range : forall n, (3 # 4 <= random n < 1)%Q.

Lemma updateHealthData_loop_latency (now : Z) (stationId : string)
    (stations : list (string * ISROSubnetConfig.t)) :
  forall (B : Z) (h : gmap string SubnetHealth.t) (n : nat),
    B <= 150 ->
    (exists x, h !! stationId = Some x
               /\ (inject_Z B <= SubnetHealth.networkLatency x)%Q) ->
    let h' := (updateHealthData_loop random now stations h n).1 in
    (exists x, h' !! stationId = Some x
               /\ (inject_Z B <= SubnetHealth.networkLatency x)%Q)
    /\ (In stationId (map fst stations) ->
        exists x, h' !! stationId = Some x
                  /\ (inject_Z (Z.min 150 (B + 5))
                      <= SubnetHealth.networkLatency x)%Q).
Proof.
  induction stations as [|[k config] rest IH]; intros B h n HB Hb.
  { split; [done | intros []]. }
  cbn [updateHealthData_loop]. unfold mbind, Rand_bind.
  destruct (checkStationHealth_fields random now h k config n)
    as (base & u & bl & c & l & d & Hbase & Hnew).
  destruct (checkStationHealth random now h k config n) as [y n'].
  cbn [fst] in Hnew.
  destruct (decide (k = stationId)) as [->|Hne].
  - destruct Hb as (x & Hx & Hle).
    destruct Hbase as [Hb|[Hb _]]; [|congruence].
    assert (base = x) as -> by congruence.
    assert (Hy : exists z, <[stationId := y]> h !! stationId = Some z
                   /\ (inject_Z (Z.min 150 (B + 5))
                       <= SubnetHealth.networkLatency z)%Q).
    { exists y. split; [by rewrite lookup_insert_eq|]. subst y.
      cbn [SubnetHealth.networkLatency].
      apply clamp_latency_climbs; [apply random_high_range | done]. }
    destruct (IH (Z.min 150 (B + 5)) (<[stationId := y]> h) n') as [Hkeep _];
      [lia | done |].
    assert (Hweak : exists z,
              (updateHealthData_loop random now rest (<[stationId := y]> h) n').1
              !! stationId = Some z
              /\ (inject_Z B <= SubnetHealth.networkLatency z)%Q).
    { destruct Hkeep as (z & Hz & Hlez). exists z. split; [done|].
      eapply Qle_trans; [|exact Hlez]. rewrite <- Zle_Qle. lia. }
    split; [done | by intros _].
  - destruct (IH B (<[k := y]> h) n') as [Hkeep Hup];
      [lia | by rewrite lookup_insert_ne |].
    split; [done|]. intros [Hk|Hin]; [done | by apply Hup].
Qed.

Lemma latency_run (es : list Event) :
  forall (s : System) (n : nat),
    (forall stationId, In stationId station_ids ->
       exists x, healthData s !! stationId = Some x
                 /\ (inject_Z (Z.min 150 (30 + 5 * Z.of_nat n))
                     <= SubnetHealth.networkLatency x)%Q) ->
    forall stationId, In stationId station_ids ->
      exists x, healthData (run random s es) !! stationId = Some x
                /\ (inject_Z (Z.min 150 (30 + 5 * Z.of_nat (n + refreshes es)))
                    <= SubnetHealth.networkLatency x)%Q.
Proof.
  induction es as [|e es IH]; intros s n Hs stationId Hin.
  { cbn. rewrite Nat.add_0_r. by apply Hs. }
  destruct e as [request|transferId|k|now];
    try (cbn [refreshes run fold_left]; by apply (IH _ n)).
  cbn [refreshes run fold_left].
  replace (n + S (refreshes es))%nat with (S n + refreshes es)%nat by lia.
  apply IH; [|done]. intros st Hst. cbn [step]. unfold updateHealthData.
  destruct (updateHealthData_loop_latency now st ISRO_SUBNET_CONFIG
              (Z.min 150 (30 + 5 * Z.of_nat n)) (healthData s) (randomCalls s))
    as [_ Hup]; [lia | by apply Hs |].
  destruct (updateHealthData_loop random now ISRO_SUBNET_CONFIG (healthData s)
              (randomCalls s)) as [h' n'].
  destruct (Hup Hst) as (x & Hx & Hle). exists x. split; [done|].
  eapply Qle_trans; [|exact Hle]. rewrite <- Zle_Qle. lia.
Qed.

End LatencyFacts.

(** X10. The refresh can make every station unhealthy: the clamp lets the
    latency reach 150 and [isStationHealthy] asks for less than 150.  When
    every value of [Math.random()] is at least 0.75, the latency of each
    station climbs by 5 or more per refresh, so after 24 refreshes no id is
    healthy and every submission is turned down. *)
Theorem stations_can_all_turn_unhealthy
    (random : nat -> Q) (now : Z) (es : list Event) :
  (forall n, (3 # 4 <= random n < 1)%Q) ->
  (24 <= refreshes es)%nat ->
  let s := run random (start random now) es in
  (forall stationId, isStationHealthy (healthData s) stationId = false)
  /\ (forall request, exists msg,
         initiateTransfer (healthData s) request (manager s)
         = (manager s, Rejected msg)).
Proof.
  intros Hhigh Hmany s.
  assert (Hrange : forall n, (0 <= random n < 1)%Q).
  { intros n. destruct (Hhigh n) as [Hlo Hhi]. split; [|done].
    eapply Qle_trans; [|exact Hlo]. Qclosed. }
  assert (Hnone : forall stationId,
            isStationHealthy (healthData s) stationId = false).
  { intros stationId.
    destruct (health_shape_run random now es) as [Hshape _]. fold s in Hshape.
    destruct (healthData s !! stationId) as [x|] eqn:Hx;
      [|by apply isStationHealthy_unknown].
    apply Hshape in Hx as Hin. destruct Hin as (_ & _ & Hin).
    destruct (latency_run random Hhigh es (start random now) 0) with stationId
      as (y & Hy & Hle); [|done|].
    { intros st Hst.
      destruct (health_inv_start random Hrange now) as [Hr Hd].
      destruct (Hd st Hst) as [z Hz]. exists z. split; [done|].
      by destruct (Hr _ _ Hz) as (_ & _ & [? _] & _). }
    fold s in Hy. assert (y = x) as -> by congruence.
    unfold isStationHealthy. rewrite Hx.
    assert (Hslow : Qlt_bool (SubnetHealth.networkLatency x) 150 = false).
    { unfold Qlt_bool. apply negb_false_iff, Qle_bool_iff.
      eapply Qle_trans; [|exact Hle].
      change 150%Q with (inject_Z 150). rewrite <- Zle_Qle. lia. }
    rewrite Hslow. apply andb_false_r. }
  split; [done|]. intros request. unfold initiateTransfer.
  destruct (validateTransferRequest request); cbn; [|by eexists].
  rewrite (Hnone (TransferRequest.fromStation request)). cbn. by eexists.
Qed.

Lemma stations_can_all_turn_unhealthy_witness :
  isStationHealthy
    (healthData (run random_high (start random_high 0)
                   (map HealthInterval (seq_Z 24)))) "bangalore" = false.
Proof.
  refine (proj1 (stations_can_all_turn_unhealthy random_high 0
                   (map HealthInterval (seq_Z 24)) _ _) "bangalore").
  - intros n. unfold random_high. split; Qclosed.
  - vm_compute. lia.
Defined.

(** * Rounding to binary64 *)

Ltac Qdecide := vm_compute; (reflexivity || discriminate).

Lemma two_pow_pos (k : Z) : (0 < 2 ^ k)%Q.
Proof. apply Qpower_0_lt. reflexivity. Qed.

Lemma two_pow_le (a b : Z) : a <= b -> (2 ^ a <= 2 ^ b)%Q.
Proof. intros H. apply Qpower_le_compat_l; [exact H | discriminate]. Qed.

Lemma two_pow_Z (a : Z) : 0 <= a -> (2 ^ a == inject_Z (2 ^ a))%Q.
Proof. intros H. symmetry. apply (Zpower_Qpower 2 a H). Qed.

Lemma Qdiv_lt_cross (a b c d : Q) :
  (0 < b -> 0 < d -> a * d < c * b -> a / b < c / d)%Q.
Proof.
  intros Hb Hd H. apply Qlt_shift_div_r; [exact Hb|].
  assert (He : (c / d * b == c * b / d)%Q).
  { field. intros Hz. rewrite Hz in Hd. discriminate. }
  rewrite He. apply Qlt_shift_div_l; [exact Hd | exact H].
Qed.

Lemma Qlog2_spec (x : Q) :
  (0 < x)%Q -> (2 ^ Qlog2 x <= x)%Q /\ (x < 2 ^ (Qlog2 x + 1))%Q.
Proof.
  intros Hx. unfold Qlog2.
  set (a := Z.log2 (Qnum x)). set (b := Z.log2 (Zpos (Qden x))).
  assert (Hn : 0 < Qnum x).
  { destruct x as [n d]. unfold Qlt in Hx. cbn in *. lia. }
  destruct (Z.log2_spec (Qnum x) Hn) as [Ha1 Ha2]. fold a in Ha1, Ha2.
  destruct (Z.log2_spec (Zpos (Qden x)) (Pos2Z.is_pos _)) as [Hb1 Hb2].
  fold b in Hb1, Hb2.
  assert (Ha0 : 0 <= a) by apply Z.log2_nonneg.
  assert (Hb0 : 0 <= b) by apply Z.log2_nonneg.
  assert (Hxeq : (x == inject_Z (Qnum x) / inject_Z (Zpos (Qden x)))%Q).
  { destruct x as [n d]. cbn. apply Qmake_Qdiv. }
  assert (Hd : (0 < inject_Z (Zpos (Qden x)))%Q).
  { unfold Qlt. cbn. lia. }
  assert (Hup : (x < 2 ^ (a - b + 1))%Q).
  { replace (a - b + 1) with ((a + 1) - b) by lia.
    rewrite Qpower_minus by discriminate.
    rewrite Hxeq. apply Qdiv_lt_cross; [exact Hd | apply two_pow_pos |].
    rewrite !two_pow_Z by lia. rewrite <- !inject_Z_mult, <- Zlt_Qlt.
    replace (2 ^ (a + 1)) with (2 ^ Z.succ a) by (f_equal; lia). nia. }
  assert (Hlo : (2 ^ (a - b - 1) < x)%Q).
  { replace (a - b - 1) with (a - (b + 1)) by lia.
    rewrite Qpower_minus by discriminate.
    rewrite Hxeq. apply Qdiv_lt_cross; [apply two_pow_pos | exact Hd |].
    rewrite !two_pow_Z by lia. rewrite <- !inject_Z_mult, <- Zlt_Qlt.
    replace (2 ^ (b + 1)) with (2 ^ Z.succ b) by (f_equal; lia).
    assert (0 < 2 ^ a) by (apply Z.pow_pos_nonneg; lia). nia. }
  destruct (Qle_bool (2 ^ (a - b)) x) eqn:Ht.
  - apply Qle_bool_iff in Ht. split; [exact Ht | exact Hup].
  - split; [apply Qlt_le_weak, Hlo|].
    replace (a - b - 1 + 1) with (a - b) by lia.
    apply Qnot_le_lt. intros Hc. apply Qle_bool_iff in Hc. congruence.
Qed.

Lemma Qlog2_mono (x y : Q) : (0 < x)%Q -> (x <= y)%Q -> Qlog2 x <= Qlog2 y.
Proof.
  intros Hx Hxy.
  assert (Hy : (0 < y)%Q) by (eapply Qlt_le_trans; eassumption).
  destruct (Qlog2_spec x Hx) as [Hx1 _].
  destruct (Qlog2_spec y Hy) as [_ Hy2].
  assert (H : (2 ^ Qlog2 x < 2 ^ (Qlog2 y + 1))%Q).
  { eapply Qle_lt_trans; [exact Hx1|]. eapply Qle_lt_trans; eassumption. }
  apply Qpower_lt_compat_l_inv in H; [lia | reflexivity].
Qed.

Lemma round_half_even_bounds (x : Q) :
  Qfloor x <= round_half_even x <= Qfloor x + 1.
Proof.
  unfold round_half_even.
  destruct (_ ?= _)%Q; [destruct (Z.even _)| |]; lia.
Qed.

Lemma round_half_even_Z (n : Z) : round_half_even (inject_Z n) = n.
Proof.
  unfold round_half_even. rewrite Qfloor_Z.
  assert (H : (inject_Z n - inject_Z n ?= 1 # 2)%Q = Lt).
  { apply Qlt_alt.
    assert (Hz : (inject_Z n - inject_Z n == 0)%Q) by ring.
    rewrite Hz. reflexivity. }
  rewrite H. reflexivity.
Qed.

Lemma round_half_even_mono (x y : Q) :
  (x <= y)%Q -> round_half_even x <= round_half_even y.
Proof.
  intros Hxy.
  pose proof (Qfloor_resp_le _ _ Hxy) as Hf.
  destruct (Z.eq_dec (Qfloor x) (Qfloor y)) as [Heq|Hne].
  - unfold round_half_even. rewrite <- Heq.
    set (f := Qfloor x).
    assert (Hd : (x - inject_Z f <= y - inject_Z f)%Q).
    { apply Qplus_le_l with (z := inject_Z f). ring_simplify. exact Hxy. }
    destruct (x - inject_Z f ?= 1 # 2)%Q eqn:Hcx;
      destruct (y - inject_Z f ?= 1 # 2)%Q eqn:Hcy;
      try (destruct (Z.even f); lia); exfalso.
    + apply Qeq_alt in Hcx. apply Qlt_alt in Hcy.
      rewrite Hcx in Hd. apply (Qlt_irrefl (1 # 2)).
      eapply Qle_lt_trans; eassumption.
    + apply Qgt_alt in Hcx. apply Qeq_alt in Hcy.
      rewrite Hcy in Hd. apply (Qlt_irrefl (1 # 2)).
      eapply Qlt_le_trans; eassumption.
    + apply Qgt_alt in Hcx. apply Qlt_alt in Hcy.
      apply (Qlt_irrefl (1 # 2)).
      eapply Qlt_le_trans; [exact Hcx|].
      eapply Qle_trans; [exact Hd|]. apply Qlt_le_weak, Hcy.
  - pose proof (round_half_even_bounds x). pose proof (round_half_even_bounds y).
    lia.
Qed.

Lemma Qabs_pos_eq (x : Q) : (0 < x)%Q -> Qabs x = x.
Proof.
  destruct x as [n d]. unfold Qlt. cbn. intros H.
  unfold Qabs. f_equal. lia.
Qed.

Lemma Qeq_bool_pos (x : Q) : (0 < x)%Q -> Qeq_bool x 0 = false.
Proof.
  intros H. destruct (Qeq_bool x 0) eqn:He; [|reflexivity].
  apply Qeq_bool_iff in He. rewrite He in H. discriminate.
Qed.

Lemma scaled_le (x : Q) (e : Z) (n : Z) :
  (x <= inject_Z n * 2 ^ e)%Q -> (x / 2 ^ e <= inject_Z n)%Q.
Proof. intros H. apply Qle_shift_div_r; [apply two_pow_pos | exact H]. Qed.

Lemma scaled_ge (x : Q) (e : Z) (n : Z) :
  (inject_Z n * 2 ^ e <= x)%Q -> (inject_Z n <= x / 2 ^ e)%Q.
Proof. intros H. apply Qle_shift_div_l; [apply two_pow_pos | exact H]. Qed.

(** A positive number rounds into the closed binade it lies in. *)
Lemma round64_finite_binade (x : Q) :
  (0 < x)%Q ->
  let e := round64_exponent x in
  (round64_finite x <= 2 ^ (e + 53))%Q
  /\ (- 1074 < e -> (2 ^ (e + 52) <= round64_finite x)%Q).
Proof.
  intros Hx e. unfold round64_finite. rewrite (Qeq_bool_pos x Hx). fold e.
  destruct (Qlog2_spec x Hx) as [Hlo Hup].
  assert (He : e = Z.max (Qlog2 x - 52) (-1074)).
  { unfold e, round64_exponent. rewrite (Qabs_pos_eq x Hx); reflexivity. }
  split.
  - assert (H : round_half_even (x / 2 ^ e) <= 2 ^ 53).
    { rewrite <- (round_half_even_Z (2 ^ 53)).
      apply round_half_even_mono, scaled_le.
      rewrite <- (two_pow_Z 53) by lia.
      rewrite <- Qpower_plus by discriminate.
      eapply Qle_trans; [apply Qlt_le_weak, Hup|]. apply two_pow_le. lia. }
    rewrite (Qpower_plus 2 e 53) by discriminate.
    rewrite (Qmult_comm (2 ^ e)).
    apply Qmult_le_compat_r; [|apply Qlt_le_weak, two_pow_pos].
    rewrite (two_pow_Z 53) by lia. rewrite <- Zle_Qle. exact H.
  - intros Hnorm.
    assert (H : 2 ^ 52 <= round_half_even (x / 2 ^ e)).
    { rewrite <- (round_half_even_Z (2 ^ 52)) at 1.
      apply round_half_even_mono, scaled_ge.
      rewrite <- (two_pow_Z 52) by lia.
      rewrite <- Qpower_plus by discriminate.
      eapply Qle_trans; [|exact Hlo]. apply two_pow_le. lia. }
    rewrite (Qpower_plus 2 e 52) by discriminate.
    rewrite (Qmult_comm (2 ^ e)).
    apply Qmult_le_compat_r; [|apply Qlt_le_weak, two_pow_pos].
    rewrite (two_pow_Z 52) by lia. rewrite <- Zle_Qle. exact H.
Qed.

Lemma round64_finite_nonneg (x : Q) : (0 <= x)%Q -> (0 <= round64_finite x)%Q.
Proof.
  intros Hx. unfold round64_finite.
  destruct (Qeq_bool x 0); [apply Qle_refl|].
  apply Qmult_le_0_compat; [|apply Qlt_le_weak, two_pow_pos].
  change 0%Q with (inject_Z 0). rewrite <- Zle_Qle.
  rewrite <- (round_half_even_Z 0) at 1.
  apply round_half_even_mono. apply Qle_shift_div_l; [apply two_pow_pos|].
  rewrite Qmult_0_l. exact Hx.
Qed.

(** Rounding keeps the order of the non-negative numbers. *)
Lemma round64_finite_mono (x y : Q) :
  (0 <= x)%Q -> (x <= y)%Q -> (round64_finite x <= round64_finite y)%Q.
Proof.
  intros Hx Hxy.
  destruct (Qeq_bool x 0) eqn:Hx0.
  { unfold round64_finite at 1. rewrite Hx0.
    apply round64_finite_nonneg. eapply Qle_trans; eassumption. }
  assert (Hxpos : (0 < x)%Q).
  { apply Qle_lteq in Hx as [H|H]; [exact H|].
    symmetry in H. apply Qeq_bool_iff in H. congruence. }
  assert (Hypos : (0 < y)%Q) by (eapply Qlt_le_trans; eassumption).
  pose proof (Qlog2_mono x y Hxpos Hxy) as Hlog.
  assert (Hex : round64_exponent x = Z.max (Qlog2 x - 52) (-1074)).
  { unfold round64_exponent. rewrite (Qabs_pos_eq x Hxpos); reflexivity. }
  assert (Hey : round64_exponent y = Z.max (Qlog2 y - 52) (-1074)).
  { unfold round64_exponent. rewrite (Qabs_pos_eq y Hypos); reflexivity. }
  destruct (Z.eq_dec (round64_exponent x) (round64_exponent y)) as [Heq|Hne].
  - unfold round64_finite. rewrite Hx0, (Qeq_bool_pos y Hypos), Heq.
    apply Qmult_le_compat_r; [|apply Qlt_le_weak, two_pow_pos].
    rewrite <- Zle_Qle. apply round_half_even_mono.
    apply Qmult_le_compat_r; [exact Hxy|].
    apply Qlt_le_weak, Qinv_lt_0_compat, two_pow_pos.
  - destruct (round64_finite_binade x Hxpos) as [Hup _].
    destruct (round64_finite_binade y Hypos) as [_ Hlo].
    eapply Qle_trans; [exact Hup|].
    eapply Qle_trans; [|apply Hlo; lia].
    apply two_pow_le. lia.
Qed.

(** A non-negative number below a finite binary64 value rounds to a finite
    number. *)
Lemma round64_bounded (x B : Q) :
  (0 <= x)%Q -> (x <= B)%Q -> (round64_finite B < 2 ^ 1024)%Q ->
  round64 x = Finite (round64_finite x)
  /\ (0 <= round64_finite x <= round64_finite B)%Q.
Proof.
  intros Hx HB Hfin.
  pose proof (round64_finite_nonneg x Hx) as H0.
  pose proof (round64_finite_mono x B Hx HB) as H1.
  split; [|by split].
  unfold round64.
  destruct (Qle_bool (2 ^ 1024) (Qabs (round64_finite x))) eqn:Hov; [|done].
  exfalso. apply Qle_bool_iff in Hov. rewrite (Qabs_pos _ H0) in Hov.
  apply (Qlt_irrefl (2 ^ 1024)).
  eapply Qle_lt_trans; [exact Hov|]. eapply Qle_lt_trans; eassumption.
Qed.

(** * The estimated time *)

Lemma priorityMultiplier_range (p : Priority) :
  (0 < priorityMultiplier p <= 3 # 2)%Q.
Proof. destruct p; split; Qdecide. Qed.

Lemma priorityMultiplier_anti (p q : Priority) :
  priority_rank p <= priority_rank q ->
  (priorityMultiplier q <= priorityMultiplier p)%Q.
Proof. destruct p, q; cbn; intros H; try lia; Qdecide. Qed.

Lemma baseTime_range (d : Q) :
  (0 <= d <= inject_Z (100 * 1024 ^ 3))%Q ->
  (0 <= d / inject_Z (100 * 1024 * 1024) <= 1024)%Q.
Proof.
  intros [Hlo Hhi]. split.
  - apply Qle_shift_div_l; [Qdecide|]. by rewrite Qmult_0_l.
  - apply Qle_shift_div_r; [Qdecide|].
    eapply Qle_trans; [exact Hhi|]. Qdecide.
Qed.

(** For a size the validation accepts no intermediate result overflows, and
    the estimate is the whole number [estimate_seconds] rounds up to. *)
Lemma calculateEstimatedTime_finite (r : TransferRequest.t) (d : Q) :
  TransferRequest.dataSize r = Finite d ->
  (0 <= d <= inject_Z (100 * 1024 ^ 3))%Q ->
  calculateEstimatedTime r
  = whole (Qceiling (estimate_seconds d (TransferRequest.priority r)))
  /\ (0 <= estimate_seconds d (TransferRequest.priority r) <= 92160)%Q.
Proof.
  intros Hd Hrange. unfold calculateEstimatedTime, estimate_seconds.
  rewrite Hd. cbn [number_div].
  set (m := priorityMultiplier (TransferRequest.priority r)).
  destruct (priorityMultiplier_range (TransferRequest.priority r)) as [Hm0 Hm1].
  fold m in Hm0, Hm1.
  destruct (baseTime_range d Hrange) as [Hb0 Hb1].
  destruct (round64_bounded _ 1024 Hb0 Hb1) as (-> & Hr0 & Hr1); [Qdecide|].
  set (b := round64_finite (d / inject_Z (100 * 1024 * 1024))) in *.
  cbn [number_mul].
  assert (Hx0 : (0 <= b * m)%Q).
  { apply Qmult_le_0_compat; [done | by apply Qlt_le_weak]. }
  assert (Hx1 : (b * m <= 1536)%Q).
  { eapply Qle_trans.
    - apply Qmult_le_compat_r; [exact Hr1 | by apply Qlt_le_weak].
    - eapply Qle_trans.
      + rewrite Qmult_comm. apply Qmult_le_compat_r; [exact Hm1|]. Qdecide.
      + Qdecide. }
  destruct (round64_bounded _ 1536 Hx0 Hx1) as (-> & Hs0 & Hs1); [Qdecide|].
  set (c := round64_finite (b * m)) in *.
  cbn [number_mul].
  assert (Hy0 : (0 <= c * 60)%Q).
  { apply Qmult_le_0_compat; [done | Qdecide]. }
  assert (Hy1 : (c * 60 <= 92160)%Q).
  { eapply Qle_trans.
    - apply Qmult_le_compat_r; [exact Hs1 | Qdecide].
    - Qdecide. }
  destruct (round64_bounded _ 92160 Hy0 Hy1) as (-> & Ht0 & Ht1); [Qdecide|].
  cbn [Math_ceil]. split; [done|]. split; [done|].
  eapply Qle_trans; [exact Ht1|]. Qdecide.
Qed.

Lemma estimate_seconds_mono (d1 d2 : Q) (p : Priority) :
  (0 <= d1)%Q -> (d1 <= d2)%Q ->
  (estimate_seconds d1 p <= estimate_seconds d2 p)%Q.
Proof.
  intros H0 Hle. unfold estimate_seconds.
  assert (Hb : (0 <= d1 / inject_Z (100 * 1024 * 1024))%Q).
  { apply Qle_shift_div_l; [Qdecide|]. by rewrite Qmult_0_l. }
  apply round64_finite_mono.
  { apply Qmult_le_0_compat; [|Qdecide]. apply round64_finite_nonneg.
    apply Qmult_le_0_compat; [by apply round64_finite_nonneg|].
    apply Qlt_le_weak, priorityMultiplier_range. }
  apply Qmult_le_compat_r; [|Qdecide].
  apply round64_finite_mono.
  { apply Qmult_le_0_compat; [by apply round64_finite_nonneg|].
    apply Qlt_le_weak, priorityMultiplier_range. }
  apply Qmult_le_compat_r; [|apply Qlt_le_weak, priorityMultiplier_range].
  apply round64_finite_mono; [done|].
  apply Qmult_le_compat_r; [done|]. Qdecide.
Qed.

Lemma estimate_seconds_anti (d : Q) (p q : Priority) :
  (0 <= d)%Q -> priority_rank p <= priority_rank q ->
  (estimate_seconds d q <= estimate_seconds d p)%Q.
Proof.
  intros H0 Hrank. unfold estimate_seconds.
  assert (Hb : (0 <= round64_finite (d / inject_Z (100 * 1024 * 1024)))%Q).
  { apply round64_finite_nonneg.
    apply Qle_shift_div_l; [Qdecide|]. by rewrite Qmult_0_l. }
  apply round64_finite_mono.
  { apply Qmult_le_0_compat; [|Qdecide]. apply round64_finite_nonneg.
    apply Qmult_le_0_compat; [done|].
    apply Qlt_le_weak, priorityMultiplier_range. }
  apply Qmult_le_compat_r; [|Qdecide].
  apply round64_finite_mono.
  { apply Qmult_le_0_compat; [done|].
    apply Qlt_le_weak, priorityMultiplier_range. }
  rewrite !(Qmult_comm (round64_finite _)).
  apply Qmult_le_compat_r; [by apply priorityMultiplier_anti | done].
Qed.

Lemma Qceiling_pos (x : Q) : (0 < x)%Q -> 1 <= Qceiling x.
Proof.
  intros Hx. pose proof (Qle_ceiling x) as Hc.
  assert (H : (inject_Z 0 < inject_Z (Qceiling x))%Q)
    by (eapply Qlt_le_trans; eassumption).
  rewrite <- Zlt_Qlt in H. lia.
Qed.

(** On the sample sizes and for every priority, [estimate_seconds] is the
    value the Standard Library's binary64 operations give. *)
Lemma estimate_seconds_is_the_reference :
  Forall (fun d => forall p,
            (estimate_seconds (inject_Z d) p == reference_seconds d p)%Q)
    sample_sizes.
Proof. repeat constructor; destruct p; Qdecide. Qed.

(** The rounding is visible in the result: ten MiB at the lowest priority
    are 0.1 * 1.5 * 60 = 9 seconds in exact arithmetic and 10 seconds in the
    source, whose product 0.1 * 1.5 lies halfway between two binary64
    values and goes to the upper one. *)
Lemma calculateEstimatedTime_rounds_up :
  calculateEstimatedTime
    (TransferRequest.mk "a" "delhi" "chennai" (10 * 1024 * 1024) low AES_256 0 "")
  = whole 10.
Proof. vm_compute. reflexivity. Qed.

(** X11. For two sizes the validation accepts and one priority, the
    estimates are whole numbers of seconds in the order of the sizes, none
    above 92160; from one byte on the estimate is at least one second. *)
Theorem calculateEstimatedTime_bounds (r1 r2 : TransferRequest.t) (d1 d2 : Q) :
  TransferRequest.dataSize r1 = Finite d1 ->
  TransferRequest.dataSize r2 = Finite d2 ->
  (0 < d1 <= d2)%Q -> (d2 <= inject_Z (100 * 1024 ^ 3))%Q ->
  TransferRequest.priority r1 = TransferRequest.priority r2 ->
  exists n1 n2 : Z,
    calculateEstimatedTime r1 = whole n1
    /\ calculateEstimatedTime r2 = whole n2
    /\ 0 <= n1 <= n2 /\ n2 <= 92160
    /\ ((1 <= d1)%Q -> 1 <= n1).
Proof.
  intros Hd1 Hd2 [Hpos Hle] Hmax Hp.
  assert (H1 : (0 <= d1 <= inject_Z (100 * 1024 ^ 3))%Q).
  { split; [by apply Qlt_le_weak | by eapply Qle_trans]. }
  assert (H2 : (0 <= d2 <= inject_Z (100 * 1024 ^ 3))%Q).
  { split; [|done]. eapply Qle_trans; [|exact Hle]. by apply Qlt_le_weak. }
  destruct (calculateEstimatedTime_finite r1 d1 Hd1 H1) as (-> & He1 & _).
  destruct (calculateEstimatedTime_finite r2 d2 Hd2 H2) as (-> & _ & He2).
  eexists _, _. split; [done|]. split; [done|].
  split; [split|split].
  - change 0 with (Qceiling (inject_Z 0)). by apply Qceiling_resp_le.
  - apply Qceiling_resp_le. rewrite Hp.
    apply estimate_seconds_mono; [apply H1 | done].
  - change 92160 with (Qceiling (inject_Z 92160)). by apply Qceiling_resp_le.
  - intros Hone. apply Qceiling_pos.
    eapply Qlt_le_trans;
      [|apply (estimate_seconds_mono 1 d1); [Qdecide | exact Hone]].
    destruct (TransferRequest.priority r1); Qdecide.
Qed.

Lemma calculateEstimatedTime_bounds_witness :
  exists n1 n2 : Z,
    calculateEstimatedTime request_same = whole n1
    /\ calculateEstimatedTime
         (TransferRequest.with_dataSize request_same (100 * 1024 ^ 3))
       = whole n2
    /\ 0 <= n1 <= n2 /\ n2 <= 92160
    /\ ((1 <= 1024)%Q -> 1 <= n1).
Proof.
  apply (calculateEstimatedTime_bounds request_same
           (TransferRequest.with_dataSize request_same (100 * 1024 ^ 3))
           1024 (inject_Z (100 * 1024 ^ 3))).
  - reflexivity.
  - reflexivity.
  - split; Qdecide.
  - Qdecide.
  - reflexivity.
Defined.

(** X12. For one size that the validation accepts, a higher priority never
    gets a longer estimate: critical at most high, high at most medium,
    medium at most low. *)
Theorem calculateEstimatedTime_priority_order
    (r1 r2 : TransferRequest.t) (d : Q) :
  TransferRequest.dataSize r1 = Finite d ->
  TransferRequest.dataSize r2 = Finite d ->
  (0 < d <= inject_Z (100 * 1024 ^ 3))%Q ->
  priority_rank (TransferRequest.priority r1)
  <= priority_rank (TransferRequest.priority r2) ->
  exists n1 n2 : Z,
    calculateEstimatedTime r1 = whole n1
    /\ calculateEstimatedTime r2 = whole n2
    /\ n2 <= n1.
Proof.
  intros Hd1 Hd2 [Hpos Hmax] Hrank.
  assert (H : (0 <= d <= inject_Z (100 * 1024 ^ 3))%Q).
  { split; [by apply Qlt_le_weak | done]. }
  destruct (calculateEstimatedTime_finite r1 d Hd1 H) as (-> & _).
  destruct (calculateEstimatedTime_finite r2 d Hd2 H) as (-> & _).
  eexists _, _. split; [done|]. split; [done|].
  apply Qceiling_resp_le. apply estimate_seconds_anti; [apply H | done].
Qed.

Lemma calculateEstimatedTime_priority_order_witness :
  exists n1 n2 : Z,
    calculateEstimatedTime
      (TransferRequest.mk "b" "delhi" "chennai" (1024 ^ 3) low AES_256 0 "")
    = whole n1
    /\ calculateEstimatedTime
         (TransferRequest.mk "a" "delhi" "chennai" (1024 ^ 3) critical
            AES_256 0 "")
       = whole n2
    /\ n2 <= n1.
Proof.
  apply (calculateEstimatedTime_priority_order
           (TransferRequest.mk "b" "delhi" "chennai" (1024 ^ 3) low AES_256 0 "")
           (TransferRequest.mk "a" "delhi" "chennai" (1024 ^ 3) critical
              AES_256 0 "")
           (inject_Z (1024 ^ 3))).
  - reflexivity.
  - reflexivity.
  - split; Qdecide.
  - cbn. lia.
Defined.

(** * Formatting a duration *)

(** X13. For a whole number of seconds among the safe integers,
    [formatTime] shows a duration below a minute as its seconds; from a
    minute to an hour as minutes and seconds that add up to the duration,
    both below 60; and from an hour on as hours and minutes below 60, the
    seconds being dropped. *)
Theorem formatTime_parts (seconds : Z) :
  safe_integer seconds ->
  (seconds < 60 -> formatTime seconds = pretty seconds +:+ "s")
  /\ (60 <= seconds < 3600 ->
      exists m r,
        formatTime seconds = pretty m +:+ "m " +:+ pretty r +:+ "s"
        /\ 1 <= m <= 59 /\ 0 <= r <= 59 /\ seconds = 60 * m + r)
  /\ (3600 <= seconds ->
      exists h m,
        formatTime seconds = pretty h +:+ "h " +:+ pretty m +:+ "m"
        /\ 1 <= h /\ 0 <= m <= 59
        /\ 3600 * h + 60 * m <= seconds < 3600 * h + 60 * m + 60).
Proof.
  intros _. unfold formatTime. split; [|split].
  - intros Hlt. by rewrite (proj2 (Z.ltb_lt _ _) Hlt).
  - intros [Hlo Hhi].
    rewrite (proj2 (Z.ltb_ge _ _) Hlo), (proj2 (Z.ltb_lt _ _) Hhi).
    exists (seconds / 60), (Z.rem seconds 60). split; [done|].
    rewrite Z.rem_mod_nonneg by lia.
    pose proof (Z.div_mod seconds 60). pose proof (Z.mod_pos_bound seconds 60).
    pose proof (Z.div_le_lower_bound seconds 60 1).
    pose proof (Z.div_lt_upper_bound seconds 60 60). lia.
  - intros Hlo.
    rewrite (proj2 (Z.ltb_ge seconds 60)) by lia.
    rewrite (proj2 (Z.ltb_ge _ _) Hlo).
    exists (seconds / 3600), (Z.rem seconds 3600 / 60). split; [done|].
    rewrite Z.rem_mod_nonneg by lia.
    pose proof (Z.div_mod seconds 3600).
    pose proof (Z.mod_pos_bound seconds 3600).
    pose proof (Z.div_le_lower_bound seconds 3600 1).
    pose proof (Z.div_mod (seconds mod 3600) 60).
    pose proof (Z.mod_pos_bound (seconds mod 3600) 60).
    pose proof (Z.div_lt_upper_bound (seconds mod 3600) 60 60).
    pose proof (Z.div_pos (seconds mod 3600) 60). lia.
Qed.

Lemma formatTime_parts_witness :
  exists h m,
    formatTime 3725 = pretty h +:+ "h " +:+ pretty m +:+ "m"
    /\ 1 <= h /\ 0 <= m <= 59
    /\ 3600 * h + 60 * m <= 3725 < 3600 * h + 60 * m + 60.
Proof.
  apply (proj2 (proj2 (formatTime_parts 3725 ltac:(by split)))). lia.
Defined.

(** * Formatting a size *)

Lemma string_app_assoc (a b c : string) : (a +:+ b) +:+ c = a +:+ b +:+ c.
Proof.
  induction a as [|x a IH]; [reflexivity|].
  change (String x ((a +:+ b) +:+ c) = String x (a +:+ b +:+ c)).
  by rewrite IH.
Qed.

Lemma toFixed1_nearest_tenth (x : Q) :
  (0 <= x)%Q ->
  exists n,
    toFixed1 x = pretty (n / 10) +:+ "." +:+ pretty (n mod 10)
    /\ (inject_Z n <= x * 10 + (1 # 2))%Q
    /\ (x * 10 + (1 # 2) < inject_Z n + 1)%Q.
Proof.
  intros Hx. exists (Qfloor (x * 10 + (1 # 2))%Q). split; [|split].
  - unfold toFixed1.
    assert (Hsign : Qlt_bool x 0 = false).
    { unfold Qlt_bool. apply negb_false_iff. by apply Qle_bool_iff. }
    rewrite Hsign. cbn [String.append].
    assert (Habs : Qfloor (Qabs x * 10 + (1 # 2))%Q
                   = Qfloor (x * 10 + (1 # 2))%Q).
    { destruct x as [[|p|p] d]; try reflexivity.
      unfold Qle in Hx. cbn in Hx. lia. }
    by rewrite Habs.
  - apply Qfloor_le.
  - eapply Qlt_le_trans; [apply Qlt_floor|].
    rewrite inject_Z_plus. apply Qle_refl.
Qed.

Lemma Qle_bool_false (x y : Q) : Qle_bool x y = false -> (y < x)%Q.
Proof.
  intros Hf. apply Qnot_le_lt. intros Hle. apply Qle_bool_iff in Hle.
  congruence.
Qed.

Lemma Qdiv_1024_ge_1 (x : Q) : (1024 <= x)%Q -> (1 <= x / 1024)%Q.
Proof.
  intros Hx. apply Qle_shift_div_l; [Qdecide|].
  by rewrite Qmult_1_l.
Qed.

(** X14. [formatDataSize] of a whole number of bytes from 0 to below 2^53
    divides by 1024 until the value is below 1024 or the unit is TB: the
    unit is one of
    the five, the value shown times 1024 to the power of the unit's rank is
    the number of bytes, it is below 1024 for every unit but TB and at least
    1 for every unit but B, and the digits shown are the nearest number of
    tenths, the upper one on a tie. *)
Theorem formatDataSize_scaling (bytes : Z) :
  0 <= bytes < 2 ^ 53 ->
  exists size unitIndex unit n,
    formatDataSize bytes
    = pretty (n / 10) +:+ "." +:+ pretty (n mod 10) +:+ " " +:+ unit
    /\ units !! unitIndex = Some unit
    /\ (size * inject_Z (1024 ^ Z.of_nat unitIndex) == inject_Z bytes)%Q
    /\ ((unitIndex < 4)%nat -> (size < 1024)%Q)
    /\ ((0 < unitIndex)%nat -> (1 <= size)%Q)
    /\ (inject_Z n <= size * 10 + (1 # 2))%Q
    /\ (size * 10 + (1 # 2) < inject_Z n + 1)%Q.
Proof.
  intros [Hb _].
  assert (Hb' : (0 <= inject_Z bytes)%Q)
    by (change 0%Q with (inject_Z 0); by rewrite <- Zle_Qle).
  assert (Hshow : forall size unitIndex unit,
    (0 <= size)%Q ->
    formatDataSize_loop (length units - 1) (inject_Z bytes) 0
    = (size, unitIndex) ->
    units !! unitIndex = Some unit ->
    (size * inject_Z (1024 ^ Z.of_nat unitIndex) == inject_Z bytes)%Q ->
    ((unitIndex < 4)%nat -> (size < 1024)%Q) ->
    ((0 < unitIndex)%nat -> (1 <= size)%Q) ->
    exists size unitIndex unit n,
      formatDataSize bytes
      = pretty (n / 10) +:+ "." +:+ pretty (n mod 10) +:+ " " +:+ unit
      /\ units !! unitIndex = Some unit
      /\ (size * inject_Z (1024 ^ Z.of_nat unitIndex) == inject_Z bytes)%Q
      /\ ((unitIndex < 4)%nat -> (size < 1024)%Q)
      /\ ((0 < unitIndex)%nat -> (1 <= size)%Q)
      /\ (inject_Z n <= size * 10 + (1 # 2))%Q
      /\ (size * 10 + (1 # 2) < inject_Z n + 1)%Q).
  { intros size unitIndex unit Hpos Hloop Hunit Hscale Hlt Hge.
    destruct (toFixed1_nearest_tenth size Hpos) as (n & Hn & Hlo & Hhi).
    exists size, unitIndex, unit, n.
    split; [|by repeat split].
    unfold formatDataSize. rewrite Hloop, Hn.
    rewrite (nth_lookup_Some _ _ "" _ Hunit).
    by rewrite !string_app_assoc. }
  assert (Hpos : forall x : Q, (1 <= x)%Q -> (0 <= x)%Q)
    by (intros x Hx; eapply Qle_trans; [|exact Hx]; Qdecide).
  cbn [length units Nat.sub formatDataSize_loop] in Hshow.
  destruct (Qle_bool 1024 (inject_Z bytes)) eqn:H1.
  2: { apply (Hshow (inject_Z bytes) 0%nat "B"); try done.
       - change (inject_Z (1024 ^ Z.of_nat 0)) with 1%Q. ring.
       - intros _. by apply Qle_bool_false.
       - lia. }
  apply Qle_bool_iff, Qdiv_1024_ge_1 in H1.
  destruct (Qle_bool 1024 (inject_Z bytes / 1024)) eqn:H2.
  2: { apply (Hshow (inject_Z bytes / 1024)%Q 1%nat "KB"); try done.
       - by apply Hpos.
       - change (inject_Z (1024 ^ Z.of_nat 1)) with 1024%Q. field.
       - intros _. by apply Qle_bool_false. }
  apply Qle_bool_iff, Qdiv_1024_ge_1 in H2.
  destruct (Qle_bool 1024 (inject_Z bytes / 1024 / 1024)) eqn:H3.
  2: { apply (Hshow (inject_Z bytes / 1024 / 1024)%Q 2%nat "MB"); try done.
       - by apply Hpos.
       - change (inject_Z (1024 ^ Z.of_nat 2)) with 1048576%Q. field.
       - intros _. by apply Qle_bool_false. }
  apply Qle_bool_iff, Qdiv_1024_ge_1 in H3.
  destruct (Qle_bool 1024 (inject_Z bytes / 1024 / 1024 / 1024)) eqn:H4.
  2: { apply (Hshow (inject_Z bytes / 1024 / 1024 / 1024)%Q 3%nat "GB");
         try done.
       - by apply Hpos.
       - change (inject_Z (1024 ^ Z.of_nat 3)) with 1073741824%Q. field.
       - intros _. by apply Qle_bool_false. }
  apply Qle_bool_iff, Qdiv_1024_ge_1 in H4.
  apply (Hshow (inject_Z bytes / 1024 / 1024 / 1024 / 1024)%Q 4%nat "TB");
    try done.
  - by apply Hpos.
  - change (inject_Z (1024 ^ Z.of_nat 4)) with 1099511627776%Q. field.
  - lia.
Qed.

Lemma formatDataSize_scaling_witness :
  exists size unitIndex unit n,
    formatDataSize 1536
    = pretty (n / 10) +:+ "." +:+ pretty (n mod 10) +:+ " " +:+ unit
    /\ units !! unitIndex = Some unit
    /\ (size * inject_Z (1024 ^ Z.of_nat unitIndex) == inject_Z 1536)%Q
    /\ ((unitIndex < 4)%nat -> (size < 1024)%Q)
    /\ ((0 < unitIndex)%nat -> (1 <= size)%Q)
    /\ (inject_Z n <= size * 10 + (1 # 2))%Q
    /\ (size * 10 + (1 # 2) < inject_Z n + 1)%Q.
Proof. apply (formatDataSize_scaling 1536). by split. Defined.

Lemma toFixed1_of_tenths (x : Q) (n : Z) :
  (0 <= x)%Q ->
  (inject_Z n <= x * 10 + (1 # 2))%Q ->
  (x * 10 + (1 # 2) < inject_Z (n + 1))%Q ->
  toFixed1 x = pretty (n / 10) +:+ "." +:+ pretty (n mod 10).
Proof.
  intros Hx Hlo Hhi.
  destruct (toFixed1_nearest_tenth x Hx) as (k & -> & Hk1 & Hk2).
  assert (k = n) as ->; [|done].
  assert (Hkn : (inject_Z k < inject_Z (n + 1))%Q)
    by (eapply Qle_lt_trans; [exact Hk1 | exact Hhi]).
  assert (Hnk : (inject_Z n < inject_Z (k + 1))%Q).
  { eapply Qle_lt_trans; [exact Hlo|].
    eapply Qlt_le_trans; [exact Hk2|]. rewrite inject_Z_plus. apply Qle_refl. }
  rewrite <- Zlt_Qlt in Hkn, Hnk. lia.
Qed.

(** X15. The loop of [formatDataSize] tests the value before it is rounded:
    from 1048525 to 1048575 bytes the value is below 1024 KB, so the unit
    stays KB, and rounds to 1024.0; the text is "1024.0 KB", and "1.0 MB"
    only starts at 1048576 bytes. *)
Theorem formatDataSize_shows_1024_KB (bytes : Z) :
  1048525 <= bytes <= 1048575 ->
  formatDataSize bytes = "1024.0 KB"
  /\ formatDataSize 1048576 = "1.0 MB".
Proof.
  intros [Hlo Hhi]. split; [|by vm_compute].
  unfold formatDataSize. cbn [length units Nat.sub formatDataSize_loop].
  assert (H1 : Qle_bool 1024 (inject_Z bytes) = true).
  { apply Qle_bool_iff. change 1024%Q with (inject_Z 1024).
    rewrite <- Zle_Qle. lia. }
  assert (H2 : Qle_bool 1024 (inject_Z bytes / 1024) = false).
  { destruct (Qle_bool 1024 (inject_Z bytes / 1024)) eqn:H; [|done].
    apply Qle_bool_iff in H. unfold Qle in H. cbn in H. lia. }
  rewrite H1, H2.
  rewrite (toFixed1_of_tenths _ 10240).
  - by vm_compute.
  - unfold Qle. cbn. lia.
  - unfold Qle. cbn. lia.
  - unfold Qlt. cbn. lia.
Qed.

Lemma formatDataSize_shows_1024_KB_witness :
  formatDataSize 1048575 = "1024.0 KB" /\ formatDataSize 1048576 = "1.0 MB".
Proof. apply (formatDataSize_shows_1024_KB 1048575). lia. Defined.

(** * The checksum *)





Lemma string_length_app (a b : string) :
  String.length (a +:+ b) = (String.length a + String.length b)%nat.
Proof.
  induction a as [|x a IH]; [reflexivity|].
  change (S (String.length (a +:+ b)) = S (String.length a + String.length b)).
  by rewrite IH.
Qed.






Lemma take_repeat {A} (x : A) (k n : nat) :
  take k (repeat x n) = repeat x (Nat.min k n).
Proof.
  revert n. induction k as [|k IH]; intros [|n]; cbn; [done..|].
  by rewrite IH.
Qed.

(** X17. The hook sends the checksum of a fresh buffer of [dataSize] bytes.
    Whenever the engine grants the buffer, it holds one zero byte for each
    whole byte of the size, and the checksum is "0x", "00" for each of the
    first eight of them, and "...": for every size of eight bytes or more
    this is the same text, whatever the size.  When the length is refused,
    as it is for an infinite size, there is no buffer and no checksum. *)
Theorem checksum_of_a_new_buffer
    (allocates : Z -> bool) (dataSize : number) (buffer : list Byte.byte) :
  new_ArrayBuffer allocates dataSize = Some buffer ->
  exists n,
    ToIndex dataSize = Some n /\ allocates n = true
    /\ 0 <= n /\ length buffer = Z.to_nat n
    /\ generateChecksum buffer
       = "0x" +:+ String.concat "" (repeat "00" (Nat.min 8 (Z.to_nat n)))
         +:+ "..."
    /\ (8 <= n -> generateChecksum buffer = "0x0000000000000000...")
    /\ (forall d, dataSize = Finite d -> (0 <= d)%Q -> n = Qfloor d).
Proof.
  unfold new_ArrayBuffer. intros Hnew.
  destruct (ToIndex dataSize) as [n|] eqn:Hn; [|done]. cbn in Hnew.
  destruct (allocates n) eqn:Hal; [|done]. injection Hnew as <-.
  assert (Hrange : 0 <= n /\ forall d, dataSize = Finite d ->
                     (0 <= d)%Q -> n = Qfloor d).
  { destruct dataSize as [q|negative|]; cbn in Hn; [|done|].
    - destruct (_ && _) eqn:Hb; [|done]. injection Hn as <-.
      apply andb_true_iff in Hb as [Hlo%Z.leb_le _]. split; [done|].
      intros d [= <-] Hpos.
      destruct (Qlt_bool q 0) eqn:Hneg; [|done].
      apply Qlt_bool_iff in Hneg. exfalso.
      by apply (Qlt_not_le _ _ Hneg).
    - injection Hn as <-. split; [done | by intros d]. }
  destruct Hrange as [H0 Hd].
  exists n. do 2 (split; [done|]). split; [done|].
  split; [apply repeat_length|].
  assert (Hsum : generateChecksum (repeat Byte.x00 (Z.to_nat n))
                 = "0x" +:+ String.concat ""
                              (repeat "00" (Nat.min 8 (Z.to_nat n)))
                   +:+ "...").
  { unfold generateChecksum. do 2 f_equal.
    by rewrite take_repeat, map_repeat. }
  split; [done|]. split; [|done].
  intros H8. rewrite Hsum.
  replace (Nat.min 8 (Z.to_nat n)) with 8%nat by lia. reflexivity.
Qed.

Lemma checksum_of_a_new_buffer_witness :
  exists n,
    ToIndex (Finite (41 # 2)) = Some n
    /\ (n <=? 2 ^ 31) = true
    /\ 0 <= n /\ length (repeat Byte.x00 20) = Z.to_nat n
    /\ generateChecksum (repeat Byte.x00 20)
       = "0x" +:+ String.concat "" (repeat "00" (Nat.min 8 (Z.to_nat n)))
         +:+ "..."
    /\ (8 <= n -> generateChecksum (repeat Byte.x00 20)
                  = "0x0000000000000000...")
    /\ (forall d, Finite (41 # 2) = Finite d -> (0 <= d)%Q ->
                  n = Qfloor d).
Proof.
  apply (checksum_of_a_new_buffer (fun n => n <=? 2 ^ 31) (Finite (41 # 2))).
  reflexivity.
Defined.

(** * The shape of a route *)

(** X18. Every route starts at the source and ends at the destination, has
    at most three stations and none twice, and each of its hops has
    "bangalore" at one end. *)
Theorem getTransferRoute_shape (src dst : string) :
  let route := getTransferRoute src dst in
  head route = Some src
  /\ last route = Some dst
  /\ (length route <= 3)%nat
  /\ NoDup route
  /\ (forall i a b, route !! i = Some a -> route !! S i = Some b ->
        a = "bangalore" \/ b = "bangalore").
Proof.
  cbv zeta. unfold getTransferRoute. rewrite !eqb_string_decide.
  destruct (decide (src = dst)) as [->|Hne].
  { rewrite bool_decide_eq_true_2 by done. cbn.
    repeat split; [lia | apply NoDup_singleton |].
    intros i a b _ Hb. by destruct i. }
  rewrite (bool_decide_eq_false_2 _ Hne).
  destruct (decide (src = "bangalore")) as [->|Hs].
  { rewrite (bool_decide_eq_true_2 ("bangalore" = "bangalore")) by done. cbn.
    repeat split; [lia | |].
    - apply NoDup_cons. split; [|apply NoDup_singleton].
      intros Hx%list_elem_of_singleton. congruence.
    - intros [|[|i]] a b Ha Hb; cbn in *; [left; congruence | done | done]. }
  rewrite (bool_decide_eq_false_2 _ Hs).
  destruct (decide (dst = "bangalore")) as [->|Hd].
  { rewrite (bool_decide_eq_true_2 ("bangalore" = "bangalore")) by done. cbn.
    repeat split; [lia | |].
    - apply NoDup_cons. split; [|apply NoDup_singleton].
      intros Hx%list_elem_of_singleton. congruence.
    - intros [|[|i]] a b Ha Hb; cbn in *; [right; congruence | done | done]. }
  rewrite (bool_decide_eq_false_2 _ Hd). cbn.
  repeat split; [lia | |].
  - apply NoDup_cons. split.
    { intros [Hx|Hx%list_elem_of_singleton]%elem_of_cons; congruence. }
    apply NoDup_cons. split; [|apply NoDup_singleton].
    intros Hx%list_elem_of_singleton. congruence.
  - intros [|[|[|i]]] a b Ha Hb; cbn in *;
      [right; congruence | left; congruence | done | done].
Qed.

Lemma getTransferRoute_shape_witness :
  "chennai" = "bangalore" \/ "bangalore" = "bangalore".
Proof.
  refine (proj2 (proj2 (proj2 (proj2
            (getTransferRoute_shape "chennai" "delhi"))))
            0%nat "chennai" "bangalore" _ _); reflexivity.
Defined.

(** * An id submitted again while its first transfer runs *)

(** X19. When an id is submitted again while the transfer first accepted
    under it is still running, the map points the id at the new status
    object only until the running transfer's next step: that step files the
    old object under the id again, so [getTransferStatus] then returns the
    status of the older transfer. *)
Theorem older_transfer_takes_the_id_back
    (random : nat -> Q) (now : Z) (es : list Event)
    (request : TransferRequest.t) (t : Task) :
  let s := run random (start random now) es in
  timers (manager s) !! 0%nat = Some t ->
  TransferRequest.id (task_request t) = TransferRequest.id request ->
  validateTransferRequest request = true ->
  isStationHealthy (healthData s) (TransferRequest.fromStation request) = true ->
  isStationHealthy (healthData s) (TransferRequest.toStation request) = true ->
  let s1 := step random s (Initiate request) in
  let s2 := step random s1 (Timeout 0) in
  activeTransfers (manager s1) !! TransferRequest.id request
  = Some (length (objects (manager s)))
  /\ activeTransfers (manager s2) !! TransferRequest.id request
     = Some (task_status t)
  /\ (task_status t < length (objects (manager s)))%nat
  /\ exists x, getTransferStatus (TransferRequest.id request) (manager s2)
               = Some x
               /\ objects (manager s2) !! task_status t = Some x.
Proof.
  intros s Ht Hid Hv Hf Hto s1 s2.
  pose proof (manager_inv_run random es _ (manager_inv_start random now)) as Hm.
  fold s in Hm.
  assert (Hin : t ∈ timers (manager s)) by (by eapply list_elem_of_lookup_2).
  destruct (inv_tasks _ Hm t Hin) as (x & Hx & _ & Hxid & _).
  assert (Hs1 : manager s1
                = processTransferQueue (enqueueTransfer request (manager s))).
  { unfold s1. cbn [step manager]. by rewrite initiateTransfer_accepted. }
  rewrite processTransferQueue_accepted in Hs1 by apply Hm.
  assert (Hm1 : manager_inv (manager s1)) by (by apply manager_inv_step).
  split; [rewrite Hs1; cbn; by rewrite lookup_insert_eq|].
  assert (Hmap : activeTransfers (manager s2) !! TransferRequest.id request
                 = Some (task_status t)).
  { unfold s2. cbn [step manager]. unfold timer_fires.
    assert (Ht1 : timers (manager s1) !! 0%nat = Some t).
    { rewrite Hs1. cbn [timers]. by apply lookup_app_l_Some. }
    rewrite Ht1.
    set (m0 := mkManager _ _ _ (delete 0%nat (timers (manager s1)))).
    assert (Hx1 : objects m0 !! task_status t = Some x).
    { unfold m0. cbn [objects]. rewrite Hs1. cbn [objects].
      by apply lookup_app_l_Some. }
    destruct (resume_effect t m0 x Hx1) as [_ Hr].
    destruct Hr as [s' t' _ _ _ _ _ _ Hmap|s' _ _ _ _ _ Hmap|_ _ Hmap];
      rewrite Hmap, ?Hxid, Hid; by rewrite lookup_insert_eq. }
  split; [done|]. split; [by eapply lookup_lt_Some|].
  pose proof (manager_inv_step random s1 (Timeout 0) Hm1) as Hm2. fold s2 in Hm2.
  destruct (inv_active _ Hm2 _ _ Hmap) as (y & Hy & _).
  exists y. split; [|done]. apply getTransferStatus_Some. eauto.
Qed.

Lemma older_transfer_takes_the_id_back_witness :
  activeTransfers
    (manager (step random_half
                (step random_half
                   (run random_half (start random_half 0) [Initiate request_t1])
                   (Initiate request_t1))
                (Timeout 0)))
  !! "t1" = Some 0%nat.
Proof.
  pose proof (older_transfer_takes_the_id_back random_half 0
                [Initiate request_t1] request_t1
                (mkTask request_t1 0 ["chennai"; "bangalore"; "delhi"] 0 0))
    as H.
  cbv zeta in H.
  assert (Hf : isStationHealthy (healthData (run random_half
                 (start random_half 0) [Initiate request_t1])) "chennai" = true)
    by (vm_compute; reflexivity).
  assert (Ht : isStationHealthy (healthData (run random_half
                 (start random_half 0) [Initiate request_t1])) "delhi" = true)
    by (vm_compute; reflexivity).
  destruct (H eq_refl eq_refl eq_refl Hf Ht) as (_ & Hback & _).
  exact Hback.
Defined.

(** * The first refreshes *)

Lemma clamp_latency_step (x r : Q) (B : Z) :
  100 <= B -> (r <= 1)%Q -> (x <= inject_Z B)%Q ->
  (clamp 30 150 (x + (r - (1 # 2)) * 20) <= inject_Z (B + 10))%Q.
Proof.
  intros HB Hr Hx. unfold clamp. apply Q.max_lub.
  - change 30%Q with (inject_Z 30). rewrite <- Zle_Qle. lia.
  - eapply Qle_trans; [apply Q.le_min_r|].
    rewrite inject_Z_plus.
    apply Qplus_le_compat; [done|].
    destruct r as [a b]. unfold Qle in *. cbn in *. lia.
Qed.

Lemma ISRO_SUBNET_CONFIG_NoDup : NoDup (map fst ISRO_SUBNET_CONFIG).
Proof.
  cbn. repeat (apply NoDup_cons; split;
               [intros H; repeat (apply elem_of_cons in H as [H|H];
                                  [discriminate|]);
                by apply elem_of_nil in H|]).
  constructor.
Qed.

Section FirstRefreshes.

Variable random : nat -> Q.
Hypothesis random_range : forall n, (0 <= random n < 1)%Q.

Lemma updateHealthData_loop_untouched (now : Z) (stationId : string)
    (stations : list (string * ISROSubnetConfig.t)) :
  stationId ∉ map fst stations ->
  forall (h : gmap string SubnetHealth.t) (n : nat),
    (updateHealthData_loop random now stations h n).1 !! stationId
    = h !! stationId.
Proof.
  induction stations as [|[k config] rest IH]; intros Hout h n; [done|].
  cbn [updateHealthData_loop]. unfold mbind, Rand_bind.
  destruct (checkStationHealth random now h k config n) as [y n'].
  cbn [map fst] in Hout. apply not_elem_of_cons in Hout as [Hne Hout].
  rewrite IH by done. by rewrite lookup_insert_ne.
Qed.

Lemma updateHealthData_loop_latency_step (now : Z) (stationId : string) (B : Z)
    (stations : list (string * ISROSubnetConfig.t)) :
  100 <= B -> NoDup (map fst stations) ->
  forall (h : gmap string SubnetHealth.t) (n : nat),
    (exists x, h !! stationId = Some x
               /\ (SubnetHealth.networkLatency x <= inject_Z B)%Q) ->
    exists x, (updateHealthData_loop random now stations h n).1 !! stationId
              = Some x
              /\ (SubnetHealth.networkLatency x <= inject_Z (B + 10))%Q.
Proof.
  intros HB. induction stations as [|[k config] rest IH]; intros Hnd h n Hb.
  { destruct Hb as (x & Hx & Hlt). exists x. split; [done|].
    eapply Qle_trans; [exact Hlt|]. rewrite <- Zle_Qle. lia. }
  cbn [map fst] in Hnd. apply NoDup_cons in Hnd as [Hout Hnd].
  destruct (decide (k = stationId)) as [->|Hne].
  - cbn [updateHealthData_loop]. unfold mbind, Rand_bind.
    destruct (checkStationHealth_fields random now h stationId config n)
      as (base & u & bl & c & l & d & Hbase & Hnew).
    destruct (checkStationHealth random now h stationId config n) as [y n'].
    cbn [fst snd] in *. rewrite updateHealthData_loop_untouched by done.
    rewrite lookup_insert_eq. exists y. split; [done|]. subst y.
    cbn [SubnetHealth.networkLatency].
    destruct Hb as (x & Hx & Hlt).
    destruct Hbase as [Hb|[Hb _]]; [|congruence].
    assert (base = x) as -> by congruence.
    apply clamp_latency_step;
      [done | apply Qlt_le_weak, random_range | done].
  - cbn [updateHealthData_loop]. unfold mbind, Rand_bind.
    destruct (checkStationHealth random now h k config n) as [y n'].
    apply IH; [done|]. by rewrite lookup_insert_ne.
Qed.

Lemma initializeHealthMonitoring_loop_latency (now : Z)
    (stations : list (string * ISROSubnetConfig.t)) :
  forall (h : gmap string SubnetHealth.t) (n : nat),
    (forall k x, h !! k = Some x -> (SubnetHealth.networkLatency x <= 100)%Q) ->
    forall k x,
      (initializeHealthMonitoring_loop random now stations h n).1 !! k = Some x ->
      (SubnetHealth.networkLatency x <= 100)%Q.
Proof.
  induction stations as [|[st config] rest IH]; intros h n Hh; [done|].
  cbn [initializeHealthMonitoring_loop].
  unfold mbind, Rand_bind, Math_random. apply IH.
  intros k x. rewrite lookup_insert.
  destruct (decide (st = k)); [|apply Hh].
  intros [= <-]. cbn.
  destruct (random_range n) as [_ Hlt].
  destruct (random n) as [a b]. unfold Qle, Qlt in *. cbn in *. lia.
Qed.

Lemma latency_run_step (es : list Event) :
  forall (s : System) (n : nat),
    (forall stationId, In stationId station_ids ->
       exists x, healthData s !! stationId = Some x
                 /\ (SubnetHealth.networkLatency x
                     <= inject_Z (100 + 10 * Z.of_nat n))%Q) ->
    forall stationId, In stationId station_ids ->
      exists x, healthData (run random s es) !! stationId = Some x
                /\ (SubnetHealth.networkLatency x
                    <= inject_Z (100 + 10 * Z.of_nat (n + refreshes es)))%Q.
Proof.
  induction es as [|e es IH]; intros s n Hs stationId Hin.
  { cbn. rewrite Nat.add_0_r. by apply Hs. }
  destruct e as [request|transferId|k|now];
    try (cbn [refreshes run fold_left]; by apply (IH _ n)).
  cbn [refreshes run fold_left].
  replace (n + S (refreshes es))%nat with (S n + refreshes es)%nat by lia.
  apply IH; [|done]. intros st Hst. cbn [step]. unfold updateHealthData.
  destruct (updateHealthData_loop_latency_step now st
              (100 + 10 * Z.of_nat n) ISRO_SUBNET_CONFIG)
    with (h := healthData s) (n := randomCalls s) as (x & Hx & Hlt);
    [lia | apply ISRO_SUBNET_CONFIG_NoDup | by apply Hs |].
  destruct (updateHealthData_loop random now ISRO_SUBNET_CONFIG (healthData s)
              (randomCalls s)) as [h' n'].
  exists x. split; [done|].
  eapply Qle_trans; [exact Hlt|]. rewrite <- Zle_Qle. lia.
Qed.

End FirstRefreshes.

(** X20. No station turns unhealthy during the first four refreshes: the
    latency starts at 100 at most and a refresh adds 10 at most, which
    leaves it at 140 or less, below the 150 of the health test.  Neither
    bound depends on how the sums are rounded.  So as long as at most four
    refreshes have run, every station of the registry is healthy and every
    valid request between two of them is accepted. *)
Theorem stations_are_healthy_at_first
    (random : nat -> Q) (now : Z) (es : list Event) :
  (forall n, (0 <= random n < 1)%Q) ->
  (refreshes es <= 4)%nat ->
  let s := run random (start random now) es in
  (forall stationId, In stationId station_ids ->
     isStationHealthy (healthData s) stationId = true)
  /\ (forall request,
         validateTransferRequest request = true ->
         In (TransferRequest.fromStation request) station_ids ->
         In (TransferRequest.toStation request) station_ids ->
         (initiateTransfer (healthData s) request (manager s)).2
         = Resolved (TransferRequest.id request)).
Proof.
  intros Hrange Hfew s.
  assert (Hall : forall stationId, In stationId station_ids ->
            isStationHealthy (healthData s) stationId = true).
  { intros stationId Hin.
    destruct (latency_run_step random Hrange es (start random now) 0)
      with stationId as (x & Hx & Hlt); [|done|].
    { intros st Hst.
      destruct (health_inv_start random Hrange now) as [_ Hd].
      destruct (Hd st Hst) as [z Hz]. exists z. split; [done|].
      revert Hz. unfold start, initializeHealthMonitoring.
      pose proof (initializeHealthMonitoring_loop_latency random Hrange now
                    ISRO_SUBNET_CONFIG ∅ 0%nat) as Hinit.
      destruct (initializeHealthMonitoring_loop random now ISRO_SUBNET_CONFIG
                  ∅ 0%nat) as [h n].
      cbn. intros Hz. by apply (Hinit ltac:(done) st z). }
    destruct (health_inv_run random es (start random now)
                (health_inv_start random Hrange now)) as [Hr _].
    fold s in Hx, Hr. destruct (Hr _ _ Hx) as ([Hu _] & [Hc _] & _).
    unfold isStationHealthy. rewrite Hx.
    assert (Hu' : Qle_bool (95 # 100) (SubnetHealth.uptime x) = true).
    { apply Qle_bool_iff. eapply Qle_trans; [|exact Hu]. Qdecide. }
    assert (Hc' : Qle_bool (95 # 100) (SubnetHealth.consensusRate x) = true).
    { apply Qle_bool_iff. eapply Qle_trans; [|exact Hc]. Qdecide. }
    rewrite Hu', Hc'. cbn. apply Qlt_bool_iff.
    eapply Qle_lt_trans; [exact Hlt|].
    change 150%Q with (inject_Z 150). rewrite <- Zlt_Qlt. lia. }
  split; [done|]. intros request Hv Hf Ht.
  by rewrite initiateTransfer_accepted by auto.
Qed.

Lemma stations_are_healthy_at_first_witness :
  isStationHealthy
    (healthData (run random_high (start random_high 0)
                   (map HealthInterval (seq_Z 4)))) "sriharikota" = true.
Proof.
  refine (proj1 (stations_are_healthy_at_first random_high 0
                   (map HealthInterval (seq_Z 4)) _ _) "sriharikota" _).
  - intros n. unfold random_high. split; Qclosed.
  - vm_compute. lia.
  - right. right. right. left. reflexivity.
Defined.

(** * Circuits *)

Lemma batchProcessCircuits_loop_map (circuits : list CircuitCall.t) :
  forall results,
    batchProcessCircuits_loop circuits results
    = results ++ map batchProcessCircuits_body circuits.
Proof.
  induction circuits as [|circuit rest IH]; intros results; cbn.
  - by rewrite app_nil_r.
  - by rewrite IH, <- app_assoc.
Qed.

Lemma batchProcessCircuits_map (circuits : list CircuitCall.t) :
  batchProcessCircuits circuits = map batchProcessCircuits_body circuits.
Proof. unfold batchProcessCircuits. by rewrite batchProcessCircuits_loop_map. Qed.

Lemma batchProcessCircuits_body_name (circuit : CircuitCall.t) :
  BatchEntry.name (batchProcessCircuits_body circuit) = CircuitCall.name circuit.
Proof.
  unfold batchProcessCircuits_body.
  by destruct (CIRCUIT_CONFIGS_get (CircuitCall.name circuit)).
Qed.

Lemma CIRCUIT_CONFIGS_get_Own (circuitName : string) (config : CircuitConfig.t) :
  CIRCUIT_CONFIGS_get circuitName = Own config ->
  In (circuitName, config) CIRCUIT_CONFIGS.
Proof.
  unfold CIRCUIT_CONFIGS_get.
  destruct (List.find _ CIRCUIT_CONFIGS) as [[k c]|] eqn:Hfind.
  - intros [= <-]. apply find_some in Hfind as [Hin Heq].
    apply String.eqb_eq in Heq. cbn in Heq. by subst k.
  - by destruct (mem_string _ _).
Qed.


(** X21. The circuit [selectOptimalCircuit] names is always one of the
    configured ones, whatever the requirements: five input keys are enough
    for it to pass [validateCircuitInputs], and [batchProcessCircuits]
    answers a call to it with a successful entry carrying as many public
    signals as the configuration declares. *)
Theorem selected_circuit_is_configured
    (requirements : Requirements.t) (inputs : list string) :
  let circuitName := selectOptimalCircuit requirements in
  exists config,
    In (circuitName, config) CIRCUIT_CONFIGS
    /\ CircuitConfig.name config = circuitName
    /\ ((5 <= length inputs)%nat ->
        validateCircuitInputs circuitName inputs = true)
    /\ batchProcessCircuits [CircuitCall.mk circuitName inputs]
       = [BatchEntry.mk circuitName
            (Some (CircuitResult.mk mock_proof
                     (repeat "0x0"
                        (Z.to_nat (CircuitConfig.publicInputs config)))))
            true].
Proof.
  destruct requirements as [size [] []]; cbn;
    eexists; (split; [|split; [|split]]);
    try (intros Hlen; unfold validateCircuitInputs; cbn; lia);
    try reflexivity; cbn; tauto.
Qed.



(** X23. [batchProcessCircuits] answers every call, in order and under the
    call's name, and a call whose inputs pass [validateCircuitInputs] gets a
    successful entry with the configured number of public signals.  A failed
    entry is one whose name is not a property of [CIRCUIT_CONFIGS] at all. *)
Theorem batchProcessCircuits_answers_every_call (circuits : list CircuitCall.t) :
  map BatchEntry.name (batchProcessCircuits circuits)
  = map CircuitCall.name circuits
  /\ (forall i circuit,
        circuits !! i = Some circuit ->
        exists entry,
          batchProcessCircuits circuits !! i = Some entry
          /\ (BatchEntry.success entry = false <->
              js_in (CircuitCall.name circuit) CIRCUIT_CONFIGS = false)
          /\ (validateCircuitInputs (CircuitCall.name circuit)
                (CircuitCall.inputs circuit) = true ->
              exists config,
                In (CircuitCall.name circuit, config) CIRCUIT_CONFIGS
                /\ entry
                   = BatchEntry.mk (CircuitCall.name circuit)
                       (Some (CircuitResult.mk mock_proof
                                (repeat "0x0"
                                   (Z.to_nat
                                      (CircuitConfig.publicInputs config)))))
                       true)).
Proof.
  rewrite batchProcessCircuits_map. split.
  - rewrite map_map. apply map_ext. apply batchProcessCircuits_body_name.
  - intros i circuit Hi. exists (batchProcessCircuits_body circuit).
    split; [by rewrite list_lookup_fmap, Hi|].
    unfold batchProcessCircuits_body, validateCircuitInputs, js_in.
    unfold CIRCUIT_CONFIGS_get.
    destruct (List.find _ CIRCUIT_CONFIGS) as [[k c]|] eqn:Hfind.
    + apply find_some in Hfind as [Hin Heq].
      apply String.eqb_eq in Heq. cbn [fst] in Heq. subst k.
      split.
      * cbn [BatchEntry.success snd]. split; [done|].
        unfold mem_string. intros Hno.
        apply orb_false_elim in Hno as [Hno _].
        assert (existsb (String.eqb (CircuitCall.name circuit))
                  (map fst CIRCUIT_CONFIGS) = true); [|congruence].
        apply existsb_exists. exists (CircuitCall.name circuit).
        split; [|apply String.eqb_refl].
        apply in_map_iff. by exists (CircuitCall.name circuit, c).
      * intros _. by exists c.
    + assert (Hown : mem_string (CircuitCall.name circuit)
                       (map fst CIRCUIT_CONFIGS) = false).
      { unfold mem_string. apply not_true_is_false. intros Hex.
        apply existsb_exists in Hex as (k & Hk & Heq).
        apply in_map_iff in Hk as ([k' c] & Hfst & Hk). cbn in Hfst. subst k'.
        by apply (find_none _ _ Hfind) in Hk; cbn in Hk; congruence. }
      rewrite Hown. cbn [orb].
      destruct (mem_string (CircuitCall.name circuit) Object_prototype_names);
        cbn; (split; [split; done | done]).
Qed.
